(** * contentscript.js: the activation gate, the redirect and the stream wiring

  A shallow embedding of [app/scripts/contentscript.js].  JavaScript strings
  are modelled as lists of code units below U+0100 ([list ascii]): every
  string the script inspects ([location.href], [location.pathname],
  [location.hostname], a doctype name, a node name) is compared against
  ASCII text only, and a serialised URL is ASCII. *)

From Stdlib Require Import List Bool Arith Lia Ascii String Permutation.
From Stdlib Require Import ZArith DecimalString.
Import ListNotations.

Set Implicit Arguments.
Set Warnings "-register-all".
Local Open Scope list_scope.

(* ================================================================== *)
(** ** JavaScript strings *)

Module JsString.

Definition jsstring := list ascii.

(** A string literal of the source. *)
Definition js (s : string) : jsstring := list_ascii_of_string s.

Definition ascii_eqb (a b : ascii) : bool := Ascii.eqb a b.

Fixpoint eqb (a b : jsstring) : bool :=
  match a, b with
  | [], [] => true
  | x :: a', y :: b' => ascii_eqb x y && eqb a' b'
  | _, _ => false
  end.

(** [s.startsWith(p)], returning what follows the prefix. *)
Fixpoint stripPrefix (p s : jsstring) : option jsstring :=
  match p, s with
  | [], _ => Some s
  | _ :: _, [] => None
  | x :: p', y :: s' => if ascii_eqb x y then stripPrefix p' s' else None
  end.

(** [s.replace(pat, rep)] with a string pattern: only the first
    occurrence is replaced ([rep] holds no [$] here). *)
Fixpoint replace (pat rep s : jsstring) : jsstring :=
  match stripPrefix pat s with
  | Some rest => rep ++ rest
  | None => match s with
            | [] => []
            | c :: t => c :: replace pat rep t
            end
  end.

(** [c.toLowerCase()] on one code unit below U+0100: the letters A-Z and
    the Latin-1 capitals U+00C0-U+00DE (U+00D7 is the multiplication
    sign). *)
Definition lowerUnit (c : ascii) : ascii :=
  let n := nat_of_ascii c in
  if ((65 <=? n) && (n <=? 90))
     || ((192 <=? n) && (n <=? 222) && negb (n =? 215))
  then ascii_of_nat (n + 32) else c.

Definition toLowerCase (s : jsstring) : jsstring := map lowerUnit s.

(** [s] between double quotes. *)
Definition quoted (s : jsstring) : jsstring :=
  [ "034"%char ] ++ s ++ [ "034"%char ].

(** Truthiness of a string value: the empty string is falsy. *)
Definition truthy (s : jsstring) : bool :=
  match s with [] => false | _ :: _ => true end.

End JsString.
Import JsString.

(* ================================================================== *)
(** ** Regular expressions

  The fragment of ECMAScript regular expressions the script uses, with a
  backtracking matcher given as the list of the inputs that can remain
  after a match ("residuals").  [test] succeeds when some start index
  has a residual, which is what [RegExp.prototype.test] computes for a
  pattern without flags. *)

Module RegExp.

Inductive regex : Type :=
| Empty                          (* the empty pattern *)
| Char (c : ascii)               (* a literal character, also written \c *)
| Dot                            (* .   any character but a line terminator *)
| Seq (a b : regex)              (* ab *)
| Opt (a : regex)                (* a? *)
| Star (a : regex)               (* a* *)
| NegLookahead (a : regex)       (* (?!a) *)
| EndOfInput.                    (* $  without the m flag *)

(** Line terminators among the code units below U+0100: LF and CR. *)
Definition lineTerminator (c : ascii) : bool :=
  ascii_eqb c "010"%char || ascii_eqb c "013"%char.

Definition isNil {A} (l : list A) : bool :=
  match l with [] => true | _ :: _ => false end.

(** The iterations of a starred pattern: [step] gives the residuals of one
    iteration, and an iteration that consumes nothing is not repeated.  The
    fuel is the length of the input, which bounds the iterations. *)
Fixpoint iterate (step : jsstring -> list jsstring) (fuel : nat) (s : jsstring)
  : list jsstring :=
  s :: match fuel with
       | 0 => []
       | S fuel' =>
           flat_map
             (fun m => if List.length m <? List.length s
                       then iterate step fuel' m else [])
             (step s)
       end.

Fixpoint residuals (r : regex) (s : jsstring) : list jsstring :=
  match r with
  | Empty => [s]
  | Char c =>
      match s with
      | x :: t => if ascii_eqb x c then [t] else []
      | [] => []
      end
  | Dot =>
      match s with
      | x :: t => if lineTerminator x then [] else [t]
      | [] => []
      end
  | Seq a b => flat_map (residuals b) (residuals a s)
  | Opt a => residuals a s ++ [s]
  | Star a => iterate (residuals a) (List.length s) s
  | NegLookahead a => if isNil (residuals a s) then [s] else []
  | EndOfInput => match s with [] => [[]] | _ :: _ => [] end
  end.

(** The start positions of a search: every tail of the input. *)
Fixpoint tails (s : jsstring) : list jsstring :=
  s :: match s with [] => [] | _ :: t => tails t end.

(** [r.test(s)]. *)
Definition test (r : regex) (s : jsstring) : bool :=
  existsb (fun t => negb (isNil (residuals r t))) (tails s).

(** A run of literal characters. *)
Fixpoint literal (w : jsstring) : regex :=
  match w with
  | [] => Empty
  | c :: w' => Seq (Char c) (literal w')
  end.

(** The pattern denoted by a piece of pattern source made of ordinary
    characters, [.] and escaped characters [\c].  A backslash with
    nothing after it does not occur in the sources built below. *)
Fixpoint ofSource (src : jsstring) : regex :=
  match src with
  | [] => Empty
  | c :: rest =>
      if ascii_eqb c "\"%char then
        match rest with
        | d :: rest' => Seq (Char d) (ofSource rest')
        | [] => Empty
        end
      else if ascii_eqb c "."%char then Seq Dot (ofSource rest)
      else Seq (Char c) (ofSource rest)
  end.

(** Characters that stand for themselves in pattern source: letters,
    digits, [-] and [/]. *)
Definition ordinary (c : ascii) : bool :=
  let n := nat_of_ascii c in
  ((48 <=? n) && (n <=? 57)) || ((65 <=? n) && (n <=? 90))
  || ((97 <=? n) && (n <=? 122)) || (n =? 45) || (n =? 47).

Definition plainSource (src : jsstring) : bool :=
  forallb (fun c => ordinary c || ascii_eqb c "."%char) src.

End RegExp.
Import RegExp.

(* ================================================================== *)
(** ** Completions: a value, or a thrown error *)

Inductive JsError : Type :=
| TypeError (message : jsstring)
| Error (message : jsstring).

Inductive completion (A : Type) : Type :=
| Normal (a : A)
| Throw (e : JsError).
Arguments Normal {A} a.
Arguments Throw {A} e.

(** [a && b] on booleans: [b] is evaluated only when [a] is [true]. *)
Definition andAlso (a : completion bool) (b : unit -> completion bool)
  : completion bool :=
  match a with
  | Normal true => b tt
  | Normal false => Normal false
  | Throw e => Throw e
  end.

(** [!a]. *)
Definition notC (a : completion bool) : completion bool :=
  match a with
  | Normal v => Normal (negb v)
  | Throw e => Throw e
  end.

(* ================================================================== *)
(** ** The activation gate *)

Module Gate.

Record DocumentType := { name : jsstring }.
Record Element := { nodeName : jsstring }.

(** [document.doctype] and [document.documentElement] are both nullable. *)
Record Document := {
  doctype : option DocumentType;
  documentElement : option Element
}.

Record Location := {
  href : jsstring;
  pathname : jsstring;
  hostname : jsstring
}.

Record Window := { document : Document; location : Location }.

(** [doctypeCheck]. *)
Definition doctypeCheck (window : Window) : completion bool :=
  match doctype (document window) with
  | Some dt => Normal (JsString.eqb (name dt) (js "html"))
  | None => Normal true
  end.

(** The two patterns of [prohibitedTypes]: [/\.xml$/] and [/\.pdf$/]. *)
Definition prohibitedTypes : list regex :=
  [ Seq (Char "."%char) (Seq (literal (js "xml")) EndOfInput);
    Seq (Char "."%char) (Seq (literal (js "pdf")) EndOfInput) ].

Fixpoint suffixLoop (types : list regex) (currentUrl : jsstring) : bool :=
  match types with
  | [] => true
  | r :: types' => if test r currentUrl then false else suffixLoop types' currentUrl
  end.

(** [suffixCheck]. *)
Definition suffixCheck (window : Window) : completion bool :=
  Normal (suffixLoop prohibitedTypes (pathname (location window))).

(** [documentElementCheck]: reading [nodeName] off a missing root element
    throws. *)
Definition documentElementCheck (window : Window) : completion bool :=
  match documentElement (document window) with
  | None => Throw (TypeError (js "Cannot read property 'nodeName' of null"))
  | Some root =>
      let documentElement := nodeName root in
      if truthy documentElement
      then Normal (JsString.eqb (toLowerCase documentElement) (js "html"))
      else Normal true
  end.

Definition blacklistedDomains : list jsstring :=
  [ js "uscourts.gov";
    js "dropbox.com";
    js "webbyawards.com";
    js "cdn.shopify.com/s/javascripts/tricorder/xtld-read-only-frame.html";
    js "adyen.com";
    js "gravityforms.com";
    js "harbourair.com";
    js "ani.gamer.com.tw";
    js "blueskybooking.com";
    js "sharefile.com" ].

(** [(?:https?:\/\/)]. *)
Definition schemePattern : regex :=
  Seq (literal (js "http")) (Seq (Opt (Char "s"%char)) (literal (js "://"))).

(** [new RegExp(`(?:https?:\\/\\/)(?:(?!${blacklistedDomain}).)*$`)]. *)
Definition regexFor (blacklistedDomain : jsstring) : regex :=
  Seq schemePattern
      (Seq (Star (Seq (NegLookahead (ofSource blacklistedDomain)) Dot))
           EndOfInput).

(** The body of the loop for one entry. *)
Definition currentRegex (entry : jsstring) : regex :=
  let blacklistedDomain := replace (js ".") (js "\.") entry in
  regexFor blacklistedDomain.

Fixpoint blacklistLoop (domains : list jsstring) (currentUrl : jsstring) : bool :=
  match domains with
  | [] => false
  | entry :: domains' =>
      if negb (test (currentRegex entry) currentUrl) then true
      else blacklistLoop domains' currentUrl
  end.

(** [blacklistedDomainCheck]. *)
Definition blacklistedDomainCheck (window : Window) : completion bool :=
  Normal (blacklistLoop blacklistedDomains (href (location window))).

(** [shouldInjectProvider]. *)
Definition shouldInjectProvider (window : Window) : completion bool :=
  andAlso (doctypeCheck window) (fun _ =>
  andAlso (suffixCheck window) (fun _ =>
  andAlso (documentElementCheck window) (fun _ =>
  notC (blacklistedDomainCheck window)))).

End Gate.
Import Gate.

(* ================================================================== *)
(** ** JavaScript values, errors as values, and the effects of the script *)

Module Js.

(** The numbers modelled: the integers below 2^53 in magnitude, which
    JavaScript holds exactly and prints with all their decimal digits. *)
Record SafeInteger := {
  integer : Z;
  safe : Z.ltb (Z.abs integer) 9007199254740992 = true
}.

(** The values a message or a callback argument can be.  Numbers are the
    safe integers; objects are plain data objects, as delivered by a
    message channel. *)
Inductive value : Type :=
| VUndefined
| VNull
| VBool (b : bool)
| VNumber (n : SafeInteger)
| VString (s : jsstring)
| VError (e : JsError)
| VObject (fields : list (jsstring * value)).

(** [!!v]. *)
Definition truthy (v : value) : bool :=
  match v with
  | VUndefined | VNull => false
  | VBool b => b
  | VNumber n => negb (Z.eqb (integer n) 0)
  | VString s => JsString.truthy s
  | VError _ | VObject _ => true
  end.

Definition errorName (e : JsError) : jsstring :=
  match e with TypeError _ => js "TypeError" | Error _ => js "Error" end.

Definition message (e : JsError) : jsstring :=
  match e with TypeError m => m | Error m => m end.

(** [String(e)] for an error, which is also the first line of [e.stack];
    the frames an engine appends to the stack are not modelled. *)
Definition errorToString (e : JsError) : jsstring :=
  errorName e ++ js ": " ++ message e.

(** [`${v}`]. *)
Definition toString (v : value) : jsstring :=
  match v with
  | VUndefined => js "undefined"
  | VNull => js "null"
  | VBool true => js "true"
  | VBool false => js "false"
  | VNumber n => js (NilEmpty.string_of_int (Z.to_int (integer n)))
  | VString s => s
  | VError e => errorToString e
  | VObject _ => js "[object Object]"
  end.

Fixpoint lookup (key : jsstring) (fields : list (jsstring * value)) : value :=
  match fields with
  | [] => VUndefined
  | (k, v) :: fields' => if JsString.eqb k key then v else lookup key fields'
  end.

(** [v.key]: reading a property off [null] or [undefined] throws; a
    primitive or an error object has none of the data properties read
    here. *)
Definition getProperty (v : value) (key : jsstring) : completion value :=
  match v with
  | VUndefined | VNull =>
      Throw (TypeError (js "Cannot read property '" ++ key ++ js "' of " ++ toString v))
  | VObject fields => Normal (lookup key fields)
  | _ => Normal VUndefined
  end.

(** [v === 'text']. *)
Definition strictEqString (v : value) (text : jsstring) : bool :=
  match v with
  | VString s => JsString.eqb s text
  | _ => false
  end.

(** What the script does to the outside, in the order it does it. *)
Inductive Effect : Type :=
| ConsoleLog (text : jsstring)
| ConsoleWarn (text : jsstring)
| ConsoleError (text : jsstring) (arg : value)
| LogError (args : list value)       (* log.error(...) *)
| SendMessage (message : value)      (* extension.runtime.sendMessage(message, ...) *)
| WriteCallback (arg : value)        (* callback(arg), the completion callback of write *)
| Navigate (url : jsstring).         (* window.location.href = url *)

(** A computation that performs effects and then returns or throws. *)
Definition Eff (A : Type) : Type := (list Effect * completion A)%type.

Definition ret {A} (a : A) : Eff A := ([], Normal a).

Definition bind {A B} (m : Eff A) (k : A -> Eff B) : Eff B :=
  match m with
  | (es, Normal a) => let (es', r) := k a in (es ++ es', r)
  | (es, Throw e) => (es, Throw e)
  end.

Definition perform (e : Effect) : Eff unit := ([e], Normal tt).

Definition throw {A} (e : JsError) : Eff A := ([], Throw e).

Definition lift {A} (c : completion A) : Eff A := ([], c).

(** [try { body } catch (error) { handler }]. *)
Definition tryCatch {A} (body : Eff A) (handler : JsError -> Eff A) : Eff A :=
  match body with
  | (es, Throw e) => let (es', r) := handler e in (es ++ es', r)
  | done => done
  end.

End Js.
Import Js.

Notation "x <- m ;; k" := (Js.bind m (fun x => k))
  (at level 61, m at next level, right associativity).
Notation "m ;;; k" := (Js.bind m (fun _ => k))
  (at level 61, right associativity).

(** What the page and the browser supply to the script. *)
Record Env := {
  window : Window;
  extensionBaseURL : jsstring;   (* extension.runtime.getURL('') *)
  lastError : value              (* extension.runtime.lastError *)
}.

(** [extension.runtime.getURL(path)]. *)
Definition getURL (env : Env) (path : jsstring) : jsstring :=
  extensionBaseURL env ++ path.

(* ================================================================== *)
(** ** querystring.stringify and the phishing redirect *)

Module Querystring.

Definition hexDigit (n : nat) : ascii :=
  nth n (js "0123456789ABCDEF") "0"%char.

(** [%XX] for one byte. *)
Definition percent (byte : nat) : jsstring :=
  [ "%"%char; hexDigit (byte / 16); hexDigit (byte mod 16) ].

(** The characters [escape] leaves alone: letters, digits and [-_.!~*'()]. *)
Definition unreserved (c : ascii) : bool :=
  let n := nat_of_ascii c in
  ((48 <=? n) && (n <=? 57)) || ((65 <=? n) && (n <=? 90))
  || ((97 <=? n) && (n <=? 122))
  || existsb (ascii_eqb c) (js "-_.!~*'()").

(** One code unit: kept, or the percent-encoding of its UTF-8 bytes (one
    byte below U+0080, two from there to U+00FF). *)
Definition escapeUnit (c : ascii) : jsstring :=
  let n := nat_of_ascii c in
  if n <? 128 then (if unreserved c then [c] else percent n)
  else percent (192 + n / 64) ++ percent (128 + n mod 64).

(** [querystring.escape(s)]. *)
Definition escape (s : jsstring) : jsstring := flat_map escapeUnit s.

Fixpoint join (sep : jsstring) (parts : list jsstring) : jsstring :=
  match parts with
  | [] => []
  | [p] => p
  | p :: parts' => p ++ sep ++ join sep parts'
  end.

(** [querystring.stringify(obj)] for an object with string values, its
    keys in insertion order. *)
Definition stringify (obj : list (jsstring * jsstring)) : jsstring :=
  join (js "&") (map (fun kv => escape (fst kv) ++ js "=" ++ escape (snd kv)) obj).

(** *** Reading a query string back (the counterpart of [stringify]) *)

Definition hexValue (c : ascii) : option nat :=
  let n := nat_of_ascii c in
  if (48 <=? n) && (n <=? 57) then Some (n - 48)
  else if (65 <=? n) && (n <=? 70) then Some (n - 55)
  else if (97 <=? n) && (n <=? 102) then Some (n - 87)
  else None.

(** Percent-decoding to bytes. *)
Fixpoint percentDecode (s : jsstring) : list nat :=
  match s with
  | [] => []
  | c :: t =>
      if ascii_eqb c "%"%char then
        match t with
        | h :: l :: t' =>
            match hexValue h, hexValue l with
            | Some a, Some b => (16 * a + b) :: percentDecode t'
            | _, _ => nat_of_ascii c :: percentDecode t
            end
        | _ => nat_of_ascii c :: percentDecode t
        end
      else nat_of_ascii c :: percentDecode t
  end.

(** UTF-8 decoding of the one- and two-byte sequences. *)
Fixpoint utf8Decode (bytes : list nat) : jsstring :=
  match bytes with
  | [] => []
  | b :: t =>
      if b <? 128 then ascii_of_nat b :: utf8Decode t
      else match t with
           | b' :: t' => ascii_of_nat ((b - 192) * 64 + (b' - 128)) :: utf8Decode t'
           | [] => [ascii_of_nat b]
           end
  end.

(** [querystring.unescape(s)]. *)
Definition unescape (s : jsstring) : jsstring := utf8Decode (percentDecode s).

(** [s] cut at the first [sep]: what precedes it, and what follows it if
    [sep] occurs. *)
Fixpoint cut (sep : ascii) (s : jsstring) : jsstring * option jsstring :=
  match s with
  | [] => ([], None)
  | c :: t =>
      if ascii_eqb c sep then ([], Some t)
      else let (a, b) := cut sep t in (c :: a, b)
  end.

Fixpoint splitFuel (fuel : nat) (sep : ascii) (s : jsstring) : list jsstring :=
  match fuel with
  | 0 => [s]
  | S fuel' =>
      match cut sep s with
      | (a, None) => [a]
      | (a, Some b) => a :: splitFuel fuel' sep b
      end
  end.

(** [s.split(sep)]. *)
Definition split (sep : ascii) (s : jsstring) : list jsstring :=
  splitFuel (List.length s) sep s.

Definition parsePair (part : jsstring) : jsstring * jsstring :=
  match cut "="%char part with
  | (k, Some v) => (unescape k, unescape v)
  | (k, None) => (unescape k, [])
  end.

(** [querystring.parse(s)], as the list of its key and value pairs. *)
Definition parse (s : jsstring) : list (jsstring * jsstring) :=
  match s with
  | [] => []
  | _ :: _ => map parsePair (split "&"%char s)
  end.

End Querystring.

(** [redirectToPhishingWarning]. *)
Definition redirectToPhishingWarning (env : Env) : Eff unit :=
  perform (ConsoleLog (js "MetaMask - routing to Phishing Warning component")) ;;;
  let extensionURL := getURL env (js "phishing.html") in
  perform (Navigate
    (extensionURL ++ js "#" ++
     Querystring.stringify
       [ (js "hostname", hostname (location (window env)));
         (js "href", href (location (window env))) ])).

(** [logStreamDisconnectWarning]: [err.stack] is read off whatever truthy
    value the callback received. *)
Definition stackOf (err : value) : value :=
  match err with
  | VError e => VString (errorToString e)
  | VObject fields => lookup (js "stack") fields
  | _ => VUndefined
  end.

Definition logStreamDisconnectWarning (remoteLabel : jsstring) (err : value) : Eff unit :=
  let warningMsg := js "MetamaskContentscript - lost connection to " ++ remoteLabel in
  let warningMsg :=
    if truthy err
    then warningMsg ++ [ "010"%char ] ++ toString (stackOf err)
    else warningMsg in
  perform (ConsoleWarn warningMsg).

(* ================================================================== *)
(** ** The onboarding sink: the [write] of [addCurrentTab] *)

Module Onboarding.

(** Whether the call of [extension.runtime.sendMessage] itself throws. *)
Inductive SendOutcome : Type :=
| SendReturns
| SendThrows (e : JsError).

(** [handleSendMessageResponse], the response callback built for [chunk]. *)
Definition handleSendMessageResponse (env : Env) (chunk : value)
    (error success : value) : Eff unit :=
  let error :=
    if negb (truthy error) && negb (truthy success) then lastError env else error in
  if truthy error then
    ty <- lift (getProperty chunk (js "type")) ;;
    perform (LogError [ VString (js "Failed to send " ++ toString ty ++ js " message");
                        error ]) ;;;
    perform (WriteCallback error)
  else
    perform (WriteCallback VNull).

Definition registration (env : Env) : value :=
  VObject [ (js "type", VString (js "metamask:registerOnboarding"));
            (js "location", VString (href (location (window env)))) ].

(** [extension.runtime.sendMessage(message, handleSendMessageResponse)]. *)
Definition sendMessage (outcome : SendOutcome) (message : value) : Eff unit :=
  perform (SendMessage message) ;;;
  match outcome with
  | SendReturns => ret tt
  | SendThrows e => throw e
  end.

(** [write: (chunk, _, callback) => ...]. *)
Definition write (env : Env) (outcome : SendOutcome) (chunk : value) : Eff unit :=
  if negb (truthy chunk) then
    perform (WriteCallback (VError (Error (js "Malformed onboarding message"))))
  else
    tryCatch
      (ty <- lift (getProperty chunk (js "type")) ;;
       if strictEqString ty (js "registerOnboarding") then
         sendMessage outcome (registration env)
       else
         throw (Error (js "Unrecognized onboarding message type: '" ++ toString ty ++ js "'")))
      (fun error =>
         perform (LogError [VError error]) ;;;
         perform (WriteCallback (VError error))).

End Onboarding.

(* ================================================================== *)
(** ** The stream wiring built by [setupStreams]

    The stream libraries are modelled by the objects their constructors
    create and by a record of the calls the script makes, oldest first.
    What a multiplexer does to its channels when its own transport goes
    down is not modelled. *)

Module Streams.

Definition handle := nat.

(** The functions the script hands to the libraries. *)
Inductive Callback : Type :=
| LogDisconnect (remoteLabel : jsstring)
    (* (err) => logStreamDisconnectWarning(remoteLabel, err) *)
| LogOnboardingFailure
    (* error => console.error('MetaMask onboarding channel traffic failed', error) *)
| RedirectToPhishingWarning.
    (* redirectToPhishingWarning *)

Inductive Obj : Type :=
| LocalMessageDuplexStream (name target : jsstring)
| RuntimePort (name : jsstring)
| PortStream (port : handle)
| ObjectMultiplex (maxListeners : nat) (substreams : list (jsstring * handle))
| Substream (parent : handle) (name : jsstring)
| Writable.                                (* addCurrentTab, with the write of [Onboarding] *)

Inductive Call : Type :=
| NewLocalMessageDuplexStream (h : handle)
| RuntimeConnect (h : handle)
| NewPortStream (h port : handle)
| NewObjectMultiplex (h : handle)
| SetMaxListeners (h : handle) (n : nat)
| Pump (streams : list handle) (cb : Callback)
| CreateStream (mux : handle) (name : jsstring) (h : handle)
| NewWritable (h : handle)
| Once (h : handle) (event : jsstring) (cb : Callback).

(** How a stream came to its end: a graceful close, or an error. *)
Inductive Terminal : Type :=
| Ended
| Failed (err : value).

Record Pipeline := {
  members : list handle;
  onDone : Callback;
  live : bool
}.

Record Listener := {
  target : handle;
  event : jsstring;
  once : bool;
  listener : Callback
}.

(** The state of the page's script: the objects made so far, the streams
    that have ended, the pipes and listeners installed, and three
    records, oldest first: the library calls made, the callbacks of the
    script that ran, and the effects on the outside. *)
Record World := {
  env : Env;
  heap : list Obj;
  closed : list (handle * Terminal);
  pipelines : list Pipeline;
  listeners : list Listener;
  calls : list Call;
  invocations : list (Callback * value);
  effects : list Effect
}.

Definition initial (e : Env) : World :=
  {| env := e; heap := []; closed := []; pipelines := []; listeners := [];
     calls := []; invocations := []; effects := [] |}.

Definition withHeap (w : World) (x : list Obj) : World :=
  {| env := env w; heap := x; closed := closed w; pipelines := pipelines w;
     listeners := listeners w; calls := calls w; invocations := invocations w;
     effects := effects w |}.

Definition withClosed (w : World) (x : list (handle * Terminal)) : World :=
  {| env := env w; heap := heap w; closed := x; pipelines := pipelines w;
     listeners := listeners w; calls := calls w; invocations := invocations w;
     effects := effects w |}.

Definition withPipelines (w : World) (x : list Pipeline) : World :=
  {| env := env w; heap := heap w; closed := closed w; pipelines := x;
     listeners := listeners w; calls := calls w; invocations := invocations w;
     effects := effects w |}.

Definition withListeners (w : World) (x : list Listener) : World :=
  {| env := env w; heap := heap w; closed := closed w; pipelines := pipelines w;
     listeners := x; calls := calls w; invocations := invocations w;
     effects := effects w |}.

Definition withCalls (w : World) (x : list Call) : World :=
  {| env := env w; heap := heap w; closed := closed w; pipelines := pipelines w;
     listeners := listeners w; calls := x; invocations := invocations w;
     effects := effects w |}.

Definition withInvocations (w : World) (x : list (Callback * value)) : World :=
  {| env := env w; heap := heap w; closed := closed w; pipelines := pipelines w;
     listeners := listeners w; calls := calls w; invocations := x;
     effects := effects w |}.

Definition withEffects (w : World) (x : list Effect) : World :=
  {| env := env w; heap := heap w; closed := closed w; pipelines := pipelines w;
     listeners := listeners w; calls := calls w; invocations := invocations w;
     effects := x |}.

(** *** The setup monad: state passing, with exceptions *)

Definition M (A : Type) : Type := World -> completion A * World.

Definition mret {A} (a : A) : M A := fun w => (Normal a, w).

Definition mbind {A B} (m : M A) (k : A -> M B) : M B :=
  fun w => match m w with
           | (Normal a, w') => k a w'
           | (Throw e, w') => (Throw e, w')
           end.

Definition mthrow {A} (e : JsError) : M A := fun w => (Throw e, w).

Definition record (c : Call) : M unit :=
  fun w => (Normal tt, withCalls w (calls w ++ [c])).

Definition alloc (o : Obj) : M handle :=
  fun w => (Normal (List.length (heap w)), withHeap w (heap w ++ [o])).

Fixpoint update {A} (l : list A) (i : nat) (x : A) : list A :=
  match l, i with
  | [], _ => []
  | _ :: t, 0 => x :: t
  | y :: t, S i' => y :: update t i' x
  end.

Definition store (h : handle) (o : Obj) : M unit :=
  fun w => (Normal tt, withHeap w (update (heap w) h o)).

Definition load (h : handle) : M (option Obj) :=
  fun w => (Normal (nth_error (heap w) h), w).

End Streams.
Import Streams.

Notation "x <~ m ;; k" := (Streams.mbind m (fun x => k))
  (at level 61, m at next level, right associativity).
Notation "m >> k" := (Streams.mbind m (fun _ => k))
  (at level 61, right associativity).

Module Setup.

(** [new LocalMessageDuplexStream({ name, target })]. *)
Definition newLocalMessageDuplexStream (name target : jsstring) : M handle :=
  h <~ alloc (LocalMessageDuplexStream name target) ;;
  record (NewLocalMessageDuplexStream h) >> mret h.

(** [extension.runtime.connect({ name })]. *)
Definition runtimeConnect (name : jsstring) : M handle :=
  h <~ alloc (RuntimePort name) ;;
  record (RuntimeConnect h) >> mret h.

(** [new PortStream(port)]. *)
Definition newPortStream (port : handle) : M handle :=
  h <~ alloc (PortStream port) ;;
  record (NewPortStream h port) >> mret h.

(** [new ObjectMultiplex()]; an emitter starts with room for 10 listeners. *)
Definition newObjectMultiplex : M handle :=
  h <~ alloc (ObjectMultiplex 10 []) ;;
  record (NewObjectMultiplex h) >> mret h.

Definition notAMultiplexer {A} : M A :=
  mthrow (TypeError (js "not a multiplexer")).

(** [mux.setMaxListeners(n)]. *)
Definition setMaxListeners (mux : handle) (n : nat) : M unit :=
  o <~ load mux ;;
  match o with
  | Some (ObjectMultiplex _ subs) =>
      store mux (ObjectMultiplex n subs) >> record (SetMaxListeners mux n)
  | _ => notAMultiplexer
  end.

Definition hasKey (name : jsstring) (subs : list (jsstring * handle)) : bool :=
  existsb (fun kv => JsString.eqb (fst kv) name) subs.

(** Modelled from the spec: [createStream] of obj-multiplex, which is not
    under src/.  "createChannel(name) -> Channel: registers a new logical
    channel over the underlying Transport.  Fails (configuration error,
    fatal at setup time) if name is reused within the same Multiplexer
    instance." *)
Definition createStream (mux : handle) (name : jsstring) : M handle :=
  o <~ load mux ;;
  match o with
  | Some (ObjectMultiplex n subs) =>
      if hasKey name subs then
        mthrow (Error (js "ObjectMultiplex - Substream for name " ++ quoted name
                       ++ js " already exists"))
      else
        h <~ alloc (Substream mux name) ;;
        store mux (ObjectMultiplex n (subs ++ [(name, h)])) >>
        record (CreateStream mux name h) >> mret h
  | _ => notAMultiplexer
  end.

(** [new Writable({ objectMode: true, write })]. *)
Definition newWritable : M handle :=
  h <~ alloc Writable ;;
  record (NewWritable h) >> mret h.

(** [pump(...streams, cb)]: the streams are piped in a row and [cb] is kept
    for the end of the pipe. *)
Definition pump (streams : list handle) (cb : Callback) : M unit :=
  fun w =>
    (Normal tt,
     withCalls
       (withPipelines w
          (pipelines w ++ [ {| members := streams; onDone := cb; live := true |} ]))
       (calls w ++ [Pump streams cb])).

(** [stream.once(event, listener)]. *)
Definition onceOn (h : handle) (ev : jsstring) (cb : Callback) : M unit :=
  fun w =>
    (Normal tt,
     withCalls
       (withListeners w
          (listeners w
           ++ [ {| target := h; event := ev; once := true; listener := cb |} ]))
       (calls w ++ [Once h ev cb])).

(** [forwardTrafficBetweenMuxers]. *)
Definition forwardTrafficBetweenMuxers (channelName : jsstring) (muxA muxB : handle) : M unit :=
  channelA <~ createStream muxA channelName ;;
  channelB <~ createStream muxB channelName ;;
  pump [channelA; channelB; channelA]
       (LogDisconnect (js "MetaMask muxed traffic for channel " ++ quoted channelName
                       ++ js " failed.")).

(** [setupStreams]. *)
Definition setupStreams : M unit :=
  pageStream <~ newLocalMessageDuplexStream (js "contentscript") (js "inpage") ;;
  extensionPort <~ runtimeConnect (js "contentscript") ;;
  extensionStream <~ newPortStream extensionPort ;;
  pageMux <~ newObjectMultiplex ;;
  setMaxListeners pageMux 25 >>
  extensionMux <~ newObjectMultiplex ;;
  setMaxListeners extensionMux 25 >>
  pump [pageMux; pageStream; pageMux]
       (LogDisconnect (js "MetaMask Inpage Multiplex")) >>
  pump [extensionMux; extensionStream; extensionMux]
       (LogDisconnect (js "MetaMask Background Multiplex")) >>
  onboardingStream <~ createStream pageMux (js "onboarding") ;;
  addCurrentTab <~ newWritable ;;
  pump [onboardingStream; addCurrentTab] LogOnboardingFailure >>
  forwardTrafficBetweenMuxers (js "provider") pageMux extensionMux >>
  forwardTrafficBetweenMuxers (js "publicConfig") pageMux extensionMux >>
  forwardTrafficBetweenMuxers (js "cap") pageMux extensionMux >>
  phishingStream <~ createStream extensionMux (js "phishing") ;;
  onceOn phishingStream (js "data") RedirectToPhishingWarning.

(** The world the script leaves behind once [setupStreams] has run. *)
Definition wired (e : Env) : World := snd (setupStreams (initial e)).

End Setup.
Import Setup.

(* ================================================================== *)
(** ** The wiring at work: ends of streams, chunks and events *)

Module Run.

Definition statusOf (w : World) (h : handle) : option Terminal :=
  match find (fun c => Nat.eqb (fst c) h) (closed w) with
  | Some c => Some (snd c)
  | None => None
  end.

(** A stream reaches its end once; a later end of the same stream changes
    nothing. *)
Definition close (t : Terminal) (w : World) (h : handle) : World :=
  match statusOf w h with
  | Some _ => w
  | None => withClosed w (closed w ++ [(h, t)])
  end.

(** What a pipe's callback receives: the error, or nothing. *)
Definition terminalArg (t : Terminal) : value :=
  match t with Ended => VUndefined | Failed err => err end.

(** Running one of the script's callbacks on an argument. *)
Definition callbackEffects (e : Env) (cb : Callback) (arg : value) : list Effect :=
  match cb with
  | LogDisconnect remoteLabel => fst (logStreamDisconnectWarning remoteLabel arg)
  | LogOnboardingFailure =>
      [ ConsoleError (js "MetaMask onboarding channel traffic failed") arg ]
  | RedirectToPhishingWarning => fst (redirectToPhishingWarning e)
  end.

Definition invoke (cb : Callback) (arg : value) (w : World) : World :=
  withEffects
    (withInvocations w (invocations w ++ [(cb, arg)]))
    (effects w ++ callbackEffects (env w) cb arg).

Definition through (h : handle) (p : Pipeline) : bool :=
  live p && existsb (Nat.eqb h) (members p).

(** Modelled from the spec: pump, which is not under src/.  "Termination:
    when either channel ends (graceful close) or errors, the forwarder ends
    the other channel the same way and reports exactly one terminal event
    (error or clean close) to a caller-supplied handler; it never throws,
    it reports."  A pipe that has reported is finished and reports no
    more. *)
Definition settle (t : Terminal) (w : World) (p : Pipeline) : World :=
  invoke (onDone p) (terminalArg t) (fold_left (close t) (members p) w).

Definition finish (h : handle) (p : Pipeline) : Pipeline :=
  if through h p
  then {| members := members p; onDone := onDone p; live := false |}
  else p.

(** The stream [h] ends the way [t] says. *)
Definition terminate (h : handle) (t : Terminal) (w : World) : World :=
  match statusOf w h with
  | Some _ => w
  | None =>
      let hit := filter (through h) (pipelines w) in
      let w1 := close t w h in
      let w2 := withPipelines w1 (map (finish h) (pipelines w1)) in
      fold_left (settle t) hit w2
  end.

(** Streams ending one after the other. *)
Definition terminateAll (events : list (handle * Terminal)) (w : World) : World :=
  fold_left (fun w ev => terminate (fst ev) (snd ev) w) events w.

(** *** The onboarding pipe *)

Definition isWritable (w : World) (h : handle) : bool :=
  match nth_error (heap w) h with
  | Some Writable => true
  | _ => false
  end.

(** The live pipe that feeds the chunks of [source] to a writable sink. *)
Definition sinkOf (w : World) (source : handle) : option handle :=
  match find (fun p => live p &&
                       match members p with
                       | [s; d] => Nat.eqb s source && isWritable w d
                       | _ => false
                       end) (pipelines w) with
  | Some {| members := [_; d] |} => Some d
  | _ => None
  end.

Definition callbackArg (e : Effect) : option value :=
  match e with WriteCallback arg => Some arg | _ => None end.

Fixpoint firstCallback (es : list Effect) : option value :=
  match es with
  | [] => None
  | e :: es' => match callbackArg e with
                | Some arg => Some arg
                | None => firstCallback es'
                end
  end.

(** One chunk through [write], and through the response callback when the
    message was sent: [response] is what the extension answers with. *)
Definition consume (e : Env) (outcome : Onboarding.SendOutcome)
    (response : value * value) (chunk : value) : list Effect :=
  let es := fst (Onboarding.write e outcome chunk) in
  match firstCallback es with
  | Some _ => es
  | None =>
      es ++ fst (Onboarding.handleSendMessageResponse e chunk (fst response) (snd response))
  end.

(** Modelled from the spec: the Writable of readable-stream and the pipe
    that feeds it, which are not under src/.  The sink "receives discrete
    message objects" and takes them "in arrival order, one at a time".  A
    message it fails on, the "empty/null" one included, is "recovered
    locally as a reported error to the sink's own completion callback; does
    not terminate the owning Channel or Multiplexer".  A chunk on a source
    that has ended, or that feeds no live pipe, reaches no handler. *)
Definition deliver (source : handle) (outcome : Onboarding.SendOutcome)
    (response : value * value) (chunk : value) (w : World) : World :=
  match statusOf w source, sinkOf w source with
  | None, Some _ => withEffects w (effects w ++ consume (env w) outcome response chunk)
  | _, _ => w
  end.

(** *** Events *)

Definition hears (h : handle) (ev : jsstring) (l : Listener) : bool :=
  Nat.eqb (target l) h && JsString.eqb (event l) ev.

(** Modelled from the spec: the event emitter behind a stream, which is
    not under src/.  A listener added with [once] is "one-shot: consumes
    exactly the first incoming message, then detaches"; it is taken off
    the emitter as the event fires. *)
Definition emit (h : handle) (ev : jsstring) (arg : value) (w : World) : World :=
  let fired := filter (hears h ev) (listeners w) in
  let kept := filter (fun l => negb (hears h ev l && once l)) (listeners w) in
  fold_left (fun w l => invoke (listener l) arg w) fired (withListeners w kept).

(** Messages arriving one after the other on the channel [h]. *)
Definition receiveAll (h : handle) (messages : list value) (w : World) : World :=
  fold_left (fun w m => emit h (js "data") m w) messages w.

(** *** Reading the wiring *)

(** The channel registered under [name] on the multiplexer [mux]. *)
Definition channel (w : World) (mux : handle) (name : jsstring) : option handle :=
  match nth_error (heap w) mux with
  | Some (ObjectMultiplex _ subs) =>
      match find (fun kv => JsString.eqb (fst kv) name) subs with
      | Some kv => Some (snd kv)
      | None => None
      end
  | _ => None
  end.

(** The transport a multiplexer is piped with: [pump(mux, transport, mux)]. *)
Definition transportOf (w : World) (mux : handle) : option handle :=
  match find (fun p => match members p with
                       | [a; _; c] => Nat.eqb a mux && Nat.eqb c mux
                       | _ => false
                       end) (pipelines w) with
  | Some {| members := [_; t; _] |} => Some t
  | _ => None
  end.

Inductive Side : Type := PageSide | ExtensionSide.

(** The page transport is the post-message stream, the extension transport
    the stream over the runtime port. *)
Definition sideOfTransport (w : World) (t : handle) : option Side :=
  match nth_error (heap w) t with
  | Some (LocalMessageDuplexStream _ _) => Some PageSide
  | Some (PortStream _) => Some ExtensionSide
  | _ => None
  end.

Definition sideOfMux (w : World) (mux : handle) : option Side :=
  match transportOf w mux with
  | Some t => sideOfTransport w t
  | None => None
  end.

(** The multiplexer a channel was created on. *)
Definition ownerOf (w : World) (ch : handle) : option handle :=
  match nth_error (heap w) ch with
  | Some (Substream parent _) => Some parent
  | _ => None
  end.

Definition channelNameOf (w : World) (ch : handle) : option jsstring :=
  match nth_error (heap w) ch with
  | Some (Substream _ name) => Some name
  | _ => None
  end.

(** The channel whose chunks go to the onboarding handler: the source of
    the pipe that ends in the writable sink. *)
Definition onboardingSource (w : World) : option handle :=
  match find (fun p => match members p with
                       | [_; d] => isWritable w d
                       | _ => false
                       end) (pipelines w) with
  | Some {| members := [s; _] |} => Some s
  | _ => None
  end.






End Run.
Import Run.

Import Querystring.

(* ================================================================== *)
(** ** Script injection and the top level of the script *)

Module Dom.

(** A child node of a container: a node of the page, element or not (text,
    comment), or the element made by [document.createElement('script')],
    which is a new object and no node of the page. *)
Inductive Node : Type :=
| PageNode (element : bool) (id : nat)
| ScriptTag (attributes : list (jsstring * jsstring)) (textContent : jsstring).

Definition isElement (n : Node) : bool :=
  match n with
  | PageNode element _ => element
  | ScriptTag _ _ => true
  end.

Fixpoint attributes_eqb (a b : list (jsstring * jsstring)) : bool :=
  match a, b with
  | [], [] => true
  | (k, v) :: a', (k', v') :: b' =>
      JsString.eqb k k' && JsString.eqb v v' && attributes_eqb a' b'
  | _, _ => false
  end.

Definition node_eqb (a b : Node) : bool :=
  match a, b with
  | PageNode e i, PageNode e' i' => Bool.eqb e e' && Nat.eqb i i'
  | ScriptTag at1 t1, ScriptTag at2 t2 => attributes_eqb at1 at2 && JsString.eqb t1 t2
  | _, _ => false
  end.

(** [container.insertBefore(node, container.children[0])]: [children] holds
    the element children only, so the node goes in front of the first
    element child; without one the reference is [undefined] and the node
    goes last. *)
Fixpoint insertBeforeFirstElement (node : Node) (childNodes : list Node) : list Node :=
  match childNodes with
  | [] => [node]
  | n :: rest =>
      if isElement n then node :: n :: rest
      else n :: insertBeforeFirstElement node rest
  end.

(** [container.removeChild(node)]: throws a NotFoundError when the node is
    not a child. *)
Fixpoint removeChild (node : Node) (childNodes : list Node) : completion (list Node) :=
  match childNodes with
  | [] =>
      Throw (Error (js "NotFoundError: The node to be removed is not a child of this node."))
  | n :: rest =>
      if node_eqb n node then Normal rest
      else match removeChild node rest with
           | Normal rest' => Normal (n :: rest')
           | Throw e => Throw e
           end
  end.

(** [document.readyState]. *)
Inductive ReadyState : Type := Loading | Interactive | Complete.

(** The page the script runs in: what the gate looks at, the child nodes
    of [document.head] if there is a head, and those of
    [document.documentElement]. *)
Record Page := {
  pageEnv : Env;
  headNodes : option (list Node);
  rootNodes : list Node;
  readyState : ReadyState
}.

Inductive Container : Type := InHead | InRoot.

(** [document.head || document.documentElement]. *)
Definition container (p : Page) : option Container :=
  match headNodes p with
  | Some _ => Some InHead
  | None =>
      match documentElement (document (window (pageEnv p))) with
      | Some _ => Some InRoot
      | None => None
      end
  end.

Definition childNodesOf (p : Page) (c : Container) : list Node :=
  match c with
  | InHead => match headNodes p with Some l => l | None => [] end
  | InRoot => rootNodes p
  end.

Definition withChildNodes (p : Page) (c : Container) (l : list Node) : Page :=
  match c with
  | InHead =>
      {| pageEnv := pageEnv p; headNodes := Some l; rootNodes := rootNodes p;
         readyState := readyState p |}
  | InRoot =>
      {| pageEnv := pageEnv p; headNodes := headNodes p; rootNodes := l;
         readyState := readyState p |}
  end.

(** What [injectScript] leaves behind: the page, the text of the script
    elements it put into the document, and what went to the console. *)
Record Injection := {
  pageAfter : Page;
  inserted : list jsstring;
  logged : list Effect
}.

(** The element [injectScript] makes:
    [createElement('script')], [setAttribute('async', false)],
    [textContent = content]. *)
Definition scriptTagFor (content : jsstring) : Node :=
  ScriptTag [ (js "async", js "false") ] content.

Definition injectionFailed (e : JsError) : Effect :=
  ConsoleError (js "MetaMask provider injection failed.") (VError e).

(** [injectScript].  The page runs the content as the element goes in;
    [behaviour] is what happens to the child nodes of the container
    between [insertBefore] and [removeChild].  Anything thrown inside the
    [try] goes to the console. *)
Definition injectScript (behaviour : list Node -> list Node) (content : jsstring)
    (p : Page) : Injection :=
  let scriptTag := scriptTagFor content in
  match container p with
  | None =>
      {| pageAfter := p; inserted := [];
         logged := [ injectionFailed
                       (TypeError (js "Cannot read property 'insertBefore' of null")) ] |}
  | Some c =>
      let during := behaviour (insertBeforeFirstElement scriptTag (childNodesOf p c)) in
      match removeChild scriptTag during with
      | Normal rest =>
          {| pageAfter := withChildNodes p c rest; inserted := [content]; logged := [] |}
      | Throw e =>
          {| pageAfter := withChildNodes p c during; inserted := [content];
             logged := [ injectionFailed e ] |}
      end
  end.

(** [inpageSuffix] and [inpageBundle] (lines 13 and 14); [inpageContent]
    is the text of the bundled file. *)
Definition inpageSuffix (e : Env) : jsstring :=
  js "//# sourceURL=" ++ getURL e (js "inpage.js") ++ [ "010"%char ].

Definition inpageBundle (inpageContent : jsstring) (e : Env) : jsstring :=
  inpageContent ++ inpageSuffix e.

(** [domIsReady]: resolved at once, or after a one-time listener for
    [DOMContentLoaded]. *)
Inductive Readiness : Type := ReadyNow | AwaitsDOMContentLoaded.

Definition domIsReady (p : Page) : Readiness :=
  match readyState p with
  | Interactive | Complete => ReadyNow
  | Loading => AwaitsDOMContentLoaded
  end.

(** [start]: [setupStreams], then, if that did not throw, [domIsReady]. *)
Record Started := {
  setupResult : completion unit;
  wiring : World;
  readiness : option Readiness
}.

Definition start (p : Page) : Started :=
  let (r, w) := setupStreams (initial (pageEnv p)) in
  {| setupResult := r; wiring := w;
     readiness := match r with
                  | Normal _ => Some (domIsReady p)
                  | Throw _ => None
                  end |}.

(** The top level (lines 23 to 26):
    [if (shouldInjectProvider()) { injectScript(inpageBundle); start() }].
    An exception of the gate is not caught and ends the script. *)
Record Outcome := {
  injection : option Injection;
  started : option Started;
  uncaught : option JsError
}.

Definition contentscript (behaviour : list Node -> list Node)
    (inpageContent : jsstring) (p : Page) : Outcome :=
  match shouldInjectProvider (window (pageEnv p)) with
  | Normal true =>
      let i := injectScript behaviour (inpageBundle inpageContent (pageEnv p)) p in
      {| injection := Some i; started := Some (start (pageAfter i)); uncaught := None |}
  | Normal false =>
      {| injection := None; started := None; uncaught := None |}
  | Throw e =>
      {| injection := None; started := None; uncaught := Some e |}
  end.

End Dom.
Import Dom.

(* ================================================================== *)
(** ** Notions used to state the properties

    None of these is code of the script: they name the inputs, the
    readings and the observations the theorems speak about. *)

(** *** The deny-list check *)

(** The group the pattern of [regexFor] repeats: [(?:(?!p).)]. *)
Definition guarded (p : regex) : regex := Seq (NegLookahead p) Dot.

(** Whether [p] matches at the start of [t]. *)
Definition matchesAt (p : regex) (t : jsstring) : bool :=
  negb (isNil (residuals p t)).

(** [s] holds no line terminator and [p] matches at none of its
    positions: the starred group can run over all of [s]. *)
Fixpoint clean (p : regex) (s : jsstring) : bool :=
  match s with
  | [] => true
  | c :: t => isNil (residuals p s) && negb (lineTerminator c) && clean p t
  end.

(** A deny-list entry read against the start of [t] the way the script's
    pattern reads it: the first dot of the entry stands for a dot, every
    later dot for any character but a line terminator, every other
    character for itself. *)
Fixpoint agrees (dotSeen : bool) (entry t : jsstring) : bool :=
  match entry, t with
  | [], _ => true
  | _ :: _, [] => false
  | e :: entry', c :: t' =>
      if ascii_eqb e "."%char then
        (if dotSeen then negb (lineTerminator c) else ascii_eqb c "."%char)
        && agrees true entry' t'
      else ascii_eqb c e && agrees dotSeen entry' t'
  end.

(** Somewhere in [rest] there is a line terminator, or text that reads as
    [entry]. *)
Definition mentions (entry rest : jsstring) : Prop :=
  exists u c t, rest = u ++ c :: t
                /\ (lineTerminator c = true \/ agrees false entry (c :: t) = true).

Definition noBackslash (entry : jsstring) : bool :=
  forallb (fun c => negb (ascii_eqb c "\"%char)) entry.

(** [url] has [http://] or [https://] somewhere in it. *)
Definition hasScheme (url : jsstring) : Prop :=
  exists pre rest,
    url = pre ++ js "http://" ++ rest \/ url = pre ++ js "https://" ++ rest.

Definition schemeAt (t : jsstring) : bool :=
  match stripPrefix (js "http://") t, stripPrefix (js "https://") t with
  | None, None => false
  | _, _ => true
  end.

Definition containsScheme (url : jsstring) : bool := existsb schemeAt (tails url).

(** *** The deny-list check as the specification words it

    "blocked iff URL's origin exactly equals or is a subdomain of any
    deny-list entry", on the scheme-stripped URL. *)

Definition stripScheme (url : jsstring) : jsstring :=
  match stripPrefix (js "http://") url with
  | Some rest => rest
  | None => match stripPrefix (js "https://") url with
            | Some rest => rest
            | None => url
            end
  end.

(** The host ends at the port, the path, the query or the fragment. *)
Definition endsHost (c : ascii) : bool := existsb (ascii_eqb c) (js "/?#:").

Fixpoint takeHost (s : jsstring) : jsstring :=
  match s with
  | [] => []
  | c :: t => if endsHost c then [] else c :: takeHost t
  end.

Definition originHost (url : jsstring) : jsstring := takeHost (stripScheme url).

Definition endsWith (suffix s : jsstring) : bool :=
  existsb (JsString.eqb suffix) (tails s).

Definition equalsOrSubdomain (host entry : jsstring) : bool :=
  JsString.eqb host entry || endsWith ("."%char :: entry) host.

Definition blockedByOrigin (url : jsstring) : bool :=
  existsb (equalsOrSubdomain (originHost url)) blacklistedDomains.

(** *** The four conditions of the gate *)

Definition doctypeOk (w : Window) : Prop :=
  doctype (document w) = None
  \/ exists dt, doctype (document w) = Some dt /\ name dt = js "html".

Definition rootOk (w : Window) : Prop :=
  forall root, documentElement (document w) = Some root ->
               toLowerCase (nodeName root) = js "html".

Definition prohibitedPath (path : jsstring) : Prop :=
  exists stem, path = stem ++ js ".xml" \/ path = stem ++ js ".pdf".

(** *** Documents and pages to evaluate the script on *)

Definition htmlDocument : Document :=
  {| doctype := Some {| name := js "html" |};
     documentElement := Some {| nodeName := js "HTML" |} |}.

Definition svgDocument : Document :=
  {| doctype := None; documentElement := Some {| nodeName := js "svg" |} |}.

(** A document whose root element has been removed. *)
Definition rootlessDocument : Document :=
  {| doctype := None; documentElement := None |}.

Definition windowAt (doc : Document) (url path host : string) : Window :=
  {| document := doc;
     location := {| href := js url; pathname := js path; hostname := js host |} |}.

Definition exampleEnv : Env :=
  {| window := windowAt htmlDocument "https://example.com/page" "/page" "example.com";
     extensionBaseURL := js "chrome-extension://nkbihfbeogaeaoehlefnkodbefgpgknn/";
     lastError := VUndefined |}.

(** *** The query string *)

(** The UTF-8 bytes of a code unit below U+0100. *)
Definition utf8Bytes (c : ascii) : list nat :=
  let n := nat_of_ascii c in
  if n <? 128 then [n] else [192 + n / 64; 128 + n mod 64].

Definition isSeparator (c : ascii) : bool :=
  ascii_eqb c "&"%char || ascii_eqb c "="%char.

Definition pairText (kv : jsstring * jsstring) : jsstring :=
  escape (fst kv) ++ js "=" ++ escape (snd kv).

(** *** The wiring *)

Definition side_eqb (a b : Side) : bool :=
  match a, b with
  | PageSide, PageSide | ExtensionSide, ExtensionSide => true
  | _, _ => false
  end.

(** The multiplexer piped with the transport of [side]. *)
Definition muxOn (w : World) (side : Side) : option handle :=
  find (fun h => match sideOfMux w h with
                 | Some s => side_eqb s side
                 | None => false
                 end) (seq 0 (List.length (heap w))).


Definition forwardedChannels : list jsstring :=
  [ js "provider"; js "publicConfig"; js "cap" ].



(** The label [forwardTrafficBetweenMuxers] gives its disconnect warning. *)
Definition disconnectLabel (channelName : jsstring) : jsstring :=
  js "MetaMask muxed traffic for channel " ++ quoted channelName ++ js " failed.".

(** *** The onboarding sink *)

(** [chunk.type] of a chunk that has properties to read. *)
Definition typeOf (chunk : value) : value :=
  match getProperty chunk (js "type") with
  | Normal v => v
  | Throw _ => VUndefined
  end.

(** The two errors of the sink, which the specification calls
    MalformedMessageError and UnrecognizedMessageTypeError. *)
Definition malformedMessageError : JsError :=
  Error (js "Malformed onboarding message").

Definition unrecognizedMessageTypeError (ty : value) : JsError :=
  Error (js "Unrecognized onboarding message type: '" ++ toString ty ++ js "'").

(** The messages handed to [extension.runtime.sendMessage]. *)
Fixpoint sent (es : list Effect) : list value :=
  match es with
  | [] => []
  | SendMessage m :: es' => m :: sent es'
  | _ :: es' => sent es'
  end.

(** *** Further notions used to state properties *)

(** The arguments the completion callback of [write] was called with. *)
Fixpoint callbacks (es : list Effect) : list value :=
  match es with
  | [] => []
  | WriteCallback arg :: es' => arg :: callbacks es'
  | _ :: es' => callbacks es'
  end.

(** The URLs assigned to [window.location.href]. *)
Fixpoint navigations (es : list Effect) : list jsstring :=
  match es with
  | [] => []
  | Navigate url :: es' => url :: navigations es'
  | _ :: es' => navigations es'
  end.

(** Chunks arriving one after the other on the onboarding channel, each
    with the answer of the extension to the message it may send. *)
Definition deliverAll (source : handle) (items : list (value * (value * value)))
    (w : World) : World :=
  fold_left (fun w item => deliver source Onboarding.SendReturns (snd item) (fst item) w)
            items w.

(** A chunk that asks for the registration, and an answer of the extension
    that reports neither an error nor, through [runtime.lastError], a
    failure. *)
Definition registers (chunk : value) : bool :=
  truthy chunk && strictEqString (typeOf chunk) (js "registerOnboarding").

Definition accepted (e : Env) (response : value * value) : bool :=
  negb (truthy (fst response))
  && (truthy (snd response) || negb (truthy (lastError e))).

(** The start of every disconnect warning. *)
Definition lostConnectionTo (remoteLabel : jsstring) : jsstring :=
  js "MetamaskContentscript - lost connection to " ++ remoteLabel.

Definition hasDot (s : jsstring) : bool := existsb (ascii_eqb "."%char) s.

Definition hasLineTerminator (s : jsstring) : bool := existsb lineTerminator s.

(** A page to evaluate the script on: a head with a comment and two
    elements, still loading. *)
Definition examplePage : Page :=
  {| pageEnv := exampleEnv;
     headNodes := Some [ PageNode false 0; PageNode true 1; PageNode true 2 ];
     rootNodes := [ PageNode true 10; PageNode true 11 ];
     readyState := Loading |}.

(** A page that leaves the child nodes of the container alone while the
    injected code runs. *)
Definition untouched (childNodes : list Node) : list Node := childNodes.

(** The state [forwardTrafficBetweenMuxers] leaves, when both multiplexers
    take the new channel. *)
Definition forwarded (channelName : jsstring) (muxA muxB : handle)
    (nA : nat) (subsA : list (jsstring * handle))
    (nB : nat) (subsB : list (jsstring * handle)) (w : World) : World :=
  let a := List.length (heap w) in
  let b := S a in
  let cb := LogDisconnect (disconnectLabel channelName) in
  {| env := env w;
     heap := update
               (update (heap w ++ [Substream muxA channelName]) muxA
                  (ObjectMultiplex nA (subsA ++ [(channelName, a)]))
                ++ [Substream muxB channelName])
               muxB (ObjectMultiplex nB (subsB ++ [(channelName, b)]));
     closed := closed w;
     pipelines := pipelines w ++ [ {| members := [a; b; a]; onDone := cb; live := true |} ];
     listeners := listeners w;
     calls := calls w ++ [ CreateStream muxA channelName a;
                           CreateStream muxB channelName b;
                           Pump [a; b; a] cb ];
     invocations := invocations w;
     effects := effects w |}.

(** The page-side and the extension-side channel of one pipe. *)
Definition crosses (w : World) (p : Pipeline) (a b : handle) : Prop :=
  In a (members p) /\ In b (members p)
  /\ exists pageMux extensionMux,
       muxOn w PageSide = Some pageMux /\ muxOn w ExtensionSide = Some extensionMux
       /\ ownerOf w a = Some pageMux /\ ownerOf w b = Some extensionMux.

Unset Implicit Arguments.

(* ================================================================== *)
(** * Properties *)

(** ** Strings and completions *)

Lemma ascii_eqb_true (a b : ascii) : ascii_eqb a b = true <-> a = b.
Proof. unfold ascii_eqb. apply Ascii.eqb_eq. Qed.

Lemma ascii_eqb_refl (a : ascii) : ascii_eqb a a = true.
Proof. apply ascii_eqb_true. reflexivity. Qed.

Lemma ascii_eqb_false (a b : ascii) : ascii_eqb a b = false <-> a <> b.
Proof. unfold ascii_eqb. apply Ascii.eqb_neq. Qed.

Lemma jsstring_eqb_true (a b : jsstring) : JsString.eqb a b = true <-> a = b.
Proof.
  revert b. induction a as [|x a IH]; intros [|y b]; simpl; split; intro H;
    try reflexivity; try discriminate.
  - apply andb_true_iff in H. destruct H as [H1 H2].
    apply ascii_eqb_true in H1. apply IH in H2. congruence.
  - injection H as -> ->. rewrite ascii_eqb_refl. simpl. apply IH. reflexivity.
Qed.

Lemma stripPrefix_some p s r : stripPrefix p s = Some r <-> s = p ++ r.
Proof.
  revert s. induction p as [|x p IH]; intros s.
  - simpl. split; intro H; congruence.
  - destruct s as [|y s]; simpl.
    + split; discriminate.
    + destruct (ascii_eqb x y) eqn:E.
      * apply ascii_eqb_true in E. subst y. rewrite IH. split; intro H; congruence.
      * apply ascii_eqb_false in E. split; [discriminate|]. intro H. congruence.
Qed.

Lemma Normal_inj {A} (a b : A) : Normal a = Normal b -> a = b.
Proof. intro H. congruence. Qed.

(** ** Residuals of the patterns *)

Lemma isNil_true {A} (l : list A) : isNil l = true <-> l = [].
Proof. destruct l; simpl; split; intro H; congruence. Qed.

Lemma isNil_false {A} (l : list A) : isNil l = false <-> l <> [].
Proof. destruct l; simpl; split; intro H; congruence. Qed.

Lemma nonempty_has_member {A} (l : list A) : l <> [] <-> exists x, In x l.
Proof.
  destruct l as [|x l]; split; intro H.
  - congruence.
  - destruct H as [x []].
  - exists x. left. reflexivity.
  - discriminate.
Qed.

Lemma in_residuals_char c s t : In t (residuals (Char c) s) <-> s = c :: t.
Proof.
  simpl. destruct s as [|x s'].
  - split; [intros [] | discriminate].
  - destruct (ascii_eqb x c) eqn:E.
    + apply ascii_eqb_true in E. subst x. simpl. split.
      * intros [H|[]]. congruence.
      * intro H. left. congruence.
    + apply ascii_eqb_false in E. split; [intros [] | intro H; congruence].
Qed.

Lemma in_residuals_seq a b s t :
  In t (residuals (Seq a b) s) <-> exists m, In m (residuals a s) /\ In t (residuals b m).
Proof. simpl. apply in_flat_map. Qed.

Lemma in_residuals_literal w s t : In t (residuals (literal w) s) <-> s = w ++ t.
Proof.
  revert s. induction w as [|c w IH]; intro s.
  - simpl. split; [intros [H|[]]; congruence | intro H; left; congruence].
  - change (literal (c :: w)) with (Seq (Char c) (literal w)).
    rewrite in_residuals_seq. split.
    + intros [m [H1 H2]]. apply in_residuals_char in H1. apply IH in H2.
      subst. reflexivity.
    + intro H. exists (w ++ t). split.
      * apply in_residuals_char. exact H.
      * apply IH. reflexivity.
Qed.

Lemma in_residuals_opt a s t :
  In t (residuals (Opt a) s) <-> In t (residuals a s) \/ t = s.
Proof.
  simpl. rewrite in_app_iff. simpl. intuition congruence.
Qed.

Lemma in_residuals_end s t : In t (residuals EndOfInput s) <-> s = [] /\ t = [].
Proof.
  destruct s; simpl; split.
  - intros [H|[]]. auto.
  - intros [_ H]. left. congruence.
  - intros [].
  - intros [H _]. discriminate.
Qed.

Lemma in_tails s t : In t (tails s) <-> exists pre, s = pre ++ t.
Proof.
  induction s as [|c s IH].
  - simpl. split.
    + intros [H|[]]. exists []. subst. reflexivity.
    + intros [pre H]. left. symmetry in H. apply app_eq_nil in H. symmetry. apply H.
  - cbn [tails]. split.
    + intros [H|H].
      * exists []. subst. reflexivity.
      * apply IH in H. destruct H as [pre H]. exists (c :: pre). subst. reflexivity.
    + intros [pre H]. destruct pre as [|x pre].
      * left. exact H.
      * right. apply IH. exists pre. simpl in H. congruence.
Qed.

Lemma test_true r s :
  test r s = true <-> exists pre t, s = pre ++ t /\ residuals r t <> [].
Proof.
  unfold test. rewrite existsb_exists. split.
  - intros [t [Hin Hne]]. apply in_tails in Hin. destruct Hin as [pre Hpre].
    exists pre, t. split; [exact Hpre|].
    apply negb_true_iff in Hne. apply isNil_false. exact Hne.
  - intros [pre [t [Hpre Hne]]]. exists t. split.
    + apply in_tails. exists pre. exact Hpre.
    + apply negb_true_iff. apply isNil_false. exact Hne.
Qed.

Lemma test_unfold r s :
  test r s = matchesAt r s || match s with [] => false | _ :: t => test r t end.
Proof.
  unfold test, matchesAt. destruct s as [|c t]; simpl.
  - rewrite orb_false_r. reflexivity.
  - reflexivity.
Qed.

Lemma matchesAt_true p t : matchesAt p t = true <-> residuals p t <> [].
Proof. unfold matchesAt. rewrite negb_true_iff. apply isNil_false. Qed.

Lemma matchesAt_empty t : matchesAt Empty t = true.
Proof. reflexivity. Qed.

Lemma matchesAt_char e r t :
  matchesAt (Seq (Char e) r) t =
  match t with
  | [] => false
  | c :: t' => ascii_eqb c e && matchesAt r t'
  end.
Proof.
  unfold matchesAt. simpl. destruct t as [|c t']; [reflexivity|].
  destruct (ascii_eqb c e); simpl; [|reflexivity].
  rewrite app_nil_r. reflexivity.
Qed.

Lemma matchesAt_dot r t :
  matchesAt (Seq Dot r) t =
  match t with
  | [] => false
  | c :: t' => negb (lineTerminator c) && matchesAt r t'
  end.
Proof.
  unfold matchesAt. simpl. destruct t as [|c t']; [reflexivity|].
  destruct (lineTerminator c); simpl; [reflexivity|].
  rewrite app_nil_r. reflexivity.
Qed.

(** [/\.w$/] tests whether the input ends in a dot and [w]. *)
Lemma test_suffix w p :
  test (Seq (Char "."%char) (Seq (literal w) EndOfInput)) p = true <->
  exists stem, p = stem ++ "."%char :: w.
Proof.
  rewrite test_true. split.
  - intros [pre [t [Hp Hne]]]. apply nonempty_has_member in Hne.
    destruct Hne as [x Hx]. apply in_residuals_seq in Hx.
    destruct Hx as [m [H1 H2]]. apply in_residuals_char in H1.
    apply in_residuals_seq in H2. destruct H2 as [m' [H2 H3]].
    apply in_residuals_literal in H2. apply in_residuals_end in H3.
    destruct H3 as [-> ->]. exists pre. subst. rewrite app_nil_r. reflexivity.
  - intros [stem Hp]. exists stem, ("."%char :: w). split; [exact Hp|].
    apply nonempty_has_member. exists []. apply in_residuals_seq.
    exists w. split; [apply in_residuals_char; reflexivity|].
    apply in_residuals_seq. exists []. split.
    + apply in_residuals_literal. rewrite app_nil_r. reflexivity.
    + apply in_residuals_end. auto.
Qed.

(** ** The pattern built for a deny-list entry *)

Lemma in_residuals_scheme s t :
  In t (residuals schemePattern s) <-> s = js "http://" ++ t \/ s = js "https://" ++ t.
Proof.
  unfold schemePattern. rewrite in_residuals_seq. split.
  - intros [m [H1 H2]]. apply in_residuals_literal in H1.
    apply in_residuals_seq in H2. destruct H2 as [m' [H2 H3]].
    apply in_residuals_literal in H3. apply in_residuals_opt in H2.
    destruct H2 as [H2|H2].
    + apply in_residuals_char in H2. right. subst. reflexivity.
    + left. subst. reflexivity.
  - intros [H|H].
    + exists (js "://" ++ t). split.
      * apply in_residuals_literal. subst. reflexivity.
      * apply in_residuals_seq. exists (js "://" ++ t). split.
        -- apply in_residuals_opt. right. reflexivity.
        -- apply in_residuals_literal. reflexivity.
    + exists (js "s://" ++ t). split.
      * apply in_residuals_literal. subst. reflexivity.
      * apply in_residuals_seq. exists (js "://" ++ t). split.
        -- apply in_residuals_opt. left. apply in_residuals_char. reflexivity.
        -- apply in_residuals_literal. reflexivity.
Qed.

Lemma residuals_guarded p c t :
  residuals (guarded p) (c :: t) =
  if isNil (residuals p (c :: t)) && negb (lineTerminator c) then [t] else [].
Proof.
  unfold guarded. simpl.
  destruct (isNil (residuals p (c :: t))); simpl; [|reflexivity].
  destruct (lineTerminator c); reflexivity.
Qed.

(** The starred group reaches the end of the input exactly when the input
    is clean; the fuel [residuals] gives it is enough. *)
Lemma iterate_guarded_clean p :
  forall fuel s, List.length s <= fuel ->
    (In [] (iterate (residuals (guarded p)) fuel s) <-> clean p s = true).
Proof.
  induction fuel as [|fuel IH]; intros s Hlen.
  - destruct s as [|c t]; [|simpl in Hlen; lia].
    simpl. split; [reflexivity | intros _; left; reflexivity].
  - destruct s as [|c t].
    + simpl. split; [reflexivity | intros _; left; reflexivity].
    + cbn [iterate clean]. rewrite residuals_guarded.
      destruct (isNil (residuals p (c :: t)) && negb (lineTerminator c)) eqn:E.
      * cbn [flat_map]. rewrite app_nil_r.
        assert (Hlt : (List.length t <? List.length (c :: t)) = true)
          by (apply Nat.ltb_lt; simpl; lia).
        rewrite Hlt. simpl in Hlen.
        split.
        -- intros [H|H]; [discriminate|]. apply IH in H; [|lia]. rewrite H. reflexivity.
        -- intro H. right. apply IH; [lia|]. rewrite andb_true_l in H. exact H.
      * cbn [flat_map]. split.
        -- intros [H|[]]. discriminate.
        -- rewrite andb_false_l. discriminate.
Qed.

(** What a tail must look like for [regexFor] to match at it. *)
Lemma residuals_regexFor src t :
  residuals (regexFor src) t <> [] <->
  exists rest, (t = js "http://" ++ rest \/ t = js "https://" ++ rest)
               /\ clean (ofSource src) rest = true.
Proof.
  rewrite nonempty_has_member. unfold regexFor. split.
  - intros [x Hx]. apply in_residuals_seq in Hx. destruct Hx as [rest [H1 H2]].
    apply in_residuals_scheme in H1. apply in_residuals_seq in H2.
    destruct H2 as [m [H2 H3]]. apply in_residuals_end in H3. destruct H3 as [-> ->].
    exists rest. split; [exact H1|].
    cbn [residuals] in H2.
    apply (iterate_guarded_clean (ofSource src) (List.length rest) rest); [lia|exact H2].
  - intros [rest [H1 H2]]. exists []. apply in_residuals_seq. exists rest. split.
    + apply in_residuals_scheme. exact H1.
    + apply in_residuals_seq. exists []. split.
      * cbn [residuals].
        apply (iterate_guarded_clean (ofSource src) (List.length rest) rest); [lia|exact H2].
      * apply in_residuals_end. split; reflexivity.
Qed.

(** [test] on the pattern of an entry: some scheme in the URL has clean
    text behind it. *)
Lemma test_regexFor src url :
  test (regexFor src) url = true <->
  exists pre rest,
    (url = pre ++ js "http://" ++ rest \/ url = pre ++ js "https://" ++ rest)
    /\ clean (ofSource src) rest = true.
Proof.
  rewrite test_true. split.
  - intros [pre [t [Hurl Hne]]]. apply residuals_regexFor in Hne.
    destruct Hne as [rest [Ht Hclean]]. exists pre, rest. split; [|exact Hclean].
    destruct Ht as [Ht|Ht]; subst; auto.
  - intros [pre [rest [Hurl Hclean]]].
    destruct Hurl as [Hurl|Hurl].
    + exists pre, (js "http://" ++ rest). split; [exact Hurl|].
      apply residuals_regexFor. exists rest. auto.
    + exists pre, (js "https://" ++ rest). split; [exact Hurl|].
      apply residuals_regexFor. exists rest. auto.
Qed.

Lemma matchesAt_regexFor src t :
  matchesAt (regexFor src) t = true <->
  exists rest, (t = js "http://" ++ rest \/ t = js "https://" ++ rest)
               /\ clean (ofSource src) rest = true.
Proof. rewrite matchesAt_true. apply residuals_regexFor. Qed.

(** A tail that does not start with [h] is no match of the scheme. *)
Lemma matchesAt_regexFor_other src c t :
  ascii_eqb c "h"%char = false -> matchesAt (regexFor src) (c :: t) = false.
Proof.
  intro Hc. destruct (matchesAt (regexFor src) (c :: t)) eqn:E; [|reflexivity].
  apply matchesAt_regexFor in E. destruct E as [rest [[H|H] _]];
    injection H as -> _; discriminate Hc.
Qed.

Lemma matchesAt_regexFor_scheme src rest scheme :
  scheme = js "http://" \/ scheme = js "https://" ->
  matchesAt (regexFor src) (scheme ++ rest) = clean (ofSource src) rest.
Proof.
  intro Hs.
  destruct (clean (ofSource src) rest) eqn:E.
  - apply matchesAt_regexFor. exists rest. split; [|exact E].
    destruct Hs as [-> | ->]; auto.
  - destruct (matchesAt (regexFor src) (scheme ++ rest)) eqn:E'; [|reflexivity].
    apply matchesAt_regexFor in E'. destruct E' as [rest' [H Hc]].
    assert (rest' = rest).
    { destruct Hs as [-> | ->]; destruct H as [H|H];
        simpl in H; injection H; intros; subst; try discriminate; reflexivity. }
    congruence.
Qed.

Lemma hasScheme_containsScheme url : hasScheme url <-> containsScheme url = true.
Proof.
  unfold hasScheme, containsScheme. rewrite existsb_exists. split.
  - intros [pre [rest H]].
    destruct H as [H|H].
    + exists (js "http://" ++ rest). split; [apply in_tails; exists pre; exact H|].
      unfold schemeAt.
      assert (E : stripPrefix (js "http://") (js "http://" ++ rest) = Some rest)
        by (apply stripPrefix_some; reflexivity).
      rewrite E. reflexivity.
    + exists (js "https://" ++ rest). split; [apply in_tails; exists pre; exact H|].
      unfold schemeAt.
      assert (E : stripPrefix (js "https://") (js "https://" ++ rest) = Some rest)
        by (apply stripPrefix_some; reflexivity).
      rewrite E. destruct (stripPrefix (js "http://") (js "https://" ++ rest)); reflexivity.
  - intros [t [Hin Hs]]. apply in_tails in Hin. destruct Hin as [pre Hpre].
    unfold schemeAt in Hs.
    destruct (stripPrefix (js "http://") t) as [rest|] eqn:E1.
    + apply stripPrefix_some in E1. exists pre, rest. left. congruence.
    + destruct (stripPrefix (js "https://") t) as [rest|] eqn:E2; [|discriminate].
      apply stripPrefix_some in E2. exists pre, rest. right. congruence.
Qed.

(** A URL without a scheme in it fails every pattern of the loop. *)
Lemma no_scheme_no_match url :
  ~ hasScheme url -> forall src, test (regexFor src) url = false.
Proof.
  intros Hno src. destruct (test (regexFor src) url) eqn:E; [|reflexivity].
  apply test_regexFor in E. destruct E as [pre [rest [H _]]].
  exfalso. apply Hno. exists pre, rest. exact H.
Qed.

(** On a URL that is one scheme followed by text with no scheme in it, the
    pattern of an entry matches exactly when that text is clean. *)
Lemma test_regexFor_one_scheme src rest scheme :
  scheme = js "http://" \/ scheme = js "https://" ->
  ~ hasScheme rest ->
  test (regexFor src) (scheme ++ rest) = clean (ofSource src) rest.
Proof.
  intros Hs Hno.
  assert (Hrest : test (regexFor src) rest = false)
    by (apply no_scheme_no_match; exact Hno).
  rewrite test_unfold, (matchesAt_regexFor_scheme src rest scheme Hs).
  destruct Hs as [-> | ->]; cbn [js list_ascii_of_string app];
    repeat (rewrite test_unfold, matchesAt_regexFor_other by reflexivity; cbn [orb]);
    rewrite Hrest; apply orb_false_r.
Qed.

(** After its first dot an entry is pattern source as it stands. *)
Lemma matchesAt_ofSource entry :
  noBackslash entry = true ->
  forall t, matchesAt (ofSource entry) t = agrees true entry t.
Proof.
  induction entry as [|e entry IH]; intros Hnb t.
  - destruct t; reflexivity.
  - simpl in Hnb. apply andb_true_iff in Hnb. destruct Hnb as [He Hnb].
    apply negb_true_iff in He. cbn [ofSource]. rewrite He.
    destruct (ascii_eqb e "."%char) eqn:Ed.
    + rewrite matchesAt_dot. destruct t as [|c t']; simpl; [reflexivity|].
      rewrite Ed. rewrite IH by exact Hnb. reflexivity.
    + rewrite matchesAt_char. destruct t as [|c t']; simpl; [reflexivity|].
      rewrite Ed. rewrite IH by exact Hnb. reflexivity.
Qed.

(** Up to its first dot, which [replace] escapes. *)
Lemma matchesAt_escaped entry :
  noBackslash entry = true ->
  forall t, matchesAt (ofSource (replace (js ".") (js "\.") entry)) t = agrees false entry t.
Proof.
  induction entry as [|e entry IH]; intros Hnb t.
  - destruct t; reflexivity.
  - pose proof Hnb as Hnb'. simpl in Hnb. apply andb_true_iff in Hnb.
    destruct Hnb as [He Hnb]. apply negb_true_iff in He.
    cbn [replace stripPrefix js list_ascii_of_string].
    destruct (ascii_eqb e "."%char) eqn:Ed.
    + apply ascii_eqb_true in Ed. subst e.
      change (ascii_eqb "." ".")%char with true. cbn iota.
      cbn [app ofSource]. change (ascii_eqb "\" "\")%char with true. cbn iota.
      rewrite matchesAt_char. destruct t as [|c t']; simpl; [reflexivity|].
      change (ascii_eqb "." ".")%char with true. cbn iota.
      rewrite matchesAt_ofSource by exact Hnb. reflexivity.
    + assert (Ed' : ascii_eqb "."%char e = false).
      { apply ascii_eqb_false. apply ascii_eqb_false in Ed. congruence. }
      rewrite Ed'. cbn [ofSource]. rewrite He, Ed.
      rewrite matchesAt_char. destruct t as [|c t']; simpl; [reflexivity|].
      rewrite Ed. rewrite IH by exact Hnb. reflexivity.
Qed.

Lemma clean_false p rest :
  clean p rest = false <->
  exists u c t, rest = u ++ c :: t
                /\ (lineTerminator c = true \/ matchesAt p (c :: t) = true).
Proof.
  induction rest as [|x rest IH].
  - simpl. split; [discriminate|].
    intros [u [c [t [H _]]]]. destruct u; discriminate.
  - cbn [clean]. split.
    + intro H. destruct (isNil (residuals p (x :: rest))) eqn:E1.
      * destruct (lineTerminator x) eqn:E2.
        -- exists [], x, rest. auto.
        -- simpl in H. apply IH in H. destruct H as [u [c [t [Hr Hc]]]].
           exists (x :: u), c, t. split; [simpl; congruence|exact Hc].
      * exists [], x, rest. split; [reflexivity|]. right.
        unfold matchesAt. rewrite E1. reflexivity.
    + intros [u [c [t [Hr Hc]]]]. destruct u as [|y u].
      * simpl in Hr. injection Hr as -> ->. destruct Hc as [Hc|Hc].
        -- rewrite Hc. simpl. rewrite andb_false_r. reflexivity.
        -- unfold matchesAt in Hc. apply negb_true_iff in Hc. rewrite Hc. reflexivity.
      * simpl in Hr. injection Hr as -> ->.
        assert (clean p (u ++ c :: t) = false) as ->.
        { apply IH. exists u, c, t. auto. }
        apply andb_false_r.
Qed.

Lemma clean_currentRegex_false entry rest :
  noBackslash entry = true ->
  (clean (ofSource (replace (js ".") (js "\.") entry)) rest = false <-> mentions entry rest).
Proof.
  intro Hnb. rewrite clean_false. unfold mentions. split.
  - intros [u [c [t [Hr Hc]]]]. exists u, c, t. split; [exact Hr|].
    rewrite matchesAt_escaped in Hc by exact Hnb. exact Hc.
  - intros [u [c [t [Hr Hc]]]]. exists u, c, t. split; [exact Hr|].
    rewrite matchesAt_escaped by exact Hnb. exact Hc.
Qed.

Lemma test_currentRegex_false entry url :
  noBackslash entry = true ->
  (test (currentRegex entry) url = false <->
   forall pre rest,
     url = pre ++ js "http://" ++ rest \/ url = pre ++ js "https://" ++ rest ->
     mentions entry rest).
Proof.
  intro Hnb. unfold currentRegex. split.
  - intros Ht pre rest Hurl.
    apply clean_currentRegex_false; [exact Hnb|].
    destruct (clean (ofSource (replace (js ".") (js "\.") entry)) rest) eqn:E; [|reflexivity].
    assert (test (regexFor (replace (js ".") (js "\.") entry)) url = true).
    { apply test_regexFor. exists pre, rest. auto. }
    congruence.
  - intro H.
    destruct (test (regexFor (replace (js ".") (js "\.") entry)) url) eqn:E; [|reflexivity].
    apply test_regexFor in E. destruct E as [pre [rest [Hurl Hclean]]].
    apply H in Hurl. apply clean_currentRegex_false in Hurl; [|exact Hnb]. congruence.
Qed.

(** ** The deny-list check *)

Lemma blacklistLoop_true domains url :
  blacklistLoop domains url = true <->
  exists entry, In entry domains /\ test (currentRegex entry) url = false.
Proof.
  induction domains as [|d domains IH]; simpl.
  - split; [discriminate | intros [e [[] _]]].
  - destruct (test (currentRegex d) url) eqn:E; simpl.
    + rewrite IH. split.
      * intros [e [Hin Ht]]. exists e. auto.
      * intros [e [[Hd|Hin] Ht]]; [subst; congruence | exists e; auto].
    + split; [|reflexivity]. intros _. exists d. auto.
Qed.

(** Hence the order of the entries does not count. *)
Lemma blacklistLoop_permutation domains domains' url :
  Permutation domains domains' ->
  blacklistLoop domains url = blacklistLoop domains' url.
Proof.
  intro HP.
  destruct (blacklistLoop domains url) eqn:E1; destruct (blacklistLoop domains' url) eqn:E2;
    try reflexivity.
  - apply blacklistLoop_true in E1. destruct E1 as [e [Hin Ht]].
    assert (blacklistLoop domains' url = true).
    { apply blacklistLoop_true. exists e. split; [|exact Ht].
      eapply Permutation_in; eauto. }
    congruence.
  - apply blacklistLoop_true in E2. destruct E2 as [e [Hin Ht]].
    assert (blacklistLoop domains url = true).
    { apply blacklistLoop_true. exists e. split; [|exact Ht].
      eapply Permutation_in; [apply Permutation_sym|]; eauto. }
    congruence.
Qed.

Lemma blacklistedDomains_noBackslash :
  forall entry, In entry blacklistedDomains -> noBackslash entry = true.
Proof.
  assert (H : forallb noBackslash blacklistedDomains = true)
    by (vm_compute; reflexivity).
  rewrite forallb_forall in H. exact H.
Qed.

(** Every entry of the deny-list is plain pattern source. *)
Example deny_list_plain_source :
  forallb plainSource blacklistedDomains = true.
Proof. vm_compute. reflexivity. Qed.

(** The check on ordinary URLs: one scheme, then text without a further
    scheme.  The URL is blocked exactly when that text, anywhere
    in it, mentions an entry. *)
Lemma deny_list_one_scheme (w : Window) (scheme rest : jsstring) :
  scheme = js "http://" \/ scheme = js "https://" ->
  href (location w) = scheme ++ rest ->
  ~ hasScheme rest ->
  (blacklistedDomainCheck w = Normal true <->
   exists entry, In entry blacklistedDomains /\ mentions entry rest).
Proof.
  intros Hs Hhref Hno. unfold blacklistedDomainCheck. rewrite Hhref. split.
  - intro H. apply Normal_inj in H. apply blacklistLoop_true in H.
    destruct H as [entry [Hin Ht]]. exists entry. split; [exact Hin|].
    unfold currentRegex in Ht. rewrite test_regexFor_one_scheme in Ht by assumption.
    apply clean_currentRegex_false in Ht; [exact Ht|].
    apply blacklistedDomains_noBackslash. exact Hin.
  - intros [entry [Hin Hm]]. f_equal. apply blacklistLoop_true.
    exists entry. split; [exact Hin|]. unfold currentRegex.
    rewrite test_regexFor_one_scheme by assumption.
    apply clean_currentRegex_false; [|exact Hm].
    apply blacklistedDomains_noBackslash. exact Hin.
Qed.

(** What the deny-list check computes.  It blocks a URL exactly when, for
    some entry of the deny-list, every [http://] or [https://] that occurs
    in the URL is followed, somewhere later in the URL, by a line
    terminator or by text that reads as the entry (its first dot a dot, its
    later dots any character).  On a URL that is one scheme followed by
    text without a further scheme this says: some entry is mentioned
    anywhere in that text, host, path, query and fragment alike.  The
    order of the entries does not count. *)
Theorem deny_list_characterised (w : Window) :
  (blacklistedDomainCheck w = Normal true <->
     exists entry, In entry blacklistedDomains /\
       forall pre rest,
         href (location w) = pre ++ js "http://" ++ rest
         \/ href (location w) = pre ++ js "https://" ++ rest ->
         mentions entry rest)
  /\ (forall scheme rest,
        scheme = js "http://" \/ scheme = js "https://" ->
        href (location w) = scheme ++ rest ->
        ~ hasScheme rest ->
        (blacklistedDomainCheck w = Normal true <->
         exists entry, In entry blacklistedDomains /\ mentions entry rest))
  /\ (forall domains, Permutation blacklistedDomains domains ->
        blacklistLoop domains (href (location w))
        = blacklistLoop blacklistedDomains (href (location w))).
Proof.
  split; [|split].
  - unfold blacklistedDomainCheck. split.
    + intro H. apply Normal_inj in H. apply blacklistLoop_true in H.
      destruct H as [entry [Hin Ht]]. exists entry. split; [exact Hin|].
      apply test_currentRegex_false; [|exact Ht].
      apply blacklistedDomains_noBackslash. exact Hin.
    + intros [entry [Hin H]]. f_equal. apply blacklistLoop_true.
      exists entry. split; [exact Hin|].
      apply test_currentRegex_false; [|exact H].
      apply blacklistedDomains_noBackslash. exact Hin.
  - intros scheme rest Hs Hhref Hno. apply (deny_list_one_scheme w scheme rest Hs Hhref Hno).
  - intros domains HP. symmetry. apply blacklistLoop_permutation. exact HP.
Qed.

(** At [https://www.dropbox.com/anything] the check blocks the URL, and
    the characterisation names why. *)
Lemma deny_list_characterised_dropbox :
  let w := windowAt htmlDocument "https://www.dropbox.com/anything"
                    "/anything" "www.dropbox.com" in
  blacklistedDomainCheck w = Normal true
  /\ exists entry, In entry blacklistedDomains /\
       forall pre rest,
         href (location w) = pre ++ js "http://" ++ rest
         \/ href (location w) = pre ++ js "https://" ++ rest ->
         mentions entry rest.
Proof.
  cbv zeta.
  assert (H : blacklistedDomainCheck
                (windowAt htmlDocument "https://www.dropbox.com/anything"
                          "/anything" "www.dropbox.com") = Normal true)
    by (vm_compute; reflexivity).
  split; [exact H|].
  exact (proj1 (proj1 (deny_list_characterised
                         (windowAt htmlDocument "https://www.dropbox.com/anything"
                                   "/anything" "www.dropbox.com"))) H).
Defined.

(** C1, at the failing inputs.  [blacklistedDomainCheck] is to tell
    whether "the current domain is blacklisted"; it searches the whole of
    [location.href] instead.  A page of [example.com], a domain that is
    not listed, is blocked because its query string names a listed domain;
    a page of [www.dropbox.com], a subdomain of a listed domain, is let
    through because its query string holds a second URL; and two pages of
    the same origin get different answers. *)
Theorem deny_list_ignores_the_domain :
  let elsewhere :=
    windowAt htmlDocument "https://example.com/?ref=dropbox.com" "/" "example.com" in
  let listed :=
    windowAt htmlDocument "https://www.dropbox.com/?next=https://example.com/" "/"
             "www.dropbox.com" in
  let plain := windowAt htmlDocument "https://example.com/" "/" "example.com" in
  (blockedByOrigin (href (location elsewhere)) = false
   /\ blacklistedDomainCheck elsewhere = Normal true)
  /\ (blockedByOrigin (href (location listed)) = true
      /\ blacklistedDomainCheck listed = Normal false)
  /\ (originHost (href (location plain)) = originHost (href (location elsewhere))
      /\ blacklistedDomainCheck plain = Normal false
      /\ blacklistedDomainCheck elsewhere = Normal true).
Proof. cbv zeta. repeat split; vm_compute; reflexivity. Qed.

(** The same origin, blocked on one path and not on another: the fourth
    entry of the deny-list carries a path. *)
Example deny_list_entry_with_path :
  blacklistLoop blacklistedDomains
    (js "https://cdn.shopify.com/s/javascripts/tricorder/xtld-read-only-frame.html")
  = true
  /\ blacklistLoop blacklistedDomains (js "https://cdn.shopify.com/") = false
  /\ blockedByOrigin
       (js "https://cdn.shopify.com/s/javascripts/tricorder/xtld-read-only-frame.html")
     = false.
Proof. repeat split; vm_compute; reflexivity. Qed.

(** A deny-listed host followed by a second URL: the pattern matches from
    the second scheme on, and the check lets the page through. *)
Example deny_list_second_scheme :
  blacklistLoop blacklistedDomains
    (js "https://www.dropbox.com/?next=https://example.com/")
  = false
  /\ blockedByOrigin (js "https://www.dropbox.com/?next=https://example.com/") = true.
Proof. split; vm_compute; reflexivity. Qed.

(** On a URL without a scheme the pattern of the first entry already
    fails, and the loop returns [true] in its first iteration. *)
Lemma no_scheme_blacklisted url :
  ~ hasScheme url ->
  test (currentRegex (js "uscourts.gov")) url = false
  /\ blacklistLoop blacklistedDomains url = true.
Proof.
  intro Hno.
  assert (H : test (currentRegex (js "uscourts.gov")) url = false)
    by (apply no_scheme_no_match; exact Hno).
  split; [exact H|].
  unfold blacklistedDomains. cbn [blacklistLoop]. rewrite H. reflexivity.
Qed.

(** ** The gate *)

Lemma suffixLoop_false path :
  suffixLoop prohibitedTypes path = false <-> prohibitedPath path.
Proof.
  unfold prohibitedTypes, prohibitedPath. cbn [suffixLoop].
  destruct (test (Seq (Char ".") (Seq (literal (js "xml")) EndOfInput)) path) eqn:E1.
  - split; [|reflexivity]. intros _. apply test_suffix in E1.
    destruct E1 as [stem H]. exists stem. left. exact H.
  - destruct (test (Seq (Char ".") (Seq (literal (js "pdf")) EndOfInput)) path) eqn:E2.
    + split; [|reflexivity]. intros _. apply test_suffix in E2.
      destruct E2 as [stem H]. exists stem. right. exact H.
    + split; [discriminate|]. intros [stem [H|H]].
      * assert (test (Seq (Char ".") (Seq (literal (js "xml")) EndOfInput)) path = true)
          by (apply test_suffix; exists stem; exact H).
        congruence.
      * assert (test (Seq (Char ".") (Seq (literal (js "pdf")) EndOfInput)) path = true)
          by (apply test_suffix; exists stem; exact H).
        congruence.
Qed.

Lemma doctypeCheck_true w : doctypeCheck w = Normal true <-> doctypeOk w.
Proof.
  unfold doctypeCheck, doctypeOk. destruct (doctype (document w)) as [dt|].
  - split.
    + intro H. apply Normal_inj in H. apply jsstring_eqb_true in H.
      right. exists dt. auto.
    + intros [H|[dt' [H1 H2]]]; [discriminate|]. injection H1 as <-.
      f_equal. apply jsstring_eqb_true. exact H2.
  - split; [auto | reflexivity].
Qed.

Lemma doctypeCheck_returns w : exists b, doctypeCheck w = Normal b.
Proof.
  unfold doctypeCheck. destruct (doctype (document w)); eauto.
Qed.

(** With a root element that has a name, the gate returns, and returns
    [true] exactly under the four conditions. *)
Lemma shouldInjectProvider_with_root w root :
  documentElement (document w) = Some root ->
  nodeName root <> [] ->
  (exists b, shouldInjectProvider w = Normal b)
  /\ (shouldInjectProvider w = Normal true <->
      doctypeOk w /\ rootOk w /\ ~ prohibitedPath (pathname (location w))
      /\ blacklistedDomainCheck w = Normal false).
Proof.
  intros Hroot Hname.
  assert (Hel : documentElementCheck w
                = Normal (JsString.eqb (toLowerCase (nodeName root)) (js "html"))).
  { unfold documentElementCheck. rewrite Hroot.
    destruct (nodeName root); [congruence|reflexivity]. }
  assert (Hrk : JsString.eqb (toLowerCase (nodeName root)) (js "html") = true <-> rootOk w).
  { rewrite jsstring_eqb_true. unfold rootOk. rewrite Hroot. split.
    - intros H r Hr. congruence.
    - intro H. apply H. reflexivity. }
  pose proof (doctypeCheck_true w) as Hdt.
  pose proof (suffixLoop_false (pathname (location w))) as Hsf.
  unfold shouldInjectProvider, suffixCheck, blacklistedDomainCheck in *.
  rewrite Hel.
  destruct (doctypeCheck_returns w) as [b1 Hb1]. rewrite Hb1 in *.
  destruct b1; cbn [andAlso].
  - destruct (suffixLoop prohibitedTypes (pathname (location w))) eqn:E2; cbn [andAlso].
    + destruct (JsString.eqb (toLowerCase (nodeName root)) (js "html")) eqn:E3;
        cbn [andAlso notC].
      * split; [eauto|].
        destruct (blacklistLoop blacklistedDomains (href (location w))); cbn [negb].
        -- split; [discriminate|]. intros (_ & _ & _ & H). discriminate.
        -- split; [|reflexivity]. intros _.
           split; [apply Hdt; reflexivity|].
           split; [apply Hrk; reflexivity|].
           split; [|reflexivity].
           intro Hp. apply Hsf in Hp. discriminate.
      * split; [eauto|]. split; [discriminate|].
        intros (_ & H & _). apply Hrk in H. discriminate.
    + split; [eauto|]. split; [discriminate|].
      intros (_ & _ & H & _). exfalso. apply H. apply Hsf. reflexivity.
  - split; [eauto|]. split; [discriminate|].
    intros (H & _). apply Hdt in H. discriminate.
Qed.

(** On a URL without a scheme and a document with a root element the
    gate returns [false]. *)
Lemma no_scheme_with_root w root :
  documentElement (document w) = Some root ->
  ~ hasScheme (href (location w)) ->
  shouldInjectProvider w = Normal false.
Proof.
  intros Hroot Hno.
  destruct (no_scheme_blacklisted _ Hno) as [_ Hb].
  unfold shouldInjectProvider, suffixCheck, blacklistedDomainCheck, documentElementCheck.
  rewrite Hroot, Hb.
  destruct (doctypeCheck_returns w) as [b1 Hb1]. rewrite Hb1.
  destruct b1; cbn [andAlso]; [|reflexivity].
  destruct (suffixLoop prohibitedTypes (pathname (location w))); cbn [andAlso]; [|reflexivity].
  destruct (JsString.truthy (nodeName root)); [|reflexivity].
  destruct (JsString.eqb (toLowerCase (nodeName root)) (js "html")); reflexivity.
Qed.

(** The script injects only when the gate returns [true] (line 23): on a
    URL without a scheme it never does, whatever the document. *)
Lemma no_scheme_never_activates w :
  ~ hasScheme (href (location w)) -> shouldInjectProvider w <> Normal true.
Proof.
  intro Hno. destruct (documentElement (document w)) as [root|] eqn:Hroot.
  - rewrite (no_scheme_with_root w root Hroot Hno). discriminate.
  - unfold shouldInjectProvider, suffixCheck, documentElementCheck. rewrite Hroot.
    destruct (doctypeCheck_returns w) as [b Hb]. rewrite Hb.
    destruct b; cbn [andAlso]; [|discriminate].
    destruct (suffixLoop prohibitedTypes (pathname (location w)));
      cbn [andAlso]; discriminate.
Qed.

(** C8.  Whatever the document and the domain, the gate returns [false]
    when the path of the URL ends in [.xml] or [.pdf]; the query string is
    not part of [location.pathname]. *)
Theorem prohibited_path_never_activates (w : Window) :
  prohibitedPath (pathname (location w)) ->
  shouldInjectProvider w = Normal false.
Proof.
  intro Hp. apply suffixLoop_false in Hp.
  unfold shouldInjectProvider, suffixCheck. rewrite Hp.
  destruct (doctypeCheck_returns w) as [b Hb]. rewrite Hb.
  destruct b; reflexivity.
Qed.

(** C8, at [/report.pdf] with a query string behind it. *)
Lemma prohibited_path_never_activates_report_pdf :
  prohibitedPath (js "/report.pdf")
  /\ shouldInjectProvider
       (windowAt htmlDocument "https://example.com/report.pdf?download=1"
                 "/report.pdf" "example.com")
     = Normal false.
Proof.
  assert (H : prohibitedPath (js "/report.pdf")).
  { exists (js "/report"). right. reflexivity. }
  split; [exact H|].
  apply (@prohibited_path_never_activates
           (windowAt htmlDocument "https://example.com/report.pdf?download=1"
                     "/report.pdf" "example.com")).
  exact H.
Defined.

(** C6, at the failing input.  A document without a root element, on a
    page that meets all four conditions: [documentElementCheck] reads
    [nodeName] off [null] and the gate throws instead of returning
    [true]. *)
Theorem gate_throws_without_root_element :
  let w := windowAt rootlessDocument "https://example.com/page" "/page" "example.com" in
  doctypeOk w /\ rootOk w /\ ~ prohibitedPath (pathname (location w))
  /\ blacklistedDomainCheck w = Normal false
  /\ shouldInjectProvider w
     = Throw (TypeError (js "Cannot read property 'nodeName' of null")).
Proof.
  cbv zeta. split; [left; reflexivity|].
  split; [intros root H; discriminate|].
  split.
  - intro H. apply suffixLoop_false in H. vm_compute in H. discriminate.
  - split; vm_compute; reflexivity.
Qed.

(** C10, at the failing input.  A [file:] document without a root element:
    the deny-list check does report the URL as blacklisted, but the gate
    throws in [documentElementCheck] before it gets there and does not
    return [false]. *)
Theorem gate_throws_without_root_element_off_http :
  let w := windowAt rootlessDocument "file:///home/user/notes.html"
                    "/home/user/notes.html" "" in
  ~ hasScheme (href (location w))
  /\ blacklistedDomainCheck w = Normal true
  /\ shouldInjectProvider w
     = Throw (TypeError (js "Cannot read property 'nodeName' of null")).
Proof.
  cbv zeta. split.
  - intro H. apply hasScheme_containsScheme in H. vm_compute in H. discriminate.
  - split; vm_compute; reflexivity.
Qed.

Example gate_accepts_html_page :
  shouldInjectProvider
    (windowAt htmlDocument "https://example.com/page" "/page" "example.com")
  = Normal true.
Proof. vm_compute. reflexivity. Qed.

Example gate_rejects_svg_root :
  shouldInjectProvider
    (windowAt svgDocument "https://example.com/logo" "/logo" "example.com")
  = Normal false.
Proof. vm_compute. reflexivity. Qed.

Example gate_rejects_dropbox :
  shouldInjectProvider
    (windowAt htmlDocument "https://www.dropbox.com/anything" "/anything"
              "www.dropbox.com")
  = Normal false.
Proof. vm_compute. reflexivity. Qed.

(** ** The phishing redirect *)

Lemma percentDecode_escapeUnit c rest :
  percentDecode (escapeUnit c ++ rest) = utf8Bytes c ++ percentDecode rest.
Proof.
  destruct c as [[] [] [] [] [] [] [] []]; reflexivity.
Qed.

Lemma percentDecode_escape s : percentDecode (escape s) = flat_map utf8Bytes s.
Proof.
  induction s as [|c s IH]; [reflexivity|].
  unfold escape in *. cbn [flat_map]. rewrite percentDecode_escapeUnit, IH. reflexivity.
Qed.

Lemma utf8Decode_utf8Bytes c rest :
  utf8Decode (utf8Bytes c ++ rest) = c :: utf8Decode rest.
Proof.
  destruct c as [[] [] [] [] [] [] [] []]; reflexivity.
Qed.

(** Percent-encoding can be undone. *)
Lemma unescape_escape s : unescape (escape s) = s.
Proof.
  unfold unescape. rewrite percentDecode_escape.
  induction s as [|c s IH]; [reflexivity|].
  cbn [flat_map]. rewrite utf8Decode_utf8Bytes, IH. reflexivity.
Qed.

Lemma escapeUnit_no_separator c : forallb (fun x => negb (isSeparator x)) (escapeUnit c) = true.
Proof.
  destruct c as [[] [] [] [] [] [] [] []]; reflexivity.
Qed.

Lemma escape_no_separator s : forallb (fun x => negb (isSeparator x)) (escape s) = true.
Proof.
  induction s as [|c s IH]; [reflexivity|].
  unfold escape in *. cbn [flat_map]. rewrite forallb_app, escapeUnit_no_separator, IH.
  reflexivity.
Qed.

Lemma cut_at sep a b :
  forallb (fun x => negb (ascii_eqb x sep)) a = true ->
  cut sep (a ++ sep :: b) = (a, Some b).
Proof.
  induction a as [|x a IH]; intro H.
  - simpl. rewrite ascii_eqb_refl. reflexivity.
  - simpl in H. apply andb_true_iff in H. destruct H as [Hx Ha].
    apply negb_true_iff in Hx. simpl. rewrite Hx, IH by exact Ha. reflexivity.
Qed.

Lemma cut_none sep a :
  forallb (fun x => negb (ascii_eqb x sep)) a = true ->
  cut sep a = (a, None).
Proof.
  induction a as [|x a IH]; intro H; [reflexivity|].
  simpl in H. apply andb_true_iff in H. destruct H as [Hx Ha].
  apply negb_true_iff in Hx. simpl. rewrite Hx, IH by exact Ha. reflexivity.
Qed.

(** Parts without the separator, joined and split again. *)
Lemma split_join sep parts :
  parts <> [] ->
  Forall (fun p => forallb (fun x => negb (ascii_eqb x sep)) p = true) parts ->
  forall fuel, List.length (join [sep] parts) <= fuel ->
               splitFuel fuel sep (join [sep] parts) = parts.
Proof.
  induction parts as [|p parts IH]; intros Hne Hall fuel Hlen; [congruence|].
  inversion Hall as [|? ? Hp Hrest]; subst.
  destruct parts as [|q parts].
  - cbn [join] in *. destruct fuel as [|fuel].
    + destruct p; [reflexivity | simpl in Hlen; lia].
    + cbn [splitFuel]. rewrite cut_none by exact Hp. reflexivity.
  - change (join [sep] (p :: q :: parts)) with (p ++ sep :: join [sep] (q :: parts)) in *.
    rewrite length_app in Hlen. cbn [List.length] in Hlen.
    destruct fuel as [|fuel]; [lia|].
    cbn [splitFuel]. rewrite cut_at by exact Hp.
    rewrite IH; [reflexivity | discriminate | exact Hrest | lia].
Qed.

Lemma no_separator_weaken sep s :
  In sep [ "&"%char; "="%char ] ->
  forallb (fun x => negb (isSeparator x)) s = true ->
  forallb (fun x => negb (ascii_eqb x sep)) s = true.
Proof.
  intros Hsep H. rewrite forallb_forall in *. intros x Hx. specialize (H x Hx).
  unfold isSeparator in H. apply negb_true_iff in H. apply orb_false_iff in H.
  destruct H as [H1 H2]. apply negb_true_iff.
  destruct Hsep as [<-|[<-|[]]]; assumption.
Qed.

Lemma parsePair_pairText kv : parsePair (pairText kv) = kv.
Proof.
  destruct kv as [k v]. unfold parsePair, pairText. cbn [fst snd js list_ascii_of_string app].
  rewrite cut_at.
  - rewrite !unescape_escape. reflexivity.
  - apply no_separator_weaken; [right; left; reflexivity | apply escape_no_separator].
Qed.

Lemma pairText_no_ampersand kv :
  forallb (fun x => negb (ascii_eqb x "&"%char)) (pairText kv) = true.
Proof.
  assert (H : forall s, forallb (fun x => negb (ascii_eqb x "&"%char)) (escape s) = true).
  { intro s. apply no_separator_weaken; [left; reflexivity | apply escape_no_separator]. }
  unfold pairText. rewrite !forallb_app, !H. reflexivity.
Qed.

Lemma parse_nonempty s : s <> [] -> parse s = map parsePair (split "&"%char s).
Proof. destruct s; [congruence | reflexivity]. Qed.

Lemma join_pairText_nonempty kv obj : join (js "&") (map pairText (kv :: obj)) <> [].
Proof.
  cbn [map]. intro E. destruct (map pairText obj); cbn [join] in E; unfold pairText in E.
  - apply app_eq_nil in E. destruct E as [_ E]. discriminate.
  - rewrite <- !app_assoc in E. apply app_eq_nil in E. destruct E as [_ E]. discriminate.
Qed.

(** Reading back what [stringify] wrote gives the pairs it was given. *)
Lemma parse_stringify obj : parse (stringify obj) = obj.
Proof.
  unfold stringify.
  change (fun kv => escape (fst kv) ++ js "=" ++ escape (snd kv)) with pairText.
  destruct obj as [|kv obj]; [reflexivity|].
  rewrite parse_nonempty by apply join_pairText_nonempty.
  unfold split. change (js "&") with [ "&"%char ].
  rewrite split_join.
  - rewrite map_map. rewrite <- (map_id (kv :: obj)) at 2.
    apply map_ext. apply parsePair_pairText.
  - discriminate.
  - apply Forall_forall. intros p Hp. apply in_map_iff in Hp.
    destruct Hp as [kv' [<- _]]. apply pairText_no_ampersand.
  - lia.
Qed.

(** C3.  The redirect navigates to the extension's [phishing.html] followed
    by [#] and a query string that reads back as exactly two parameters,
    [hostname] and [href], holding the hostname and the href of the
    current document. *)
Theorem redirect_target (e : Env) :
  exists fragment,
    fst (redirectToPhishingWarning e)
    = [ ConsoleLog (js "MetaMask - routing to Phishing Warning component");
        Navigate (getURL e (js "phishing.html") ++ js "#" ++ fragment) ]
    /\ parse fragment
       = [ (js "hostname", hostname (location (window e)));
           (js "href", href (location (window e))) ].
Proof.
  eexists. split.
  - reflexivity.
  - apply parse_stringify.
Qed.

(** ** The wiring *)

(** C2 (amended).  The channel whose chunks feed the onboarding handler is
    the channel named [onboarding] of the page-side multiplexer, the one
    piped with the post-message stream; the extension-side multiplexer has
    no channel of that name. *)
Theorem onboarding_channel_on_page_multiplexer (e : Env) :
  exists pageMux extensionMux ch,
    muxOn (wired e) PageSide = Some pageMux
    /\ muxOn (wired e) ExtensionSide = Some extensionMux
    /\ onboardingSource (wired e) = Some ch
    /\ channel (wired e) pageMux (js "onboarding") = Some ch
    /\ ownerOf (wired e) ch = Some pageMux
    /\ channel (wired e) extensionMux (js "onboarding") = None.
Proof.
  exists 3, 4, 5. repeat split; vm_compute; reflexivity.
Qed.

(** C2, counterexample.  The channel that feeds the onboarding handler was
    not created on the multiplexer piped with the extension transport. *)
Lemma onboarding_channel_not_on_extension_multiplexer :
  ~ (exists ch mux,
       onboardingSource (wired exampleEnv) = Some ch
       /\ ownerOf (wired exampleEnv) ch = Some mux
       /\ sideOfMux (wired exampleEnv) mux = Some ExtensionSide).
Proof.
  intros [ch [mux [H1 [H2 H3]]]].
  vm_compute in H1. injection H1 as <-.
  vm_compute in H2. injection H2 as <-.
  vm_compute in H3. discriminate.
Qed.







(** ** The phishing sink *)

Lemma withListeners_same w : withListeners w (listeners w) = w.
Proof. destruct w. reflexivity. Qed.

Lemma filter_none {A} (f : A -> bool) l : filter f l = [] -> forall x, In x l -> f x = false.
Proof.
  intros H x Hin. destruct (f x) eqn:E; [|reflexivity].
  assert (Hx : In x (filter f l)) by (apply filter_In; auto).
  rewrite H in Hx. destruct Hx.
Qed.

Lemma filter_all {A} (f : A -> bool) l : (forall x, In x l -> f x = true) -> filter f l = l.
Proof.
  induction l as [|x l IH]; intro H; [reflexivity|].
  simpl. rewrite (H x (or_introl eq_refl)). f_equal. apply IH.
  intros y Hy. apply H. right. exact Hy.
Qed.

(** An event nobody listens to changes nothing. *)
Lemma emit_unheard h ev arg w :
  filter (hears h ev) (listeners w) = [] -> emit h ev arg w = w.
Proof.
  intro H. unfold emit. rewrite H. cbn [fold_left].
  rewrite filter_all; [apply withListeners_same|].
  intros l Hl. rewrite (filter_none _ _ H l Hl). reflexivity.
Qed.

(** The event a single [once] listener waits for: the listener runs and
    is gone. *)
Lemma emit_once h ev arg w l :
  filter (hears h ev) (listeners w) = [l] ->
  once l = true ->
  let w1 := emit h ev arg w in
  invocations w1 = invocations w ++ [ (listener l, arg) ]
  /\ effects w1 = effects w ++ callbackEffects (env w) (listener l) arg
  /\ filter (hears h ev) (listeners w1) = [].
Proof.
  intros Hl Honce. cbv zeta. unfold emit. rewrite Hl. cbn [fold_left].
  unfold invoke.
  cbn [invocations effects env listeners withEffects withInvocations withListeners].
  split; [reflexivity|]. split; [reflexivity|].
  assert (Hall : forall x, In x (listeners w) -> hears h ev x = true -> x = l).
  { intros x Hin Hx.
    assert (Hf : In x (filter (hears h ev) (listeners w))) by (apply filter_In; auto).
    rewrite Hl in Hf. destruct Hf as [Hf|[]]. congruence. }
  clear Hl. induction (listeners w) as [|x ls IH]; [reflexivity|].
  cbn [filter]. destruct (hears h ev x) eqn:Ex.
  - assert (x = l) by (apply Hall; [left; reflexivity | exact Ex]). subst x.
    rewrite Honce. cbn [andb negb]. apply IH.
    intros y Hy. apply Hall. right. exact Hy.
  - cbn [andb negb filter]. rewrite Ex. apply IH.
    intros y Hy. apply Hall. right. exact Hy.
Qed.

Lemma receiveAll_unheard h messages w :
  filter (hears h (js "data")) (listeners w) = [] ->
  receiveAll h messages w = w.
Proof.
  intro H. induction messages as [|m messages IH]; [reflexivity|].
  unfold receiveAll in *. cbn [fold_left]. rewrite emit_unheard by exact H. exact IH.
Qed.

(** A channel with a single listener, added with [once]: of any messages
    only the first reaches it. *)
Lemma once_listener_first_only h w l first others :
  filter (hears h (js "data")) (listeners w) = [l] ->
  once l = true ->
  receiveAll h (first :: others) w = receiveAll h [first] w
  /\ invocations (receiveAll h (first :: others) w)
     = invocations w ++ [ (listener l, first) ].
Proof.
  intros Hl Honce.
  destruct (emit_once h (js "data") first w l Hl Honce) as (Hi & _ & Hgone).
  assert (H : receiveAll h (first :: others) w = receiveAll h [first] w).
  { unfold receiveAll. cbn [fold_left].
    apply (receiveAll_unheard h others). exact Hgone. }
  split; [exact H|]. rewrite H. unfold receiveAll. cbn [fold_left]. exact Hi.
Qed.

(** C5.  Whatever messages arrive on the phishing channel, one or many,
    the redirect handler is called once, for the first of them; the
    messages after the first leave the state as the first left it. *)
Theorem phishing_listener_fires_once (e : Env) (first : value) (others : list value) :
  exists extensionMux phishingStream,
    muxOn (wired e) ExtensionSide = Some extensionMux
    /\ channel (wired e) extensionMux (js "phishing") = Some phishingStream
    /\ invocations (receiveAll phishingStream (first :: others) (wired e))
       = [ (RedirectToPhishingWarning, first) ]
    /\ receiveAll phishingStream (first :: others) (wired e)
       = receiveAll phishingStream [first] (wired e).
Proof.
  exists 4, 13.
  split; [vm_compute; reflexivity|]. split; [vm_compute; reflexivity|].
  destruct (once_listener_first_only 13 (wired e)
              {| target := 13; event := js "data"; once := true;
                 listener := RedirectToPhishingWarning |} first others)
    as [Hsame Hinv]; [vm_compute; reflexivity | reflexivity |].
  split; [|exact Hsame]. rewrite Hinv. reflexivity.
Qed.

(** ** Pipes and the forwarders *)

Lemma statusOf_withPipelines w ps h : statusOf (withPipelines w ps) h = statusOf w h.
Proof. reflexivity. Qed.

Lemma statusOf_invoke cb arg w h : statusOf (invoke cb arg w) h = statusOf w h.
Proof. reflexivity. Qed.

Lemma find_app {A} (f : A -> bool) (l1 l2 : list A) :
  find f (l1 ++ l2) = match find f l1 with
                      | Some x => Some x
                      | None => find f l2
                      end.
Proof.
  induction l1 as [|x l1 IH]; [reflexivity|].
  simpl. destruct (f x); [reflexivity | exact IH].
Qed.

Lemma statusOf_close t w h h' :
  statusOf (close t w h) h' =
  match statusOf w h' with
  | Some old => Some old
  | None => if Nat.eqb h h' then Some t else None
  end.
Proof.
  unfold close. destruct (statusOf w h) as [old|] eqn:Eh.
  - destruct (statusOf w h') as [old'|] eqn:Eh'; [reflexivity|].
    destruct (Nat.eqb h h') eqn:E; [|reflexivity].
    apply Nat.eqb_eq in E. subst h'. congruence.
  - unfold statusOf. cbn [closed withClosed]. rewrite find_app.
    destruct (find (fun c => Nat.eqb (fst c) h') (closed w)); [reflexivity|].
    cbn [find fst snd]. destruct (Nat.eqb h h'); reflexivity.
Qed.

Lemma invocations_close t w h : invocations (close t w h) = invocations w.
Proof. unfold close. destruct (statusOf w h); reflexivity. Qed.

Lemma effects_close t w h : effects (close t w h) = effects w.
Proof. unfold close. destruct (statusOf w h); reflexivity. Qed.

Lemma env_close t w h : env (close t w h) = env w.
Proof. unfold close. destruct (statusOf w h); reflexivity. Qed.

Lemma pipelines_close t w h : pipelines (close t w h) = pipelines w.
Proof. unfold close. destruct (statusOf w h); reflexivity. Qed.

Lemma statusOf_fold_close t ms w h :
  statusOf (fold_left (close t) ms w) h =
  match statusOf w h with
  | Some old => Some old
  | None => if existsb (Nat.eqb h) ms then Some t else None
  end.
Proof.
  revert w. induction ms as [|m ms IH]; intro w.
  - simpl. destruct (statusOf w h); reflexivity.
  - cbn [fold_left existsb]. rewrite IH, statusOf_close.
    destruct (statusOf w h); [reflexivity|].
    rewrite (Nat.eqb_sym h m). destruct (Nat.eqb m h); [|reflexivity].
    destruct (existsb (Nat.eqb h) ms); reflexivity.
Qed.

Lemma invocations_fold_close t ms w :
  invocations (fold_left (close t) ms w) = invocations w.
Proof.
  revert w. induction ms as [|m ms IH]; intro w; [reflexivity|].
  cbn [fold_left]. rewrite IH. apply invocations_close.
Qed.

Lemma effects_fold_close t ms w :
  effects (fold_left (close t) ms w) = effects w.
Proof.
  revert w. induction ms as [|m ms IH]; intro w; [reflexivity|].
  cbn [fold_left]. rewrite IH. apply effects_close.
Qed.

Lemma env_fold_close t ms w : env (fold_left (close t) ms w) = env w.
Proof.
  revert w. induction ms as [|m ms IH]; intro w; [reflexivity|].
  cbn [fold_left]. rewrite IH. apply env_close.
Qed.

(** The first end of a stream of a pipe, the only live pipe through that
    stream: every stream of the pipe that was still open ends the same
    way, no other stream is touched, and the callback of the pipe runs
    once. *)
Lemma pipe_first_end w ms cb x t :
  statusOf w x = None ->
  filter (through x) (pipelines w)
  = [ {| members := ms; onDone := cb; live := true |} ] ->
  let w1 := terminate x t w in
  (forall h, statusOf w1 h
             = match statusOf w h with
               | Some old => Some old
               | None => if Nat.eqb x h || existsb (Nat.eqb h) ms
                         then Some t else None
               end)
  /\ invocations w1 = invocations w ++ [ (cb, terminalArg t) ]
  /\ effects w1 = effects w ++ callbackEffects (env w) cb (terminalArg t).
Proof.
  intros Hx Hhit. cbv zeta. unfold terminate. rewrite Hx, Hhit.
  cbn [fold_left]. unfold settle. cbn [members onDone].
  set (w2 := withPipelines (close t w x) (map (finish x) (pipelines (close t w x)))).
  split; [|split].
  - intro h. rewrite statusOf_invoke, statusOf_fold_close.
    unfold w2. rewrite statusOf_withPipelines, statusOf_close.
    destruct (statusOf w h); [reflexivity|].
    destruct (Nat.eqb x h); [reflexivity|].
    destruct (existsb (Nat.eqb h) ms); reflexivity.
  - unfold invoke. cbn [invocations withEffects withInvocations].
    rewrite invocations_fold_close. unfold w2. cbn [invocations withPipelines].
    rewrite invocations_close. reflexivity.
  - unfold invoke. cbn [effects withEffects withInvocations env].
    rewrite effects_fold_close, env_fold_close. unfold w2.
    cbn [effects env withPipelines]. rewrite effects_close, env_close. reflexivity.
Qed.

(** A stream ends once. *)
Lemma terminate_ended h t w old : statusOf w h = Some old -> terminate h t w = w.
Proof. intro H. unfold terminate. rewrite H. reflexivity. Qed.

Lemma terminateAll_ended events w :
  (forall ev, In ev events -> exists old, statusOf w (fst ev) = Some old) ->
  terminateAll events w = w.
Proof.
  induction events as [|ev events IH]; intro H; [reflexivity|].
  unfold terminateAll in *. cbn [fold_left].
  destruct (H ev (or_introl eq_refl)) as [old Hold].
  rewrite (terminate_ended _ _ _ _ Hold). apply IH.
  intros ev' Hin. apply H. right. exact Hin.
Qed.

(** Any number of ends of the two streams of a pairing, in any order:
    the first one decides, the others change nothing. *)
Lemma pairing_reports_once w a b cb (first : handle * Terminal) later :
  statusOf w a = None ->
  statusOf w b = None ->
  (forall x, x = a \/ x = b ->
     filter (through x) (pipelines w)
     = [ {| members := [a; b; a]; onDone := cb; live := true |} ]) ->
  (forall ev, In ev (first :: later) -> fst ev = a \/ fst ev = b) ->
  let after := terminateAll (first :: later) w in
  statusOf after a = Some (snd first)
  /\ statusOf after b = Some (snd first)
  /\ invocations after = invocations w ++ [ (cb, terminalArg (snd first)) ]
  /\ effects after
     = effects w ++ callbackEffects (env w) cb (terminalArg (snd first)).
Proof.
  intros Ha Hb Hhit Hev. cbv zeta. destruct first as [x t]. cbn [snd].
  assert (Hx : x = a \/ x = b) by (apply (Hev (x, t)); left; reflexivity).
  assert (Hxo : statusOf w x = None) by (destruct Hx as [-> | ->]; assumption).
  destruct (pipe_first_end w [a; b; a] cb x t Hxo (Hhit x Hx)) as (Hst & Hi & He).
  assert (Hsa : statusOf (terminate x t w) a = Some t).
  { rewrite Hst, Ha. cbn [existsb]. rewrite Nat.eqb_refl, orb_true_r. reflexivity. }
  assert (Hsb : statusOf (terminate x t w) b = Some t).
  { rewrite Hst, Hb. cbn [existsb]. rewrite Nat.eqb_refl, !orb_true_r. reflexivity. }
  unfold terminateAll. cbn [fold_left fst snd].
  change (fold_left (fun w ev => terminate (fst ev) (snd ev) w) later (terminate x t w))
    with (terminateAll later (terminate x t w)).
  rewrite terminateAll_ended; [auto|].
  intros ev Hin. destruct (Hev ev (or_intror Hin)) as [-> | ->]; eauto.
Qed.

(** C9.  For each forwarded channel name the script pipes the page-side
    channel, the extension-side channel and the page-side channel again.
    Whatever ends of the two channels then occur, in whatever order, both
    channels end the way the first of them says, and the disconnect
    handler of the pairing is called exactly once, with the error of that
    first end or with nothing.  [terminateAll] is a total function: no
    end of a channel makes the forwarder throw. *)
Theorem forwarder_reports_once (e : Env) (channelName : jsstring) :
  In channelName forwardedChannels ->
  exists pageMux extensionMux channelA channelB,
    muxOn (wired e) PageSide = Some pageMux
    /\ muxOn (wired e) ExtensionSide = Some extensionMux
    /\ channel (wired e) pageMux channelName = Some channelA
    /\ channel (wired e) extensionMux channelName = Some channelB
    /\ In {| members := [channelA; channelB; channelA];
             onDone := LogDisconnect (disconnectLabel channelName);
             live := true |} (pipelines (wired e))
    /\ forall (first : handle * Terminal) (later : list (handle * Terminal)),
         (forall ev, In ev (first :: later) -> fst ev = channelA \/ fst ev = channelB) ->
         let after := terminateAll (first :: later) (wired e) in
         statusOf after channelA = Some (snd first)
         /\ statusOf after channelB = Some (snd first)
         /\ invocations after
            = [ (LogDisconnect (disconnectLabel channelName), terminalArg (snd first)) ].
Proof.
  intro Hname.
  assert (Hcases : channelName = js "provider" \/ channelName = js "publicConfig"
                   \/ channelName = js "cap").
  { unfold forwardedChannels in Hname. simpl in Hname. intuition. }
  assert (Hgen : forall a b : handle,
             statusOf (wired e) a = None ->
             statusOf (wired e) b = None ->
             (forall x, x = a \/ x = b ->
                filter (through x) (pipelines (wired e))
                = [ {| members := [a; b; a];
                       onDone := LogDisconnect (disconnectLabel channelName);
                       live := true |} ]) ->
             forall (first : handle * Terminal) (later : list (handle * Terminal)),
               (forall ev, In ev (first :: later) -> fst ev = a \/ fst ev = b) ->
               let after := terminateAll (first :: later) (wired e) in
               statusOf after a = Some (snd first)
               /\ statusOf after b = Some (snd first)
               /\ invocations after
                  = [ (LogDisconnect (disconnectLabel channelName),
                       terminalArg (snd first)) ]).
  { intros a b Ha Hb Hhit first later Hev. cbv zeta.
    destruct (pairing_reports_once (wired e) a b _ first later Ha Hb Hhit Hev)
      as (H1 & H2 & H3 & _).
    split; [exact H1|]. split; [exact H2|]. rewrite H3. reflexivity. }
  destruct Hcases as [-> | [-> | ->]].
  - exists 3, 4, 7, 8. do 4 (split; [vm_compute; reflexivity|]).
    split; [vm_compute; do 3 right; left; reflexivity|].
    apply Hgen; [reflexivity | reflexivity |].
    intros x [-> | ->]; vm_compute; reflexivity.
  - exists 3, 4, 9, 10. do 4 (split; [vm_compute; reflexivity|]).
    split; [vm_compute; do 4 right; left; reflexivity|].
    apply Hgen; [reflexivity | reflexivity |].
    intros x [-> | ->]; vm_compute; reflexivity.
  - exists 3, 4, 11, 12. do 4 (split; [vm_compute; reflexivity|]).
    split; [vm_compute; do 5 right; left; reflexivity|].
    apply Hgen; [reflexivity | reflexivity |].
    intros x [-> | ->]; vm_compute; reflexivity.
Qed.

(** C9, at the [provider] pairing, whose page-side channel errors and whose
    extension-side channel then closes. *)
Lemma forwarder_reports_once_provider :
  In (js "provider") forwardedChannels
  /\ exists pageMux extensionMux channelA channelB,
       muxOn (wired exampleEnv) PageSide = Some pageMux
       /\ muxOn (wired exampleEnv) ExtensionSide = Some extensionMux
       /\ channel (wired exampleEnv) pageMux (js "provider") = Some channelA
       /\ channel (wired exampleEnv) extensionMux (js "provider") = Some channelB
       /\ In {| members := [channelA; channelB; channelA];
                onDone := LogDisconnect (disconnectLabel (js "provider"));
                live := true |} (pipelines (wired exampleEnv))
       /\ forall (first : handle * Terminal) (later : list (handle * Terminal)),
            (forall ev, In ev (first :: later) -> fst ev = channelA \/ fst ev = channelB) ->
            let after := terminateAll (first :: later) (wired exampleEnv) in
            statusOf after channelA = Some (snd first)
            /\ statusOf after channelB = Some (snd first)
            /\ invocations after
               = [ (LogDisconnect (disconnectLabel (js "provider")),
                    terminalArg (snd first)) ].
Proof.
  assert (H : In (js "provider") forwardedChannels) by (left; reflexivity).
  split; [exact H|].
  exact (forwarder_reports_once exampleEnv (js "provider") H).
Defined.

(** ** The onboarding sink *)

Lemma statusOf_withEffects w x h : statusOf (withEffects w x) h = statusOf w h.
Proof. reflexivity. Qed.

Lemma effects_withEffects w x : effects (withEffects w x) = x.
Proof. reflexivity. Qed.

Lemma invocations_withEffects w x : invocations (withEffects w x) = invocations w.
Proof. reflexivity. Qed.

Lemma pipelines_withEffects w x : pipelines (withEffects w x) = pipelines w.
Proof. reflexivity. Qed.




(** A chunk on an ended channel reaches no handler. *)
Lemma deliver_ended w source outcome response chunk old :
  statusOf w source = Some old ->
  deliver source outcome response chunk w = w.
Proof. intro H. unfold deliver. rewrite H. reflexivity. Qed.

Lemma truthy_getProperty chunk key :
  truthy chunk = true -> exists v, getProperty chunk key = Normal v.
Proof.
  destruct chunk; simpl; intro H; try discriminate; eauto.
Qed.



(** A message of type [other] on the onboarding channel of the wired page,
    then a registration message: the first is answered with the error,
    the channel stays open, and the second is sent. *)
Example onboarding_failure_then_registration :
  let other := VObject [ (js "type", VString (js "other")) ] in
  let register := VObject [ (js "type", VString (js "registerOnboarding")) ] in
  let answer := (VUndefined, VBool true) in
  let after := deliver 5 Onboarding.SendReturns answer other (wired exampleEnv) in
  callbacks (effects after)
  = [ VError (unrecognizedMessageTypeError (VString (js "other"))) ]
  /\ statusOf after 5 = None
  /\ sent (effects after) = []
  /\ sent (effects (deliver 5 Onboarding.SendReturns answer register after))
     = [ Onboarding.registration exampleEnv ].
Proof. cbv zeta. repeat split; vm_compute; reflexivity. Qed.

(* ================================================================== *)
(** * Further properties *)

(** ** The checks of the gate, one by one *)

(** X1.  [suffixCheck] rejects a page exactly when its path ends in [.xml]
    or [.pdf], in lower case; a path of fewer than four characters always
    passes. *)
Theorem suffixCheck_by_ending (w : Window) :
  (suffixCheck w = Normal false <-> prohibitedPath (pathname (location w)))
  /\ (suffixCheck w = Normal true <-> ~ prohibitedPath (pathname (location w)))
  /\ (List.length (pathname (location w)) < 4 -> suffixCheck w = Normal true).
Proof.
  pose proof (suffixLoop_false (pathname (location w))) as H.
  unfold suffixCheck.
  destruct (suffixLoop prohibitedTypes (pathname (location w))) eqn:E.
  - assert (Hn : ~ prohibitedPath (pathname (location w))).
    { intro Hp. apply H in Hp. discriminate. }
    split; [|split].
    + split; [discriminate | intro Hp; contradiction].
    + split; [intros _; exact Hn | reflexivity].
    + reflexivity.
  - assert (Hp : prohibitedPath (pathname (location w))) by (apply H; reflexivity).
    split; [|split].
    + split; [intros _; exact Hp | reflexivity].
    + split; [discriminate | intro Hn; contradiction].
    + intro Hlen. exfalso. destruct Hp as [stem [Hp|Hp]]; rewrite Hp in Hlen;
        rewrite length_app in Hlen; simpl in Hlen; lia.
Qed.

(** X3.  The gate throws exactly when the doctype check and the suffix
    check pass and the document has no root element; what it throws is
    the TypeError of [documentElementCheck].  A page that fails the
    doctype or the suffix check never makes it throw. *)
Theorem gate_throws_exactly (w : Window) (e : JsError) :
  shouldInjectProvider w = Throw e <->
  doctypeOk w /\ ~ prohibitedPath (pathname (location w))
  /\ documentElement (document w) = None
  /\ e = TypeError (js "Cannot read property 'nodeName' of null").
Proof.
  pose proof (doctypeCheck_true w) as Hdt.
  pose proof (suffixLoop_false (pathname (location w))) as Hsf.
  unfold shouldInjectProvider, suffixCheck, documentElementCheck, blacklistedDomainCheck.
  destruct (doctypeCheck_returns w) as [b1 Hb1]. rewrite Hb1 in *.
  destruct b1; cbn [andAlso].
  - destruct (suffixLoop prohibitedTypes (pathname (location w))) eqn:E2; cbn [andAlso].
    + destruct (documentElement (document w)) as [root|].
      * split.
        -- intro H. exfalso.
           destruct (JsString.truthy (nodeName root));
             [destruct (JsString.eqb (toLowerCase (nodeName root)) (js "html"))|];
             cbn [andAlso notC] in H; discriminate.
        -- intros (_ & _ & H & _). discriminate.
      * split.
        -- intro H. injection H as <-.
           split; [apply Hdt; reflexivity|].
           split; [intro Hp; apply Hsf in Hp; discriminate|]. auto.
        -- intros (_ & _ & _ & ->). reflexivity.
    + split; [discriminate|]. intros (_ & Hn & _). exfalso. apply Hn. apply Hsf. reflexivity.
  - split; [discriminate|]. intros (H & _). apply Hdt in H. discriminate.
Qed.

(** X4.  The gate returns [true] exactly when the doctype is absent or is
    [html], the path does not end in [.xml] or [.pdf], the document has a
    root element whose node name is empty or is [html] in some letter
    case, and the deny-list check returns [false]. *)
Theorem gate_accepts_exactly (w : Window) :
  shouldInjectProvider w = Normal true <->
  doctypeOk w /\ ~ prohibitedPath (pathname (location w))
  /\ (exists root, documentElement (document w) = Some root
                   /\ (nodeName root = [] \/ toLowerCase (nodeName root) = js "html"))
  /\ blacklistedDomainCheck w = Normal false.
Proof.
  pose proof (doctypeCheck_true w) as Hdt.
  pose proof (suffixLoop_false (pathname (location w))) as Hsf.
  unfold shouldInjectProvider, suffixCheck, documentElementCheck, blacklistedDomainCheck.
  destruct (doctypeCheck_returns w) as [b1 Hb1]. rewrite Hb1 in *.
  destruct b1; cbn [andAlso].
  - destruct (suffixLoop prohibitedTypes (pathname (location w))) eqn:E2; cbn [andAlso].
    + destruct (documentElement (document w)) as [root|].
      * destruct (nodeName root) as [|c s] eqn:En; cbn [JsString.truthy andAlso notC].
        -- destruct (blacklistLoop blacklistedDomains (href (location w))); cbn [negb].
           ++ split; [discriminate|]. intros (_ & _ & _ & H). discriminate.
           ++ split; [|reflexivity]. intros _.
              split; [apply Hdt; reflexivity|].
              split; [intro Hp; apply Hsf in Hp; discriminate|].
              split; [|reflexivity]. exists root. split; [reflexivity|]. left. exact En.
        -- destruct (JsString.eqb (toLowerCase (c :: s)) (js "html")) eqn:E3;
             cbn [andAlso notC].
           ++ destruct (blacklistLoop blacklistedDomains (href (location w))); cbn [negb].
              ** split; [discriminate|]. intros (_ & _ & _ & H). discriminate.
              ** split; [|reflexivity]. intros _.
                 split; [apply Hdt; reflexivity|].
                 split; [intro Hp; apply Hsf in Hp; discriminate|].
                 split; [|reflexivity]. exists root. split; [reflexivity|]. right.
                 rewrite En. apply jsstring_eqb_true. exact E3.
           ++ split; [discriminate|]. intros (_ & _ & [root' [Hr Hn]] & _).
              injection Hr as <-. rewrite En in Hn. destruct Hn as [Hn|Hn]; [discriminate|].
              apply jsstring_eqb_true in Hn. congruence.
      * split; [discriminate|]. intros (_ & _ & [root [Hr _]] & _). discriminate.
    + split; [discriminate|]. intros (_ & Hn & _). exfalso. apply Hn. apply Hsf. reflexivity.
  - split; [discriminate|]. intros (H & _). apply Hdt in H. discriminate.
Qed.

(** ** More on the deny-list check *)

Lemma agrees_self entry after dotSeen : agrees dotSeen entry (entry ++ after) = true.
Proof.
  revert dotSeen. induction entry as [|c entry IH]; intro dotSeen; [reflexivity|].
  cbn [app agrees]. destruct (ascii_eqb c "."%char) eqn:E.
  - apply ascii_eqb_true in E. subst c. rewrite IH. destruct dotSeen; reflexivity.
  - rewrite ascii_eqb_refl, IH. reflexivity.
Qed.

Lemma blacklistedDomains_nonempty :
  forall entry, In entry blacklistedDomains -> entry <> [].
Proof.
  assert (H : forallb (fun entry => negb (isNil entry)) blacklistedDomains = true)
    by (vm_compute; reflexivity).
  rewrite forallb_forall in H. intros entry Hin He. specialize (H entry Hin).
  subst entry. discriminate.
Qed.

(** X5.  On a URL that is one scheme followed by text without a further
    scheme, the deny-list check blocks whenever an entry of the list occurs
    in that text, wherever it occurs: on the listed host, on each of its
    subdomains, on every path below them, and as well when the entry only
    appears in the path, the query or the fragment. *)
Theorem deny_list_blocks_every_occurrence (w : Window)
    (scheme before entry after : jsstring) :
  scheme = js "http://" \/ scheme = js "https://" ->
  In entry blacklistedDomains ->
  href (location w) = scheme ++ before ++ entry ++ after ->
  ~ hasScheme (before ++ entry ++ after) ->
  blacklistedDomainCheck w = Normal true.
Proof.
  intros Hs Hin Hhref Hno.
  apply (deny_list_one_scheme w scheme (before ++ entry ++ after) Hs Hhref Hno).
  exists entry. split; [exact Hin|].
  destruct entry as [|c entry'] eqn:Ee.
  - exfalso. apply (blacklistedDomains_nonempty [] Hin). reflexivity.
  - exists before, c, (entry' ++ after). split; [reflexivity|]. right.
    apply (agrees_self (c :: entry') after false).
Qed.

(** X5, at a path on a subdomain of a listed host. *)
Lemma deny_list_blocks_every_occurrence_subdomain :
  let w := windowAt htmlDocument "https://files.sharefile.com/d/s1" "/d/s1"
                    "files.sharefile.com" in
  (js "https://" = js "http://" \/ js "https://" = js "https://")
  /\ In (js "sharefile.com") blacklistedDomains
  /\ href (location w) = js "https://" ++ js "files." ++ js "sharefile.com" ++ js "/d/s1"
  /\ ~ hasScheme (js "files." ++ js "sharefile.com" ++ js "/d/s1")
  /\ blacklistedDomainCheck w = Normal true.
Proof.
  cbv zeta.
  assert (H1 : js "https://" = js "http://" \/ js "https://" = js "https://")
    by (right; reflexivity).
  assert (H2 : In (js "sharefile.com") blacklistedDomains)
    by (vm_compute; do 9 right; left; reflexivity).
  assert (H3 : href (location (windowAt htmlDocument "https://files.sharefile.com/d/s1"
                                        "/d/s1" "files.sharefile.com"))
               = js "https://" ++ js "files." ++ js "sharefile.com" ++ js "/d/s1")
    by reflexivity.
  assert (H4 : ~ hasScheme (js "files." ++ js "sharefile.com" ++ js "/d/s1")).
  { intro H. apply hasScheme_containsScheme in H. vm_compute in H. discriminate. }
  split; [exact H1|]. split; [exact H2|]. split; [exact H3|]. split; [exact H4|].
  exact (deny_list_blocks_every_occurrence _ _ _ _ _ H1 H2 H3 H4).
Defined.

Lemma agrees_needs_dot entry :
  hasDot entry = true ->
  forall t, agrees false entry t = true -> hasDot t = true.
Proof.
  unfold hasDot. induction entry as [|e entry IH]; intros Hd t Ha; [discriminate|].
  destruct t as [|c t]; [discriminate|].
  cbn [agrees] in Ha. cbn [existsb] in *.
  destruct (ascii_eqb e "."%char) eqn:E.
  - apply andb_true_iff in Ha. destruct Ha as [Hc _].
    apply ascii_eqb_true in Hc. subst c. reflexivity.
  - apply andb_true_iff in Ha. destruct Ha as [_ Ha].
    assert (E' : ascii_eqb "."%char e = false).
    { apply ascii_eqb_false. apply ascii_eqb_false in E. congruence. }
    rewrite E' in Hd. cbn [orb] in Hd.
    rewrite (IH Hd t Ha). apply orb_true_r.
Qed.

Lemma blacklistedDomains_hasDot :
  forall entry, In entry blacklistedDomains -> hasDot entry = true.
Proof.
  assert (H : forallb hasDot blacklistedDomains = true) by (vm_compute; reflexivity).
  rewrite forallb_forall in H. exact H.
Qed.

Lemma hasDot_app u t : hasDot t = true -> hasDot (u ++ t) = true.
Proof. unfold hasDot. intro H. rewrite existsb_app, H. apply orb_true_r. Qed.

Lemma hasLineTerminator_app u c t :
  lineTerminator c = true -> hasLineTerminator (u ++ c :: t) = true.
Proof.
  unfold hasLineTerminator. intro H. rewrite existsb_app. cbn [existsb].
  rewrite H. cbn [orb]. apply orb_true_r.
Qed.

(** X6.  On a URL that is one scheme followed by text without a further
    scheme, without a dot and without a line terminator, the deny-list
    check never blocks: every entry needs its first dot.  A page on
    [localhost], whatever its port and path, is such a page. *)
Theorem deny_list_needs_a_dot (w : Window) (scheme rest : jsstring) :
  scheme = js "http://" \/ scheme = js "https://" ->
  href (location w) = scheme ++ rest ->
  ~ hasScheme rest ->
  hasDot rest = false ->
  hasLineTerminator rest = false ->
  blacklistedDomainCheck w = Normal false.
Proof.
  intros Hs Hhref Hno Hdot Hlt.
  destruct (blacklistLoop blacklistedDomains (href (location w))) eqn:E;
    unfold blacklistedDomainCheck; rewrite E; [|reflexivity].
  exfalso.
  assert (H : blacklistedDomainCheck w = Normal true)
    by (unfold blacklistedDomainCheck; rewrite E; reflexivity).
  apply (deny_list_one_scheme w scheme rest Hs Hhref Hno) in H.
  destruct H as [entry [Hin [u [c [t [Hr [Hc|Hc]]]]]]].
  - rewrite Hr, (hasLineTerminator_app u c t Hc) in Hlt. discriminate.
  - apply (agrees_needs_dot entry (blacklistedDomains_hasDot entry Hin)) in Hc.
    rewrite Hr, (hasDot_app u (c :: t) Hc) in Hdot. discriminate.
Qed.

(** X6, at a page on [localhost]. *)
Lemma deny_list_needs_a_dot_localhost :
  let w := windowAt htmlDocument "http://localhost:8080/app?tab=2" "/app" "localhost" in
  (js "http://" = js "http://" \/ js "http://" = js "https://")
  /\ href (location w) = js "http://" ++ js "localhost:8080/app?tab=2"
  /\ ~ hasScheme (js "localhost:8080/app?tab=2")
  /\ hasDot (js "localhost:8080/app?tab=2") = false
  /\ hasLineTerminator (js "localhost:8080/app?tab=2") = false
  /\ blacklistedDomainCheck w = Normal false.
Proof.
  cbv zeta.
  assert (H1 : js "http://" = js "http://" \/ js "http://" = js "https://")
    by (left; reflexivity).
  assert (H2 : href (location (windowAt htmlDocument "http://localhost:8080/app?tab=2"
                                        "/app" "localhost"))
               = js "http://" ++ js "localhost:8080/app?tab=2") by reflexivity.
  assert (H3 : ~ hasScheme (js "localhost:8080/app?tab=2")).
  { intro H. apply hasScheme_containsScheme in H. vm_compute in H. discriminate. }
  assert (H4 : hasDot (js "localhost:8080/app?tab=2") = false) by reflexivity.
  assert (H5 : hasLineTerminator (js "localhost:8080/app?tab=2") = false) by reflexivity.
  split; [exact H1|]. split; [exact H2|]. split; [exact H3|].
  split; [exact H4|]. split; [exact H5|].
  exact (deny_list_needs_a_dot _ _ _ H1 H2 H3 H4 H5).
Defined.

(** ** The response callback and the completion callback of the sink *)

(** What the response callback does, once [chunk.type] is known to be
    readable. *)
Lemma handleSendMessageResponse_effects env chunk error success :
  truthy chunk = true ->
  let failure :=
    if negb (truthy error) && negb (truthy success) then lastError env else error in
  Onboarding.handleSendMessageResponse env chunk error success
  = (if truthy failure
     then [ LogError [ VString (js "Failed to send " ++ toString (typeOf chunk)
                                ++ js " message"); failure ];
            WriteCallback failure ]
     else [ WriteCallback VNull ],
     Normal tt).
Proof.
  intro Ht. cbv zeta. unfold Onboarding.handleSendMessageResponse, typeOf.
  destruct (truthy_getProperty chunk (js "type") Ht) as [ty Hty]. rewrite Hty.
  destruct (truthy (if negb (truthy error) && negb (truthy success)
                    then lastError env else error)); reflexivity.
Qed.




Lemma callbacks_app es es' : callbacks (es ++ es') = callbacks es ++ callbacks es'.
Proof.
  induction es as [|x es IH]; [reflexivity|].
  destruct x; cbn [app callbacks]; rewrite ?IH; reflexivity.
Qed.

Lemma sent_app es es' : sent (es ++ es') = sent es ++ sent es'.
Proof.
  induction es as [|x es IH]; [reflexivity|].
  destruct x; cbn [app sent]; rewrite ?IH; reflexivity.
Qed.

Lemma firstCallback_callbacks es :
  firstCallback es = match callbacks es with [] => None | arg :: _ => Some arg end.
Proof.
  induction es as [|x es IH]; [reflexivity|].
  destruct x; cbn [firstCallback callbackArg callbacks]; auto.
Qed.

(** The effects of one chunk, by the kind of chunk, the outcome of the
    call and the answer of the extension. *)
Lemma consume_cases e outcome response chunk :
  let es := consume e outcome response chunk in
  (truthy chunk = false /\ es = [ WriteCallback (VError malformedMessageError) ])
  \/ (truthy chunk = true
      /\ strictEqString (typeOf chunk) (js "registerOnboarding") = false
      /\ es = [ LogError [ VError (unrecognizedMessageTypeError (typeOf chunk)) ];
                WriteCallback (VError (unrecognizedMessageTypeError (typeOf chunk))) ])
  \/ (truthy chunk = true
      /\ strictEqString (typeOf chunk) (js "registerOnboarding") = true
      /\ exists err, outcome = Onboarding.SendThrows err
         /\ es = [ SendMessage (Onboarding.registration e);
                   LogError [ VError err ]; WriteCallback (VError err) ])
  \/ (truthy chunk = true
      /\ strictEqString (typeOf chunk) (js "registerOnboarding") = true
      /\ outcome = Onboarding.SendReturns
      /\ es = SendMessage (Onboarding.registration e)
              :: fst (Onboarding.handleSendMessageResponse e chunk
                        (fst response) (snd response))).
Proof.
  cbv zeta. unfold consume, Onboarding.write, typeOf.
  destruct (truthy chunk) eqn:Ht; cbn [negb]; [|left; split; reflexivity].
  right. destruct (truthy_getProperty chunk (js "type") Ht) as [ty Hty]. rewrite Hty.
  unfold lift, bind, tryCatch.
  destruct (strictEqString ty (js "registerOnboarding")) eqn:Er.
  - right. destruct outcome as [|err].
    + right. repeat (split; [reflexivity|]). reflexivity.
    + left. split; [reflexivity|]. split; [reflexivity|].
      exists err. split; reflexivity.
  - left. split; [reflexivity|]. split; reflexivity.
Qed.

(** X8.  Every chunk given to the sink has its completion callback called
    exactly once, whatever the chunk, whether or not the call of
    [sendMessage] throws, and whatever the extension answers; at most one
    message is sent for it, and none unless its type is
    [registerOnboarding]. *)
Theorem sink_answers_each_chunk_once (e : Env) (outcome : Onboarding.SendOutcome)
    (response : value * value) (chunk : value) :
  let es := consume e outcome response chunk in
  (exists arg, callbacks es = [arg] /\ firstCallback es = Some arg)
  /\ List.length (sent es) <= 1
  /\ (sent es <> [] ->
      truthy chunk = true
      /\ strictEqString (typeOf chunk) (js "registerOnboarding") = true
      /\ sent es = [ Onboarding.registration e ]).
Proof.
  cbv zeta.
  destruct (consume_cases e outcome response chunk)
    as [[Ht ->] | [(Ht & Hr & ->) | [(Ht & Hr & err & Ho & ->) | (Ht & Hr & Ho & ->)]]].
  - split; [eexists; split; reflexivity|]. split; [simpl; lia|].
    intro H; exfalso; apply H; reflexivity.
  - split; [eexists; split; reflexivity|]. split; [simpl; lia|].
    intro H; exfalso; apply H; reflexivity.
  - split; [eexists; split; reflexivity|]. split; [simpl; lia|].
    intros _. split; [exact Ht|]. split; [exact Hr | reflexivity].
  - rewrite (handleSendMessageResponse_effects e chunk (fst response) (snd response) Ht).
    cbn [fst].
    destruct (truthy (if negb (truthy (fst response)) && negb (truthy (snd response))
                      then lastError e else fst response)).
    + split; [eexists; split; reflexivity|]. split; [simpl; lia|].
      intros _. split; [exact Ht|]. split; [exact Hr | reflexivity].
    + split; [eexists; split; reflexivity|]. split; [simpl; lia|].
      intros _. split; [exact Ht|]. split; [exact Hr | reflexivity].
Qed.

(** ** The wired page at work *)

Lemma pipelines_wired e :
  pipelines (wired e)
  = [ {| members := [3; 0; 3]; onDone := LogDisconnect (js "MetaMask Inpage Multiplex");
         live := true |};
      {| members := [4; 2; 4]; onDone := LogDisconnect (js "MetaMask Background Multiplex");
         live := true |};
      {| members := [5; 6]; onDone := LogOnboardingFailure; live := true |};
      {| members := [7; 8; 7]; onDone := LogDisconnect (disconnectLabel (js "provider"));
         live := true |};
      {| members := [9; 10; 9];
         onDone := LogDisconnect (disconnectLabel (js "publicConfig")); live := true |};
      {| members := [11; 12; 11]; onDone := LogDisconnect (disconnectLabel (js "cap"));
         live := true |} ].
Proof. reflexivity. Qed.

Lemma listeners_wired e :
  listeners (wired e)
  = [ {| target := 13; event := js "data"; once := true;
         listener := RedirectToPhishingWarning |} ].
Proof. reflexivity. Qed.

Lemma effects_wired e : effects (wired e) = [].
Proof. vm_compute. reflexivity. Qed.

Lemma invocations_wired e : invocations (wired e) = [].
Proof. vm_compute. reflexivity. Qed.

Lemma statusOf_wired e h : statusOf (wired e) h = None.
Proof. vm_compute. reflexivity. Qed.

Lemma env_wired e : env (wired e) = e.
Proof. vm_compute. reflexivity. Qed.

Lemma deliver_acknowledged w source sink outcome response chunk arg :
  statusOf w source = None ->
  sinkOf w source = Some sink ->
  firstCallback (consume (env w) outcome response chunk) = Some arg ->
  truthy arg = false ->
  deliver source outcome response chunk w
  = withEffects w (effects w ++ consume (env w) outcome response chunk).
Proof.
  intros H1 H2 _ _. unfold deliver. rewrite H1, H2. reflexivity.
Qed.

Lemma consume_registration e response chunk :
  registers chunk = true ->
  accepted e response = true ->
  consume e Onboarding.SendReturns response chunk
  = [ SendMessage (Onboarding.registration e); WriteCallback VNull ].
Proof.
  unfold registers, accepted. intros Hr Ha.
  apply andb_true_iff in Hr. destruct Hr as [Ht Hr].
  apply andb_true_iff in Ha. destruct Ha as [He Hs].
  apply negb_true_iff in He.
  unfold consume, Onboarding.write, Onboarding.handleSendMessageResponse, typeOf in *.
  rewrite Ht. cbn [negb].
  destruct (truthy_getProperty chunk (js "type") Ht) as [ty Hty]. rewrite Hty in *.
  unfold lift, bind, tryCatch. rewrite Hr. cbn [Onboarding.sendMessage].
  unfold Onboarding.sendMessage, perform, bind, ret. cbn [fst app firstCallback callbackArg].
  rewrite He. cbn [negb andb].
  destruct (truthy (snd response)) eqn:Es; cbn [negb orb] in *.
  - rewrite He. reflexivity.
  - apply negb_true_iff in Hs. rewrite Hs. reflexivity.
Qed.

Lemma withEffects_withEffects w x y : withEffects (withEffects w x) y = withEffects w y.
Proof. reflexivity. Qed.

(** Registration chunks that the extension accepts go through one after
    the other and leave the pipe as it was. *)
Lemma deliverAll_accepted source sink items : forall w,
  statusOf w source = None ->
  sinkOf w source = Some sink ->
  (forall item, In item items ->
     registers (fst item) = true /\ accepted (env w) (snd item) = true) ->
  deliverAll source items w
  = withEffects w
      (effects w
       ++ flat_map (fun _ => [ SendMessage (Onboarding.registration (env w));
                               WriteCallback VNull ]) items).
Proof.
  induction items as [|item items IH]; intros w Hs Hk Hall.
  - cbn [flat_map]. rewrite app_nil_r. destruct w. reflexivity.
  - unfold deliverAll in *. cbn [fold_left flat_map].
    destruct (Hall item (or_introl eq_refl)) as [Hr Ha].
    pose proof (consume_registration (env w) (snd item) (fst item) Hr Ha) as Hc.
    rewrite (deliver_acknowledged w source sink Onboarding.SendReturns (snd item)
               (fst item) VNull Hs Hk); [|rewrite Hc; reflexivity | reflexivity].
    rewrite Hc.
    rewrite IH; [| exact Hs | exact Hk | intros it Hin; apply Hall; right; exact Hin].
    cbn [effects env withEffects]. rewrite withEffects_withEffects.
    rewrite <- app_assoc. reflexivity.
Qed.

(** X9.  Registration chunks on the onboarding channel that the extension
    accepts, any number of them: each has the registration message sent
    and is answered with [null], in the order of arrival; nothing is
    logged, no callback of a pipe runs, and the onboarding channel and the
    page-side multiplexer stay open. *)
Theorem accepted_registrations_keep_channel_open (e : Env) :
  exists pageMux onboardingStream,
    muxOn (wired e) PageSide = Some pageMux
    /\ channel (wired e) pageMux (js "onboarding") = Some onboardingStream
    /\ forall items : list (value * (value * value)),
         (forall item, In item items ->
            registers (fst item) = true /\ accepted e (snd item) = true) ->
         let after := deliverAll onboardingStream items (wired e) in
         effects after
         = flat_map (fun _ => [ SendMessage (Onboarding.registration e);
                                WriteCallback VNull ]) items
         /\ invocations after = []
         /\ statusOf after onboardingStream = None
         /\ statusOf after pageMux = None
         /\ pipelines after = pipelines (wired e).
Proof.
  exists 3, 5. split; [vm_compute; reflexivity|]. split; [vm_compute; reflexivity|].
  intros items Hall. cbv zeta.
  rewrite (deliverAll_accepted 5 6 items (wired e));
    [| apply statusOf_wired | vm_compute; reflexivity
     | rewrite env_wired; exact Hall].
  rewrite effects_withEffects, invocations_withEffects, pipelines_withEffects,
    !statusOf_withEffects, !statusOf_wired, effects_wired, invocations_wired, env_wired.
  repeat split; reflexivity.
Qed.

(** ** Disconnect warnings *)

Lemma logStreamDisconnectWarning_text label err :
  exists text,
    logStreamDisconnectWarning label err = ([ ConsoleWarn text ], Normal tt)
    /\ (truthy err = false -> text = lostConnectionTo label)
    /\ (truthy err = true ->
        text = lostConnectionTo label ++ [ "010"%char ] ++ toString (stackOf err)).
Proof.
  unfold logStreamDisconnectWarning, lostConnectionTo.
  destruct (truthy err); eexists; (split; [reflexivity|]);
    split; intro H; try discriminate; reflexivity.
Qed.

Lemma first_end_warns e ms label x t :
  statusOf (wired e) x = None ->
  filter (through x) (pipelines (wired e))
  = [ {| members := ms; onDone := LogDisconnect label; live := true |} ] ->
  let after := terminate x t (wired e) in
  (exists text,
      fst (logStreamDisconnectWarning label (terminalArg t)) = [ ConsoleWarn text ]
      /\ In (ConsoleWarn text) (effects after)
      /\ (truthy (terminalArg t) = false -> text = lostConnectionTo label)
      /\ (truthy (terminalArg t) = true ->
          text = lostConnectionTo label ++ [ "010"%char ]
                 ++ toString (stackOf (terminalArg t))))
  /\ (exists before later,
        invocations after = before ++ (LogDisconnect label, terminalArg t) :: later
        /\ forall i, In i (before ++ later) -> fst i <> LogDisconnect label)
  /\ (forall h, In h ms -> statusOf after h = Some t).
Proof.
  intros Hx Hhit. cbv zeta.
  destruct (pipe_first_end (wired e) ms (LogDisconnect label) x t Hx Hhit)
    as (Hst & Hi & He).
  split; [|split].
  - destruct (logStreamDisconnectWarning_text label (terminalArg t)) as (text & Ht & H).
    exists text. split; [rewrite Ht; reflexivity|]. split; [|exact H].
    rewrite He. cbn [callbackEffects]. rewrite Ht. apply in_or_app. right. left.
    reflexivity.
  - exists [], []. split; [rewrite Hi, invocations_wired; reflexivity|].
    intros i [].
  - intros h Hin. rewrite Hst.
    assert (Hh : existsb (Nat.eqb h) ms = true).
    { apply existsb_exists. exists h. split; [exact Hin | apply Nat.eqb_refl]. }
    rewrite Hh, orb_true_r, statusOf_wired. reflexivity.
Qed.

(** X10.  On the wired page, take any pipe whose callback is a disconnect
    logger: the two pipes of a multiplexer with its transport and the
    three pairings.  The first end of any of its streams ends every stream
    of the pipe the same way and runs the logger of the pipe exactly once,
    with the error of that end or with nothing.  What the logger prints is
    one warning: the text [MetamaskContentscript - lost connection to] and
    the label of the pipe, followed by a line feed and the stack of the
    error when the stream ended with a truthy error, and by nothing
    otherwise. *)
Theorem disconnect_logger_runs_once (e : Env) (p : Pipeline) (label : jsstring)
    (x : handle) (t : Terminal) :
  In p (pipelines (wired e)) ->
  onDone p = LogDisconnect label ->
  In x (members p) ->
  let after := terminate x t (wired e) in
  (exists text,
      fst (logStreamDisconnectWarning label (terminalArg t)) = [ ConsoleWarn text ]
      /\ In (ConsoleWarn text) (effects after)
      /\ (truthy (terminalArg t) = false -> text = lostConnectionTo label)
      /\ (truthy (terminalArg t) = true ->
          text = lostConnectionTo label ++ [ "010"%char ]
                 ++ toString (stackOf (terminalArg t))))
  /\ (exists before later,
        invocations after = before ++ (LogDisconnect label, terminalArg t) :: later
        /\ forall i, In i (before ++ later) -> fst i <> LogDisconnect label)
  /\ (forall h, In h (members p) -> statusOf after h = Some t)
  /\ (label = js "MetaMask Inpage Multiplex"
      \/ label = js "MetaMask Background Multiplex"
      \/ exists channelName,
           In channelName forwardedChannels /\ label = disconnectLabel channelName).
Proof.
  intros Hp Hcb Hx. cbv zeta. rewrite pipelines_wired in Hp.
  assert (Hgen : forall ms,
             members p = ms ->
             statusOf (wired e) x = None ->
             filter (through x) (pipelines (wired e))
             = [ {| members := ms; onDone := LogDisconnect label; live := true |} ] ->
             (exists text,
                 fst (logStreamDisconnectWarning label (terminalArg t)) = [ ConsoleWarn text ]
                 /\ In (ConsoleWarn text) (effects (terminate x t (wired e)))
                 /\ (truthy (terminalArg t) = false -> text = lostConnectionTo label)
                 /\ (truthy (terminalArg t) = true ->
                     text = lostConnectionTo label ++ [ "010"%char ]
                            ++ toString (stackOf (terminalArg t))))
             /\ (exists before later,
                   invocations (terminate x t (wired e))
                   = before ++ (LogDisconnect label, terminalArg t) :: later
                   /\ forall i, In i (before ++ later) -> fst i <> LogDisconnect label)
             /\ (forall h, In h (members p) -> statusOf (terminate x t (wired e)) h = Some t)).
  { intros ms Hms Hs Hhit. rewrite Hms. exact (first_end_warns e ms label x t Hs Hhit). }
  destruct Hp as [<-|[<-|[<-|[<-|[<-|[<-|[]]]]]]]; cbn [onDone members] in *;
    try discriminate; injection Hcb as <-;
    (destruct Hx as [<-|[<-|[<-|[]]]];
     (destruct (Hgen _ eq_refl eq_refl eq_refl) as (H1 & H2 & H3);
      split; [exact H1|]; split; [exact H2|]; split; [exact H3|])).
  all: try (left; reflexivity).
  all: try (right; left; reflexivity).
  all: right; right.
  1-3: exists (js "provider"); split; [left; reflexivity | reflexivity].
  1-3: exists (js "publicConfig"); split; [right; left; reflexivity | reflexivity].
  all: exists (js "cap"); split; [right; right; left; reflexivity | reflexivity].
Qed.

(** X10, at the page transport, which errors. *)
Lemma disconnect_logger_runs_once_page_transport :
  let p := {| members := [3; 0; 3]; onDone := LogDisconnect (js "MetaMask Inpage Multiplex");
              live := true |} in
  let label := js "MetaMask Inpage Multiplex" in
  let t := Failed (VError (Error (js "port closed"))) in
  In p (pipelines (wired exampleEnv))
  /\ onDone p = LogDisconnect label
  /\ In 0 (members p)
  /\ let after := terminate 0 t (wired exampleEnv) in
     (exists text,
         fst (logStreamDisconnectWarning label (terminalArg t)) = [ ConsoleWarn text ]
         /\ In (ConsoleWarn text) (effects after)
         /\ (truthy (terminalArg t) = false -> text = lostConnectionTo label)
         /\ (truthy (terminalArg t) = true ->
             text = lostConnectionTo label ++ [ "010"%char ]
                    ++ toString (stackOf (terminalArg t))))
     /\ (exists before later,
           invocations after = before ++ (LogDisconnect label, terminalArg t) :: later
           /\ forall i, In i (before ++ later) -> fst i <> LogDisconnect label)
     /\ (forall h, In h (members p) -> statusOf after h = Some t)
     /\ (label = js "MetaMask Inpage Multiplex"
         \/ label = js "MetaMask Background Multiplex"
         \/ exists channelName,
              In channelName forwardedChannels /\ label = disconnectLabel channelName).
Proof.
  cbv zeta.
  assert (H1 : In {| members := [3; 0; 3];
                     onDone := LogDisconnect (js "MetaMask Inpage Multiplex");
                     live := true |} (pipelines (wired exampleEnv)))
    by (rewrite pipelines_wired; left; reflexivity).
  assert (H3 : In 0 [3; 0; 3]) by (right; left; reflexivity).
  split; [exact H1|]. split; [reflexivity|]. split; [exact H3|].
  exact (disconnect_logger_runs_once exampleEnv
           {| members := [3; 0; 3];
              onDone := LogDisconnect (js "MetaMask Inpage Multiplex");
              live := true |}
           (js "MetaMask Inpage Multiplex") 0
           (Failed (VError (Error (js "port closed")))) H1 eq_refl H3).
Defined.

(** ** The redirect *)

Lemma navigations_redirect e :
  navigations (fst (redirectToPhishingWarning e))
  = [ getURL e (js "phishing.html") ++ js "#"
      ++ stringify [ (js "hostname", hostname (location (window e)));
                     (js "href", href (location (window e))) ] ].
Proof. reflexivity. Qed.

(** X11.  On the wired page the redirect to the phishing warning is made
    by the first message on the phishing channel and by nothing else the
    script listens to: any non-empty run of messages on that channel logs
    once and assigns the warning URL to the location exactly once, and the
    listener is gone afterwards; the script has no listener for an event
    of another name or on another stream, so that no such event, and no
    message on another channel, leads to a navigation. *)
Theorem redirect_only_by_phishing_message (e : Env) :
  exists extensionMux phishingStream,
    muxOn (wired e) ExtensionSide = Some extensionMux
    /\ channel (wired e) extensionMux (js "phishing") = Some phishingStream
    /\ (forall (first : value) (others : list value),
          let after := receiveAll phishingStream (first :: others) (wired e) in
          effects after = fst (redirectToPhishingWarning e)
          /\ navigations (effects after)
             = [ getURL e (js "phishing.html") ++ js "#"
                 ++ stringify [ (js "hostname", hostname (location (window e)));
                                (js "href", href (location (window e))) ] ]
          /\ listeners after = [])
    /\ (forall (h : handle) (ev : jsstring) (arg : value),
          h <> phishingStream \/ ev <> js "data" ->
          filter (hears h ev) (listeners (wired e)) = []
          /\ navigations (effects (emit h ev arg (wired e))) = [])
    /\ (forall (h : handle) (messages : list value),
          h <> phishingStream ->
          navigations (effects (receiveAll h messages (wired e))) = []).
Proof.
  exists 4, 13.
  split; [vm_compute; reflexivity|]. split; [vm_compute; reflexivity|].
  assert (Hunheard : forall h ev, h <> 13 \/ ev <> js "data" ->
            filter (hears h ev) (listeners (wired e)) = []).
  { intros h ev Hne. rewrite listeners_wired. cbn [filter]. unfold hears.
    cbn [target event].
    destruct (Nat.eqb 13 h) eqn:Eh; [|reflexivity].
    destruct (JsString.eqb (js "data") ev) eqn:Ee; [|reflexivity].
    apply Nat.eqb_eq in Eh. apply jsstring_eqb_true in Ee.
    exfalso. destruct Hne as [Hne|Hne]; apply Hne; congruence. }
  split; [|split].
  - intros first others. cbv zeta.
    pose (l := {| target := 13; event := js "data"; once := true;
                  listener := RedirectToPhishingWarning |}).
    destruct (once_listener_first_only 13 (wired e) l first others)
      as [Hsame _]; [reflexivity | reflexivity |].
    rewrite Hsame. unfold receiveAll. cbn [fold_left].
    destruct (emit_once 13 (js "data") first (wired e) l) as (_ & He & _);
      [reflexivity | reflexivity |].
    rewrite He.
    change (effects (wired e)) with (@nil Effect). cbn [app].
    change (callbackEffects (env (wired e)) (listener l) first)
      with (fst (redirectToPhishingWarning e)).
    split; [reflexivity|]. split; [apply navigations_redirect|].
    unfold emit. rewrite listeners_wired. reflexivity.
  - intros h ev arg Hne. split; [apply Hunheard; exact Hne|].
    rewrite emit_unheard by (apply Hunheard; exact Hne).
    rewrite effects_wired. reflexivity.
  - intros h messages Hne.
    rewrite receiveAll_unheard by (apply Hunheard; left; exact Hne).
    rewrite effects_wired. reflexivity.
Qed.

(** ** Which channels cross from one side to the other *)

(** X12.  On the wired page a pipe joins a channel of the page-side
    multiplexer and a channel of the extension-side multiplexer only for
    [provider], [publicConfig] and [cap]: the two channels then carry the
    same one of these names and the pipe is the pairing of the two.  The
    onboarding channel and the phishing channel are piped to no channel of
    the other side. *)
Theorem only_forwarded_channels_cross (e : Env) (p : Pipeline) (a b : handle) :
  In p (pipelines (wired e)) ->
  crosses (wired e) p a b ->
  exists channelName,
    In channelName forwardedChannels
    /\ channelNameOf (wired e) a = Some channelName
    /\ channelNameOf (wired e) b = Some channelName
    /\ members p = [a; b; a].
Proof.
  intros Hp (Ha & Hb & pageMux & extensionMux & Hpm & Hem & Hoa & Hob).
  assert (H3 : muxOn (wired e) PageSide = Some 3) by (vm_compute; reflexivity).
  assert (H4 : muxOn (wired e) ExtensionSide = Some 4) by (vm_compute; reflexivity).
  rewrite H3 in Hpm. rewrite H4 in Hem. clear H3 H4.
  injection Hpm as <-. injection Hem as <-.
  rewrite pipelines_wired in Hp.
  destruct Hp as [<-|[<-|[<-|[<-|[<-|[<-|[]]]]]]]; cbn [members] in *.
  - exfalso. destruct Ha as [<-|[<-|[<-|[]]]]; vm_compute in Hoa; discriminate.
  - exfalso. destruct Ha as [<-|[<-|[<-|[]]]]; vm_compute in Hoa; discriminate.
  - exfalso. destruct Hb as [<-|[<-|[]]]; vm_compute in Hob; discriminate.
  - exists (js "provider"). split; [left; reflexivity|].
    destruct Ha as [<-|[<-|[<-|[]]]]; vm_compute in Hoa; try discriminate;
      (destruct Hb as [<-|[<-|[<-|[]]]]; vm_compute in Hob; try discriminate;
       repeat split; reflexivity).
  - exists (js "publicConfig"). split; [right; left; reflexivity|].
    destruct Ha as [<-|[<-|[<-|[]]]]; vm_compute in Hoa; try discriminate;
      (destruct Hb as [<-|[<-|[<-|[]]]]; vm_compute in Hob; try discriminate;
       repeat split; reflexivity).
  - exists (js "cap"). split; [right; right; left; reflexivity|].
    destruct Ha as [<-|[<-|[<-|[]]]]; vm_compute in Hoa; try discriminate;
      (destruct Hb as [<-|[<-|[<-|[]]]]; vm_compute in Hob; try discriminate;
       repeat split; reflexivity).
Qed.

(** X12, at the pairing for [cap]. *)
Lemma only_forwarded_channels_cross_cap :
  let p := {| members := [11; 12; 11]; onDone := LogDisconnect (disconnectLabel (js "cap"));
              live := true |} in
  In p (pipelines (wired exampleEnv))
  /\ crosses (wired exampleEnv) p 11 12
  /\ exists channelName,
       In channelName forwardedChannels
       /\ channelNameOf (wired exampleEnv) 11 = Some channelName
       /\ channelNameOf (wired exampleEnv) 12 = Some channelName
       /\ members p = [11; 12; 11].
Proof.
  cbv zeta.
  assert (H1 : In {| members := [11; 12; 11];
                     onDone := LogDisconnect (disconnectLabel (js "cap"));
                     live := true |} (pipelines (wired exampleEnv)))
    by (rewrite pipelines_wired; do 5 right; left; reflexivity).
  assert (H2 : crosses (wired exampleEnv)
                 {| members := [11; 12; 11];
                    onDone := LogDisconnect (disconnectLabel (js "cap"));
                    live := true |} 11 12).
  { split; [left; reflexivity|]. split; [right; left; reflexivity|].
    exists 3, 4. repeat split; vm_compute; reflexivity. }
  split; [exact H1|]. split; [exact H2|].
  exact (only_forwarded_channels_cross exampleEnv _ 11 12 H1 H2).
Defined.

(** ** One pairing fails, the others go on *)

Lemma pairing_end_contained w a b cb x t :
  (forall h, statusOf w h = None) ->
  x = a \/ x = b ->
  filter (through x) (pipelines w)
  = [ {| members := [a; b; a]; onDone := cb; live := true |} ] ->
  forall h, statusOf (terminate x t w) h
            = if Nat.eqb h a || Nat.eqb h b then Some t else None.
Proof.
  intros Hopen Hx Hhit h.
  destruct (pipe_first_end w [a; b; a] cb x t (Hopen x) Hhit) as (Hst & _ & _).
  rewrite Hst, Hopen. cbn [existsb]. rewrite orb_false_r.
  destruct Hx as [-> | ->].
  - rewrite (Nat.eqb_sym a h).
    destruct (Nat.eqb h a), (Nat.eqb h b); reflexivity.
  - rewrite (Nat.eqb_sym b h).
    destruct (Nat.eqb h a), (Nat.eqb h b); reflexivity.
Qed.

Lemma pipelines_invoke cb arg w : pipelines (invoke cb arg w) = pipelines w.
Proof. reflexivity. Qed.

Lemma pipelines_fold_close t ms w : pipelines (fold_left (close t) ms w) = pipelines w.
Proof.
  revert w. induction ms as [|m ms IH]; intro w; [reflexivity|].
  cbn [fold_left]. rewrite IH. apply pipelines_close.
Qed.

Lemma listeners_close t w h : listeners (close t w h) = listeners w.
Proof. unfold close. destruct (statusOf w h); reflexivity. Qed.

Lemma listeners_fold_close t ms w : listeners (fold_left (close t) ms w) = listeners w.
Proof.
  revert w. induction ms as [|m ms IH]; intro w; [reflexivity|].
  cbn [fold_left]. rewrite IH. apply listeners_close.
Qed.

Lemma listeners_fold_settle t ps w : listeners (fold_left (settle t) ps w) = listeners w.
Proof.
  revert w. induction ps as [|p ps IH]; intro w; [reflexivity|].
  cbn [fold_left]. rewrite IH. unfold settle, invoke.
  cbn [listeners withEffects withInvocations]. apply listeners_fold_close.
Qed.

(** The end of a stream takes no listener off. *)
Lemma listeners_terminate h t w : listeners (terminate h t w) = listeners w.
Proof.
  unfold terminate. destruct (statusOf w h); [reflexivity|].
  rewrite listeners_fold_settle. cbn [listeners withPipelines]. apply listeners_close.
Qed.

(** The pipes after the first end of a stream that runs through one live
    pipe: that pipe is finished, the others are as they were. *)
Lemma pipelines_first_end w ms cb x t :
  statusOf w x = None ->
  filter (through x) (pipelines w)
  = [ {| members := ms; onDone := cb; live := true |} ] ->
  pipelines (terminate x t w) = map (finish x) (pipelines w).
Proof.
  intros Hx Hhit. unfold terminate. rewrite Hx, Hhit. cbn [fold_left]. unfold settle.
  rewrite pipelines_invoke, pipelines_fold_close. cbn [pipelines withPipelines].
  rewrite pipelines_close. reflexivity.
Qed.

(** X13.  On the wired page the pairings fail one by one.  When a channel
    of the pairing for [provider], [publicConfig] or [cap] ends or errors,
    the two channels of that pairing end and its pipe is finished; every
    other stream stays open (the channels of the other two pairings, the
    onboarding channel, the phishing channel, both multiplexers and both
    transports), every other pipe stays live, and the phishing listener
    stays in place. *)
Theorem pairing_failure_is_contained (e : Env) (channelName : jsstring) :
  In channelName forwardedChannels ->
  exists pageMux extensionMux channelA channelB,
    muxOn (wired e) PageSide = Some pageMux
    /\ muxOn (wired e) ExtensionSide = Some extensionMux
    /\ channel (wired e) pageMux channelName = Some channelA
    /\ channel (wired e) extensionMux channelName = Some channelB
    /\ forall (x : handle) (t : Terminal),
         x = channelA \/ x = channelB ->
         let after := terminate x t (wired e) in
         (forall h, statusOf after h
                    = if Nat.eqb h channelA || Nat.eqb h channelB then Some t else None)
         /\ (forall p, In p (pipelines after) ->
               (live p = false <-> members p = [channelA; channelB; channelA]))
         /\ List.length (pipelines after) = List.length (pipelines (wired e))
         /\ listeners after = listeners (wired e).
Proof.
  intro Hname.
  assert (Hcases : channelName = js "provider" \/ channelName = js "publicConfig"
                   \/ channelName = js "cap").
  { unfold forwardedChannels in Hname. simpl in Hname. intuition. }
  assert (Hgen : forall a b : handle,
             (forall x, x = a \/ x = b ->
                filter (through x) (pipelines (wired e))
                = [ {| members := [a; b; a];
                       onDone := LogDisconnect (disconnectLabel channelName);
                       live := true |} ]
                /\ (forall p, In p (map (finish x) (pipelines (wired e))) ->
                      (live p = false <-> members p = [a; b; a]))) ->
             forall (x : handle) (t : Terminal),
               x = a \/ x = b ->
               let after := terminate x t (wired e) in
               (forall h, statusOf after h
                          = if Nat.eqb h a || Nat.eqb h b then Some t else None)
               /\ (forall p, In p (pipelines after) ->
                     (live p = false <-> members p = [a; b; a]))
               /\ List.length (pipelines after) = List.length (pipelines (wired e))
               /\ listeners after = listeners (wired e)).
  { intros a b Hhit x t Hx. cbv zeta. destruct (Hhit x Hx) as [Hf Hlive].
    pose proof (pipelines_first_end (wired e) [a; b; a] _ x t (statusOf_wired e x) Hf)
      as Hp.
    split; [exact (pairing_end_contained (wired e) a b _ x t (statusOf_wired e) Hx Hf)|].
    split; [rewrite Hp; exact Hlive|].
    split; [rewrite Hp; apply length_map|].
    apply listeners_terminate. }
  assert (Hdec : forall (a b : handle) (ps : list Pipeline),
             forallb (fun p => Bool.eqb (negb (live p))
                                 (match members p with
                                  | [u; v; u'] => Nat.eqb u a && Nat.eqb v b && Nat.eqb u' a
                                  | _ => false
                                  end)) ps = true ->
             forall p, In p ps -> (live p = false <-> members p = [a; b; a])).
  { intros a b ps Hall p Hin. rewrite forallb_forall in Hall. specialize (Hall p Hin).
    apply Bool.eqb_prop in Hall.
    destruct (live p); cbn [negb] in Hall; split; intro H; try discriminate; try reflexivity.
    - rewrite H, !Nat.eqb_refl in Hall. discriminate.
    - destruct (members p) as [|u [|v [|u' [|]]]]; try discriminate.
      symmetry in Hall. apply andb_true_iff in Hall. destruct Hall as [Hall H3].
      apply andb_true_iff in Hall. destruct Hall as [H1 H2].
      apply Nat.eqb_eq in H1, H2, H3. congruence. }
  destruct Hcases as [-> | [-> | ->]].
  - exists 3, 4, 7, 8. do 4 (split; [vm_compute; reflexivity|]).
    apply Hgen. intros x [-> | ->];
      (split; [vm_compute; reflexivity | apply Hdec; vm_compute; reflexivity]).
  - exists 3, 4, 9, 10. do 4 (split; [vm_compute; reflexivity|]).
    apply Hgen. intros x [-> | ->];
      (split; [vm_compute; reflexivity | apply Hdec; vm_compute; reflexivity]).
  - exists 3, 4, 11, 12. do 4 (split; [vm_compute; reflexivity|]).
    apply Hgen. intros x [-> | ->];
      (split; [vm_compute; reflexivity | apply Hdec; vm_compute; reflexivity]).
Qed.

(** X13, at the pairing for [cap]. *)
Lemma pairing_failure_is_contained_cap :
  In (js "cap") forwardedChannels
  /\ exists pageMux extensionMux channelA channelB,
       muxOn (wired exampleEnv) PageSide = Some pageMux
       /\ muxOn (wired exampleEnv) ExtensionSide = Some extensionMux
       /\ channel (wired exampleEnv) pageMux (js "cap") = Some channelA
       /\ channel (wired exampleEnv) extensionMux (js "cap") = Some channelB
       /\ forall (x : handle) (t : Terminal),
            x = channelA \/ x = channelB ->
            let after := terminate x t (wired exampleEnv) in
            (forall h, statusOf after h
                       = if Nat.eqb h channelA || Nat.eqb h channelB then Some t else None)
            /\ (forall p, In p (pipelines after) ->
                  (live p = false <-> members p = [channelA; channelB; channelA]))
            /\ List.length (pipelines after) = List.length (pipelines (wired exampleEnv))
            /\ listeners after = listeners (wired exampleEnv).
Proof.
  assert (H : In (js "cap") forwardedChannels) by (right; right; left; reflexivity).
  split; [exact H|].
  exact (pairing_failure_is_contained exampleEnv (js "cap") H).
Defined.

(** ** Script injection *)

Lemma attributes_eqb_true a b : attributes_eqb a b = true <-> a = b.
Proof.
  revert b. induction a as [|[k v] a IH]; intros [|[k' v'] b]; cbn [attributes_eqb];
    split; intro H; try reflexivity; try discriminate.
  - apply andb_true_iff in H. destruct H as [H Hab].
    apply andb_true_iff in H. destruct H as [Hk Hv].
    apply jsstring_eqb_true in Hk. apply jsstring_eqb_true in Hv.
    apply IH in Hab. congruence.
  - injection H as -> -> ->.
    rewrite (proj2 (jsstring_eqb_true k' k') eq_refl),
      (proj2 (jsstring_eqb_true v' v') eq_refl), (proj2 (IH b) eq_refl). reflexivity.
Qed.

Lemma node_eqb_true a b : node_eqb a b = true <-> a = b.
Proof.
  destruct a as [e i|at1 t1], b as [e' i'|at2 t2]; cbn [node_eqb];
    split; intro H; try discriminate.
  - apply andb_true_iff in H. destruct H as [He Hi].
    apply Bool.eqb_prop in He. apply Nat.eqb_eq in Hi. congruence.
  - injection H as -> ->. rewrite Bool.eqb_reflx, Nat.eqb_refl. reflexivity.
  - apply andb_true_iff in H. destruct H as [Ha Ht].
    apply attributes_eqb_true in Ha. apply jsstring_eqb_true in Ht. congruence.
  - injection H as -> ->.
    rewrite (proj2 (attributes_eqb_true at2 at2) eq_refl),
      (proj2 (jsstring_eqb_true t2 t2) eq_refl). reflexivity.
Qed.

Lemma node_eqb_false a b : a <> b -> node_eqb a b = false.
Proof.
  intro H. destruct (node_eqb a b) eqn:E; [|reflexivity].
  apply node_eqb_true in E. contradiction.
Qed.

(** Where [insertBefore] puts the node: behind the leading nodes that are
    no elements, in front of the first element. *)
Lemma insertBeforeFirstElement_split node l :
  exists before after,
    l = before ++ after
    /\ insertBeforeFirstElement node l = before ++ node :: after
    /\ (forall n, In n before -> isElement n = false)
    /\ (forall n rest, after = n :: rest -> isElement n = true).
Proof.
  induction l as [|n l IH].
  - exists [], []. repeat split; try reflexivity; [intros n [] | discriminate].
  - cbn [insertBeforeFirstElement]. destruct (isElement n) eqn:E.
    + exists [], (n :: l). repeat split; try reflexivity; [intros m [] |].
      intros m rest H. injection H as <- _. exact E.
    + destruct IH as (before & after & Hl & Hi & Hb & Ha).
      exists (n :: before), after. cbn [app]. rewrite <- Hl, Hi.
      repeat split; try reflexivity; [|exact Ha].
      intros m [<-|Hm]; [exact E | apply Hb; exact Hm].
Qed.

(** [removeChild] takes out the first occurrence of a child and throws
    where there is none. *)
Lemma removeChild_child node l :
  In node l ->
  exists before after,
    l = before ++ node :: after
    /\ ~ In node before
    /\ removeChild node l = Normal (before ++ after).
Proof.
  induction l as [|n l IH]; intro Hin; [destruct Hin|].
  cbn [removeChild]. destruct (node_eqb n node) eqn:E.
  - apply node_eqb_true in E. subst n. exists [], l.
    repeat split; try reflexivity. intros [].
  - assert (Hne : n <> node) by (intro H; apply node_eqb_true in H; congruence).
    destruct Hin as [Hin|Hin]; [contradiction|].
    destruct (IH Hin) as (before & after & Hl & Hb & Hr).
    exists (n :: before), after. rewrite Hr, Hl.
    repeat split; try reflexivity. intros [H|H]; [contradiction | exact (Hb H)].
Qed.

Lemma removeChild_stranger node l :
  ~ In node l ->
  removeChild node l
  = Throw (Error (js "NotFoundError: The node to be removed is not a child of this node.")).
Proof.
  induction l as [|n l IH]; intro Hin; [reflexivity|].
  cbn [removeChild]. rewrite node_eqb_false.
  - rewrite IH; [reflexivity|]. intro H. apply Hin. right. exact H.
  - intro H. apply Hin. left. exact H.
Qed.

Lemma child_or_stranger (node : Node) (l : list Node) : In node l \/ ~ In node l.
Proof.
  induction l as [|n l IH]; [right; intros []|].
  destruct (node_eqb n node) eqn:E.
  - left. left. apply node_eqb_true. exact E.
  - destruct IH as [H|H]; [left; right; exact H|].
    right. intros [Hn|Hn]; [|exact (H Hn)].
    apply node_eqb_true in Hn. congruence.
Qed.

(** Inserting a new node and removing it again gives the child nodes
    back. *)
Lemma removeChild_insertBeforeFirstElement node l :
  ~ In node l ->
  removeChild node (insertBeforeFirstElement node l) = Normal l.
Proof.
  induction l as [|n l IH]; intro Hin.
  - cbn [insertBeforeFirstElement removeChild].
    rewrite (proj2 (node_eqb_true node node) eq_refl). reflexivity.
  - cbn [insertBeforeFirstElement]. destruct (isElement n).
    + cbn [removeChild]. rewrite (proj2 (node_eqb_true node node) eq_refl). reflexivity.
    + cbn [removeChild]. rewrite node_eqb_false.
      * rewrite IH; [reflexivity|]. intro H. apply Hin. right. exact H.
      * intro H. apply Hin. left. exact H.
Qed.

Lemma withChildNodes_same p c :
  container p = Some c -> withChildNodes p c (childNodesOf p c) = p.
Proof.
  destruct p as [e hd rt rs]. unfold container, withChildNodes, childNodesOf.
  cbn [headNodes rootNodes pageEnv readyState].
  destruct hd as [l|].
  - intro H. injection H as <-. reflexivity.
  - destruct (documentElement (document (window e))); intro H; [|discriminate].
    injection H as <-. reflexivity.
Qed.

Lemma childNodesOf_withChildNodes p c l : childNodesOf (withChildNodes p c l) c = l.
Proof. destruct c; reflexivity. Qed.

(** X14.  [injectScript] on a page that has a head or a root element, and
    that leaves the child nodes of that container alone while the code
    runs: the code is put into the document exactly once, in a script
    element in front of the first element child of the container (the head
    if there is one, the root element otherwise), the element is taken out
    again, and the page is left exactly as it was, with nothing on the
    console. *)
Theorem injectScript_leaves_no_trace (behaviour : list Node -> list Node)
    (content : jsstring) (p : Page) (c : Container) :
  container p = Some c ->
  ~ In (scriptTagFor content) (childNodesOf p c) ->
  behaviour (insertBeforeFirstElement (scriptTagFor content) (childNodesOf p c))
  = insertBeforeFirstElement (scriptTagFor content) (childNodesOf p c) ->
  injectScript behaviour content p
  = {| pageAfter := p; inserted := [content]; logged := [] |}
  /\ (c = InHead <-> headNodes p <> None)
  /\ exists before after,
       childNodesOf p c = before ++ after
       /\ insertBeforeFirstElement (scriptTagFor content) (childNodesOf p c)
          = before ++ scriptTagFor content :: after
       /\ (forall n, In n before -> isElement n = false)
       /\ (forall n rest, after = n :: rest -> isElement n = true).
Proof.
  intros Hc Hfresh Hb. split; [|split].
  - unfold injectScript. rewrite Hc. cbv zeta. rewrite Hb.
    rewrite (removeChild_insertBeforeFirstElement _ _ Hfresh).
    rewrite (withChildNodes_same p c Hc). reflexivity.
  - unfold container in Hc. destruct (headNodes p) as [l|].
    + injection Hc as <-. split; [discriminate | reflexivity].
    + destruct (documentElement (document (window (pageEnv p)))); [|discriminate].
      injection Hc as <-. split; [discriminate | intro H; exfalso; apply H; reflexivity].
  - apply insertBeforeFirstElement_split.
Qed.

(** X14, at a page with a head that holds a comment and two elements. *)
Lemma injectScript_leaves_no_trace_example :
  container examplePage = Some InHead
  /\ ~ In (scriptTagFor (js "window.ethereum = {}")) (childNodesOf examplePage InHead)
  /\ untouched (insertBeforeFirstElement (scriptTagFor (js "window.ethereum = {}"))
                  (childNodesOf examplePage InHead))
     = insertBeforeFirstElement (scriptTagFor (js "window.ethereum = {}"))
         (childNodesOf examplePage InHead)
  /\ injectScript untouched (js "window.ethereum = {}") examplePage
     = {| pageAfter := examplePage; inserted := [ js "window.ethereum = {}" ];
          logged := [] |}
  /\ (InHead = InHead <-> headNodes examplePage <> None)
  /\ exists before after,
       childNodesOf examplePage InHead = before ++ after
       /\ insertBeforeFirstElement (scriptTagFor (js "window.ethereum = {}"))
            (childNodesOf examplePage InHead)
          = before ++ scriptTagFor (js "window.ethereum = {}") :: after
       /\ (forall n, In n before -> isElement n = false)
       /\ (forall n rest, after = n :: rest -> isElement n = true).
Proof.
  assert (H1 : container examplePage = Some InHead) by reflexivity.
  assert (H2 : ~ In (scriptTagFor (js "window.ethereum = {}"))
                    (childNodesOf examplePage InHead)).
  { simpl. intros [H|[H|[H|[]]]]; discriminate. }
  assert (H3 : untouched (insertBeforeFirstElement (scriptTagFor (js "window.ethereum = {}"))
                            (childNodesOf examplePage InHead))
               = insertBeforeFirstElement (scriptTagFor (js "window.ethereum = {}"))
                   (childNodesOf examplePage InHead)) by reflexivity.
  split; [exact H1|]. split; [exact H2|]. split; [exact H3|].
  exact (injectScript_leaves_no_trace untouched (js "window.ethereum = {}")
           examplePage InHead H1 H2 H3).
Defined.

(** X15.  [injectScript] never throws, and what it logs tells what went
    wrong.  Without a head and without a root element it touches nothing,
    puts no code into the document and logs one injection failure, the
    TypeError of the call on [null].  With a container the code goes into
    the document once, whatever happens next; the failure is logged, once,
    exactly when the script element is no longer a child of the container
    at the time of [removeChild], and the child nodes then stay as the
    page left them; otherwise the first occurrence of the element is taken
    out and nothing is logged.  What the gate looks at and the ready state
    are never changed. *)
Theorem injectScript_logs_its_failures (behaviour : list Node -> list Node)
    (content : jsstring) (p : Page) :
  let i := injectScript behaviour content p in
  (container p = None ->
   i = {| pageAfter := p; inserted := [];
          logged := [ injectionFailed
                        (TypeError (js "Cannot read property 'insertBefore' of null")) ] |})
  /\ (forall c, container p = Some c ->
        let during :=
          behaviour (insertBeforeFirstElement (scriptTagFor content) (childNodesOf p c)) in
        inserted i = [content]
        /\ (logged i = [] <-> In (scriptTagFor content) during)
        /\ (In (scriptTagFor content) during ->
            exists before after,
              during = before ++ scriptTagFor content :: after
              /\ ~ In (scriptTagFor content) before
              /\ childNodesOf (pageAfter i) c = before ++ after)
        /\ (~ In (scriptTagFor content) during ->
            childNodesOf (pageAfter i) c = during
            /\ logged i
               = [ injectionFailed
                     (Error (js "NotFoundError: The node to be removed is not a child of this node.")) ]))
  /\ List.length (logged i) <= 1
  /\ pageEnv (pageAfter i) = pageEnv p
  /\ readyState (pageAfter i) = readyState p.
Proof.
  cbv zeta. unfold injectScript.
  destruct (container p) as [c|] eqn:Hc.
  - set (tag := scriptTagFor content).
    set (during := behaviour (insertBeforeFirstElement tag (childNodesOf p c))).
    destruct (child_or_stranger tag during) as [Hin|Hout].
    + destruct (removeChild_child tag during Hin) as (before & after & Hd & Hb & Hr).
      rewrite Hr. cbn [pageAfter inserted logged List.length].
      split; [discriminate|]. split.
      * intros c' Hc'. injection Hc' as <-. split; [reflexivity|].
        split; [split; [intros _; exact Hin | reflexivity]|].
        split; [|intro H; contradiction].
        intros _. exists before, after. split; [exact Hd|]. split; [exact Hb|].
        apply childNodesOf_withChildNodes.
      * split; [lia|]. destruct c; split; reflexivity.
    + rewrite (removeChild_stranger tag during Hout).
      cbn [pageAfter inserted logged List.length].
      split; [discriminate|]. split.
      * intros c' Hc'. injection Hc' as <-. split; [reflexivity|].
        split; [split; [discriminate | intro H; contradiction]|].
        split; [intro H; contradiction|].
        intros _. split; [apply childNodesOf_withChildNodes | reflexivity].
      * split; [lia|]. destruct c; split; reflexivity.
  - cbn [pageAfter inserted logged List.length].
    split; [reflexivity|]. split; [discriminate|]. split; [lia|]. split; reflexivity.
Qed.

(** ** The top level of the script *)

Lemma setupStreams_returns e : setupStreams (initial e) = (Normal tt, wired e).
Proof. vm_compute. reflexivity. Qed.

Lemma Some_inj {A} (a b : A) : Some a = Some b -> a = b.
Proof. intro H. congruence. Qed.

Lemma start_wired p :
  start p = {| setupResult := Normal tt; wiring := wired (pageEnv p);
               readiness := Some (domIsReady p) |}.
Proof.
  unfold start. generalize (setupStreams_returns (pageEnv p)).
  generalize (setupStreams (initial (pageEnv p))). intros r ->. reflexivity.
Qed.

Lemma injectScript_keeps_env behaviour content p :
  pageEnv (pageAfter (injectScript behaviour content p)) = pageEnv p
  /\ readyState (pageAfter (injectScript behaviour content p)) = readyState p.
Proof.
  unfold injectScript. destruct (container p) as [c|]; [|split; reflexivity].
  destruct (removeChild _ _); destruct c; split; reflexivity.
Qed.

Lemma gate_true_has_root w :
  shouldInjectProvider w = Normal true -> documentElement (document w) <> None.
Proof.
  intros H Hnone. unfold shouldInjectProvider in H.
  destruct (doctypeCheck_returns w) as [b1 Hb1]. rewrite Hb1 in H.
  destruct b1; cbn [andAlso] in H; [|discriminate].
  unfold suffixCheck in H.
  destruct (suffixLoop prohibitedTypes (pathname (location w))); cbn [andAlso] in H;
    [|discriminate].
  unfold documentElementCheck in H. rewrite Hnone in H. cbn [andAlso] in H. discriminate.
Qed.

(** X16.  The script as a whole.  Injection and [start] happen together,
    and exactly when the gate returns [true]; when the gate returns
    [false] the script does nothing, and when the gate throws the
    exception is the script's own and nothing was injected or started.
    When the gate returns [true] the document has a root element, so
    [injectScript] finds a container: the code put into the document is
    the bundle, once, which is the text of the bundled file followed by
    the [sourceURL] comment with the extension's URL of [inpage.js] and a
    line feed.  [start] then runs on a fresh state: [setupStreams] returns
    without an exception, leaving the wiring [wired], and
    [domIsReady] is reached; it is settled at once unless the document is
    still loading. *)
Theorem script_runs_exactly_when_gate_accepts (behaviour : list Node -> list Node)
    (inpageContent : jsstring) (p : Page) :
  let o := contentscript behaviour inpageContent p in
  (shouldInjectProvider (window (pageEnv p)) = Normal true <-> injection o <> None)
  /\ (injection o <> None <-> started o <> None)
  /\ (forall e, uncaught o = Some e <-> shouldInjectProvider (window (pageEnv p)) = Throw e)
  /\ (shouldInjectProvider (window (pageEnv p)) = Normal false ->
      o = {| injection := None; started := None; uncaught := None |})
  /\ (forall i, injection o = Some i ->
        container p <> None
        /\ inserted i
           = [ inpageContent ++ js "//# sourceURL=" ++ getURL (pageEnv p) (js "inpage.js")
               ++ [ "010"%char ] ])
  /\ (forall s, started o = Some s ->
        setupResult s = Normal tt
        /\ wiring s = wired (pageEnv p)
        /\ readiness s = Some (domIsReady p)
        /\ (readiness s = Some ReadyNow <-> readyState p <> Loading)).
Proof.
  cbv zeta. unfold contentscript.
  destruct (shouldInjectProvider (window (pageEnv p))) as [[|]|e0] eqn:Hg;
    cbn [injection started uncaught].
  - split; [split; [discriminate | reflexivity]|].
    split; [split; discriminate|].
    split; [intro e; split; discriminate|].
    split; [discriminate|].
    assert (Hroot := gate_true_has_root _ Hg).
    assert (Hc : container p <> None).
    { unfold container. destruct (headNodes p); [discriminate|].
      destruct (documentElement (document (window (pageEnv p)))); [discriminate|].
      contradiction. }
    split.
    + intros i Hi. apply Some_inj in Hi. subst i. split; [exact Hc|].
      unfold injectScript. destruct (container p) as [c|]; [|contradiction].
      destruct (removeChild _ _); reflexivity.
    + intros s Hs. apply Some_inj in Hs. subst s. rewrite start_wired.
      destruct (injectScript_keeps_env behaviour
                  (inpageBundle inpageContent (pageEnv p)) p) as [He Hr].
      rewrite He. cbn [setupResult wiring readiness].
      unfold domIsReady. rewrite Hr.
      split; [reflexivity|]. split; [reflexivity|]. split; [reflexivity|].
      destruct (readyState p); split; intro H; try discriminate; try reflexivity;
        exfalso; apply H; reflexivity.
  - split; [split; [discriminate | intro H; exfalso; apply H; reflexivity]|].
    split; [split; intro H; exfalso; apply H; reflexivity|].
    split; [intro e; split; discriminate|].
    split; [reflexivity|]. split; intros x Hx; discriminate.
  - split; [split; [discriminate | intro H; exfalso; apply H; reflexivity]|].
    split; [split; intro H; exfalso; apply H; reflexivity|].
    split; [intro e; split; intro H; congruence|].
    split; [discriminate|]. split; intros x Hx; discriminate.
Qed.

(** ** [forwardTrafficBetweenMuxers] on any state *)

Lemma length_update {A} (l : list A) i x : List.length (update l i x) = List.length l.
Proof.
  revert i. induction l as [|y l IH]; intros [|i]; cbn [update List.length];
    try reflexivity. rewrite IH. reflexivity.
Qed.

Lemma nth_error_update_same {A} (l : list A) i x :
  i < List.length l -> nth_error (update l i x) i = Some x.
Proof.
  revert i. induction l as [|y l IH]; intros [|i] H; cbn [List.length] in H;
    try lia; cbn [update nth_error]; [reflexivity|]. apply IH. lia.
Qed.

Lemma nth_error_update_other {A} (l : list A) i j x :
  i <> j -> nth_error (update l i x) j = nth_error l j.
Proof.
  revert i j. induction l as [|y l IH]; intros [|i] [|j] H; cbn [update nth_error];
    try reflexivity; try congruence. apply IH. congruence.
Qed.

Lemma find_fresh_key (name : jsstring) (h : nat) (subs : list (jsstring * nat)) :
  hasKey name subs = false ->
  find (fun kv : jsstring * nat => JsString.eqb (fst kv) name) (subs ++ [(name, h)])
  = Some (name, h).
Proof.
  unfold hasKey, handle.
  induction subs as [|kv subs IH]; cbn [existsb app find fst]; intro H.
  - rewrite (proj2 (jsstring_eqb_true name name) eq_refl). reflexivity.
  - apply orb_false_iff in H. destruct H as [H1 H2]. rewrite H1. apply IH. exact H2.
Qed.

Lemma find_other_key (name other : jsstring) (h : nat) (subs : list (jsstring * nat)) :
  JsString.eqb name other = false ->
  find (fun kv : jsstring * nat => JsString.eqb (fst kv) other) (subs ++ [(name, h)])
  = find (fun kv : jsstring * nat => JsString.eqb (fst kv) other) subs.
Proof.
  intro H. induction subs as [|kv subs IH]; cbn [app find fst].
  - rewrite H. reflexivity.
  - destruct (JsString.eqb (fst kv) other); [reflexivity | exact IH].
Qed.

Lemma world_ext w1 w2 :
  env w1 = env w2 -> heap w1 = heap w2 -> closed w1 = closed w2 ->
  pipelines w1 = pipelines w2 -> listeners w1 = listeners w2 -> calls w1 = calls w2 ->
  invocations w1 = invocations w2 -> effects w1 = effects w2 -> w1 = w2.
Proof.
  destruct w1, w2.
  cbn [env heap closed pipelines listeners calls invocations effects].
  intros -> -> -> -> -> -> -> ->. reflexivity.
Qed.

Lemma forwardTrafficBetweenMuxers_forwarded channelName muxA muxB nA subsA nB subsB w :
  nth_error (heap w) muxA = Some (ObjectMultiplex nA subsA) ->
  nth_error (heap w) muxB = Some (ObjectMultiplex nB subsB) ->
  muxA <> muxB ->
  hasKey channelName subsA = false ->
  hasKey channelName subsB = false ->
  forwardTrafficBetweenMuxers channelName muxA muxB w
  = (Normal tt, forwarded channelName muxA muxB nA subsA nB subsB w).
Proof.
  intros HA HB Hne HkA HkB.
  assert (HlA : muxA < List.length (heap w))
    by (apply nth_error_Some; rewrite HA; discriminate).
  assert (HlB : muxB < List.length (heap w))
    by (apply nth_error_Some; rewrite HB; discriminate).
  unfold forwardTrafficBetweenMuxers, createStream, mbind, record, load, alloc, store,
    mret, pump.
  cbn [heap withCalls withHeap calls pipelines withPipelines].
  rewrite HA, HkA.
  cbn [heap withCalls withHeap calls pipelines withPipelines].
  rewrite (nth_error_update_other _ _ _ _ Hne).
  rewrite (nth_error_app1 _ _ HlB), HB, HkB.
  cbn [heap withCalls withHeap calls pipelines withPipelines].
  rewrite length_update, length_app. cbn [List.length].
  rewrite Nat.add_1_r. f_equal.
  apply world_ext;
    cbn [forwarded env heap closed pipelines listeners calls invocations effects
         withCalls withPipelines withHeap];
    try reflexivity.
  rewrite <- !app_assoc. reflexivity.
Qed.

Lemma hasKey_app name subs more :
  hasKey name (subs ++ more) = hasKey name subs || hasKey name more.
Proof. unfold hasKey. apply existsb_app. Qed.

Lemma channel_of_multiplexer w mux n subs name :
  nth_error (heap w) mux = Some (ObjectMultiplex n subs) ->
  channel w mux name
  = match find (fun kv : jsstring * nat => JsString.eqb (fst kv) name) subs with
    | Some kv => Some (snd kv)
    | None => None
    end.
Proof. intro H. unfold channel. rewrite H. reflexivity. Qed.

(** X17.  [forwardTrafficBetweenMuxers] on any state, for two different
    multiplexers that do not have a channel of the given name yet: it
    returns without an exception, makes one new channel of that name on
    each multiplexer and pipes the two in a row, first channel, second
    channel, first channel, under a disconnect logger labelled with the
    name.  Nothing else changes: the channels of other names, the pipes
    set up before, the other objects, the ended streams, the listeners
    and the console are as they were. *)
Theorem forwarder_pairs_two_new_channels (channelName : jsstring) (muxA muxB : handle)
    (nA : nat) (subsA : list (jsstring * handle))
    (nB : nat) (subsB : list (jsstring * handle)) (w : World) :
  nth_error (heap w) muxA = Some (ObjectMultiplex nA subsA) ->
  nth_error (heap w) muxB = Some (ObjectMultiplex nB subsB) ->
  muxA <> muxB ->
  hasKey channelName subsA = false ->
  hasKey channelName subsB = false ->
  let r := forwardTrafficBetweenMuxers channelName muxA muxB w in
  fst r = Normal tt
  /\ exists channelA channelB,
       channelA <> channelB
       /\ nth_error (heap w) channelA = None
       /\ nth_error (heap w) channelB = None
       /\ channel (snd r) muxA channelName = Some channelA
       /\ channel (snd r) muxB channelName = Some channelB
       /\ ownerOf (snd r) channelA = Some muxA
       /\ ownerOf (snd r) channelB = Some muxB
       /\ pipelines (snd r)
          = pipelines w
            ++ [ {| members := [channelA; channelB; channelA];
                    onDone := LogDisconnect (disconnectLabel channelName);
                    live := true |} ]
       /\ (forall mux other,
             JsString.eqb channelName other = false ->
             channel (snd r) mux other = channel w mux other)
       /\ (forall h, h <> muxA -> h <> muxB -> h < List.length (heap w) ->
             nth_error (heap (snd r)) h = nth_error (heap w) h)
       /\ closed (snd r) = closed w
       /\ listeners (snd r) = listeners w
       /\ invocations (snd r) = invocations w
       /\ effects (snd r) = effects w.
Proof.
  intros HA HB Hne HkA HkB. cbv zeta.
  rewrite (forwardTrafficBetweenMuxers_forwarded channelName muxA muxB nA subsA nB subsB w
             HA HB Hne HkA HkB).
  cbn [fst snd]. split; [reflexivity|].
  assert (HlA : muxA < List.length (heap w))
    by (apply nth_error_Some; rewrite HA; discriminate).
  assert (HlB : muxB < List.length (heap w))
    by (apply nth_error_Some; rewrite HB; discriminate).
  set (a := List.length (heap w)).
  set (h1 := update (heap w ++ [Substream muxA channelName]) muxA
               (ObjectMultiplex nA (subsA ++ [(channelName, a)]))).
  assert (Hl1 : List.length h1 = S a).
  { unfold h1. rewrite length_update, length_app. cbn [List.length]. lia. }
  assert (Hheap : heap (forwarded channelName muxA muxB nA subsA nB subsB w)
                  = update (h1 ++ [Substream muxB channelName]) muxB
                      (ObjectMultiplex nB (subsB ++ [(channelName, S a)])))
    by reflexivity.
  assert (HgetA : nth_error (heap (forwarded channelName muxA muxB nA subsA nB subsB w)) muxA
                  = Some (ObjectMultiplex nA (subsA ++ [(channelName, a)]))).
  { rewrite Hheap, nth_error_update_other by congruence.
    rewrite nth_error_app1 by lia. unfold h1.
    apply nth_error_update_same. rewrite length_app. cbn [List.length]. lia. }
  assert (HgetB : nth_error (heap (forwarded channelName muxA muxB nA subsA nB subsB w)) muxB
                  = Some (ObjectMultiplex nB (subsB ++ [(channelName, S a)]))).
  { rewrite Hheap. apply nth_error_update_same. rewrite length_app. lia. }
  assert (Hgeta : nth_error (heap (forwarded channelName muxA muxB nA subsA nB subsB w)) a
                  = Some (Substream muxA channelName)).
  { rewrite Hheap, nth_error_update_other by (unfold a; lia).
    rewrite nth_error_app1 by lia. unfold h1.
    rewrite nth_error_update_other by (unfold a; lia).
    rewrite nth_error_app2 by (unfold a; lia).
    unfold a. rewrite Nat.sub_diag. reflexivity. }
  assert (Hgetb : nth_error (heap (forwarded channelName muxA muxB nA subsA nB subsB w)) (S a)
                  = Some (Substream muxB channelName)).
  { rewrite Hheap, nth_error_update_other by (unfold a; lia).
    rewrite nth_error_app2 by lia. rewrite Hl1, Nat.sub_diag. reflexivity. }
  assert (Hold : forall h, h <> muxA -> h <> muxB -> h < a ->
            nth_error (heap (forwarded channelName muxA muxB nA subsA nB subsB w)) h
            = nth_error (heap w) h).
  { intros h H1 H2 H3. rewrite Hheap, nth_error_update_other by congruence.
    rewrite nth_error_app1 by lia. unfold h1.
    rewrite nth_error_update_other by congruence.
    apply nth_error_app1. exact H3. }
  assert (Hbeyond : forall h, S a < h ->
            nth_error (heap (forwarded channelName muxA muxB nA subsA nB subsB w)) h = None).
  { intros h H. apply nth_error_None. rewrite Hheap, length_update, length_app, Hl1.
    cbn [List.length]. lia. }
  exists a, (S a).
  split; [lia|].
  split; [apply nth_error_None; unfold a; lia|].
  split; [apply nth_error_None; unfold a; lia|].
  split.
  { rewrite (channel_of_multiplexer _ _ _ _ channelName HgetA). unfold handle.
    rewrite (find_fresh_key channelName a subsA HkA). reflexivity. }
  split.
  { rewrite (channel_of_multiplexer _ _ _ _ channelName HgetB). unfold handle.
    rewrite (find_fresh_key channelName (S a) subsB HkB). reflexivity. }
  split; [unfold ownerOf; rewrite Hgeta; reflexivity|].
  split; [unfold ownerOf; rewrite Hgetb; reflexivity|].
  split; [reflexivity|].
  split.
  { intros mux other Ho.
    destruct (Nat.eq_dec mux muxA) as [->|HmA].
    - rewrite (channel_of_multiplexer _ _ _ _ other HgetA),
        (channel_of_multiplexer _ _ _ _ other HA). unfold handle.
      rewrite (find_other_key _ _ _ _ Ho). reflexivity.
    - destruct (Nat.eq_dec mux muxB) as [->|HmB].
      + rewrite (channel_of_multiplexer _ _ _ _ other HgetB),
          (channel_of_multiplexer _ _ _ _ other HB). unfold handle.
        rewrite (find_other_key _ _ _ _ Ho). reflexivity.
      + destruct (lt_eq_lt_dec mux a) as [[Hlt|Heq]|Hgt].
        * unfold channel. rewrite (Hold mux HmA HmB Hlt). reflexivity.
        * subst mux. unfold channel. rewrite Hgeta.
          assert (Hn : nth_error (heap w) a = None) by (apply nth_error_None; unfold a; lia).
          rewrite Hn. reflexivity.
        * assert (Hn : nth_error (heap w) mux = None)
            by (apply nth_error_None; unfold a in Hgt; lia).
          unfold channel. rewrite Hn.
          destruct (Nat.eq_dec mux (S a)) as [->|Hs].
          -- rewrite Hgetb. reflexivity.
          -- rewrite Hbeyond by lia. reflexivity. }
  split; [exact Hold|].
  repeat split; reflexivity.
Qed.

(** X17, at the wired page and a channel name it does not use. *)
Lemma forwarder_pairs_two_new_channels_again :
  let w := wired exampleEnv in
  let subsA := [ (js "onboarding", 5); (js "provider", 7); (js "publicConfig", 9);
                 (js "cap", 11) ] in
  let subsB := [ (js "provider", 8); (js "publicConfig", 10); (js "cap", 12);
                 (js "phishing", 13) ] in
  nth_error (heap w) 3 = Some (ObjectMultiplex 25 subsA)
  /\ nth_error (heap w) 4 = Some (ObjectMultiplex 25 subsB)
  /\ 3 <> 4
  /\ hasKey (js "plugin") subsA = false
  /\ hasKey (js "plugin") subsB = false
  /\ let r := forwardTrafficBetweenMuxers (js "plugin") 3 4 w in
     fst r = Normal tt
     /\ exists channelA channelB,
          channelA <> channelB
          /\ nth_error (heap w) channelA = None
          /\ nth_error (heap w) channelB = None
          /\ channel (snd r) 3 (js "plugin") = Some channelA
          /\ channel (snd r) 4 (js "plugin") = Some channelB
          /\ ownerOf (snd r) channelA = Some 3
          /\ ownerOf (snd r) channelB = Some 4
          /\ pipelines (snd r)
             = pipelines w
               ++ [ {| members := [channelA; channelB; channelA];
                       onDone := LogDisconnect (disconnectLabel (js "plugin"));
                       live := true |} ]
          /\ (forall mux other,
                JsString.eqb (js "plugin") other = false ->
                channel (snd r) mux other = channel w mux other)
          /\ (forall h, h <> 3 -> h <> 4 -> h < List.length (heap w) ->
                nth_error (heap (snd r)) h = nth_error (heap w) h)
          /\ closed (snd r) = closed w
          /\ listeners (snd r) = listeners w
          /\ invocations (snd r) = invocations w
          /\ effects (snd r) = effects w.
Proof.
  cbv zeta.
  assert (H1 : nth_error (heap (wired exampleEnv)) 3
               = Some (ObjectMultiplex 25
                         [ (js "onboarding", 5); (js "provider", 7);
                           (js "publicConfig", 9); (js "cap", 11) ]))
    by (vm_compute; reflexivity).
  assert (H2 : nth_error (heap (wired exampleEnv)) 4
               = Some (ObjectMultiplex 25
                         [ (js "provider", 8); (js "publicConfig", 10); (js "cap", 12);
                           (js "phishing", 13) ]))
    by (vm_compute; reflexivity).
  assert (H3 : 3 <> 4) by lia.
  assert (H4 : hasKey (js "plugin")
                 [ (js "onboarding", 5); (js "provider", 7); (js "publicConfig", 9);
                   (js "cap", 11) ] = false) by reflexivity.
  assert (H5 : hasKey (js "plugin")
                 [ (js "provider", 8); (js "publicConfig", 10); (js "cap", 12);
                   (js "phishing", 13) ] = false) by reflexivity.
  split; [exact H1|]. split; [exact H2|]. split; [exact H3|].
  split; [exact H4|]. split; [exact H5|].
  exact (forwarder_pairs_two_new_channels (js "plugin") 3 4 25 _ 25 _ (wired exampleEnv)
           H1 H2 H3 H4 H5).
Defined.

(** X18.  [forwardTrafficBetweenMuxers] has no handler of its own: when
    the name is already in use on one of the two multiplexers, or the
    same multiplexer is given twice, the multiplexer's exception leaves
    the function and no pipe is made.  When it is the first multiplexer
    that refuses, no object was created; when it is the second, the
    channel made on the first one stays behind, with no pipe added for
    it. *)
Theorem forwarder_throws_on_taken_name (channelName : jsstring) (muxA muxB : handle)
    (nA : nat) (subsA : list (jsstring * handle))
    (nB : nat) (subsB : list (jsstring * handle)) (w : World) :
  nth_error (heap w) muxA = Some (ObjectMultiplex nA subsA) ->
  nth_error (heap w) muxB = Some (ObjectMultiplex nB subsB) ->
  hasKey channelName subsA = true \/ hasKey channelName subsB = true \/ muxA = muxB ->
  let r := forwardTrafficBetweenMuxers channelName muxA muxB w in
  fst r = Throw (Error (js "ObjectMultiplex - Substream for name " ++ quoted channelName
                        ++ js " already exists"))
  /\ pipelines (snd r) = pipelines w
  /\ closed (snd r) = closed w
  /\ listeners (snd r) = listeners w
  /\ effects (snd r) = effects w
  /\ (hasKey channelName subsA = true -> heap (snd r) = heap w)
  /\ (hasKey channelName subsA = false ->
      channel (snd r) muxA channelName = Some (List.length (heap w))
      /\ ownerOf (snd r) (List.length (heap w)) = Some muxA).
Proof.
  intros HA HB Hcase. cbv zeta.
  assert (HlA : muxA < List.length (heap w))
    by (apply nth_error_Some; rewrite HA; discriminate).
  assert (HlB : muxB < List.length (heap w))
    by (apply nth_error_Some; rewrite HB; discriminate).
  unfold forwardTrafficBetweenMuxers, createStream, mbind, record, load, alloc, store,
    mret, mthrow.
  cbn [heap withCalls withHeap calls pipelines withPipelines].
  rewrite HA.
  destruct (hasKey channelName subsA) eqn:HkA.
  - cbn [fst snd]. do 5 (split; [reflexivity|]).
    split; [intros _; reflexivity | discriminate].
  - cbn [heap withCalls withHeap calls pipelines withPipelines].
    set (a := List.length (heap w)).
    match goal with |- context [nth_error ?h muxB] => set (h1 := h) end.
    assert (HgetA : nth_error h1 muxA
                    = Some (ObjectMultiplex nA (subsA ++ [(channelName, a)]))).
    { unfold h1. apply nth_error_update_same. rewrite length_app. lia. }
    assert (Hgeta : nth_error h1 a = Some (Substream muxA channelName)).
    { unfold h1. rewrite nth_error_update_other by (unfold a; lia).
      rewrite nth_error_app2 by (unfold a; lia).
      unfold a. rewrite Nat.sub_diag. reflexivity. }
    assert (Hthrow : exists n subs,
               nth_error h1 muxB = Some (ObjectMultiplex n subs)
               /\ hasKey channelName subs = true).
    { destruct (Nat.eq_dec muxA muxB) as [<-|Hne].
      - exists nA, (subsA ++ [(channelName, a)]). split; [exact HgetA|].
        rewrite hasKey_app. unfold hasKey at 2. cbn [existsb fst].
        rewrite (proj2 (jsstring_eqb_true channelName channelName) eq_refl).
        rewrite orb_true_r. reflexivity.
      - exists nB, subsB. split.
        + unfold h1. rewrite nth_error_update_other by exact Hne.
          rewrite nth_error_app1 by exact HlB. exact HB.
        + destruct Hcase as [H|[H|H]]; [discriminate | exact H | contradiction]. }
    destruct Hthrow as (n & subs & Hget & Hk). rewrite Hget, Hk.
    cbn [fst snd].
    split; [reflexivity|]. split; [reflexivity|]. split; [reflexivity|].
    split; [reflexivity|]. split; [reflexivity|]. split; [discriminate|].
    intros _. split.
    + unfold channel. cbn [heap withCalls withHeap]. fold h1. rewrite HgetA.
      unfold handle. rewrite (find_fresh_key channelName a subsA HkA). reflexivity.
    + unfold ownerOf. cbn [heap withCalls withHeap]. fold h1. rewrite Hgeta. reflexivity.
Qed.

(** X18, at the wired page and the name [provider], which is in use. *)
Lemma forwarder_throws_on_taken_name_provider :
  let w := wired exampleEnv in
  let subsA := [ (js "onboarding", 5); (js "provider", 7); (js "publicConfig", 9);
                 (js "cap", 11) ] in
  let subsB := [ (js "provider", 8); (js "publicConfig", 10); (js "cap", 12);
                 (js "phishing", 13) ] in
  nth_error (heap w) 3 = Some (ObjectMultiplex 25 subsA)
  /\ nth_error (heap w) 4 = Some (ObjectMultiplex 25 subsB)
  /\ (hasKey (js "provider") subsA = true \/ hasKey (js "provider") subsB = true \/ 3 = 4)
  /\ let r := forwardTrafficBetweenMuxers (js "provider") 3 4 w in
     fst r = Throw (Error (js "ObjectMultiplex - Substream for name "
                           ++ quoted (js "provider") ++ js " already exists"))
     /\ pipelines (snd r) = pipelines w
     /\ closed (snd r) = closed w
     /\ listeners (snd r) = listeners w
     /\ effects (snd r) = effects w
     /\ (hasKey (js "provider") subsA = true -> heap (snd r) = heap w)
     /\ (hasKey (js "provider") subsA = false ->
         channel (snd r) 3 (js "provider") = Some (List.length (heap w))
         /\ ownerOf (snd r) (List.length (heap w)) = Some 3).
Proof.
  cbv zeta.
  assert (H1 : nth_error (heap (wired exampleEnv)) 3
               = Some (ObjectMultiplex 25
                         [ (js "onboarding", 5); (js "provider", 7);
                           (js "publicConfig", 9); (js "cap", 11) ]))
    by (vm_compute; reflexivity).
  assert (H2 : nth_error (heap (wired exampleEnv)) 4
               = Some (ObjectMultiplex 25
                         [ (js "provider", 8); (js "publicConfig", 10); (js "cap", 12);
                           (js "phishing", 13) ]))
    by (vm_compute; reflexivity).
  assert (H3 : hasKey (js "provider")
                 [ (js "onboarding", 5); (js "provider", 7); (js "publicConfig", 9);
                   (js "cap", 11) ] = true
               \/ hasKey (js "provider")
                    [ (js "provider", 8); (js "publicConfig", 10); (js "cap", 12);
                      (js "phishing", 13) ] = true
               \/ 3 = 4) by (left; reflexivity).
  split; [exact H1|]. split; [exact H2|]. split; [exact H3|].
  exact (forwarder_throws_on_taken_name (js "provider") 3 4 25 _ 25 _ (wired exampleEnv)
           H1 H2 H3).
Defined.
